(** * Medication viewer: pagination adapter and viewer state controller

    A shallow embedding of [src/utils/formatters.ts], [src/data/firestoreApi.ts]
    and [src/stores/MedicationViewerStore.ts], followed by the properties of
    the cursor cache, the load guards, the filters, the sort and the
    statistics.

    Modelling conventions:
    - a JavaScript [string] is a [string] of 8-bit characters; the character
      classes of [\d], [\s], [trim] and [toLowerCase] are the ones of the
      ASCII range;
    - a JavaScript [number] holding a page index, a count or a length is a
      [Z]; one holding a price is an exact rational [Q] (no NaN, no
      rounding): what is proved of the average price is which records enter
      it, not the last digits of the quotient;
    - the document store is an oracle [Firestore] that answers the n-th
      round trip of the session; every round trip is appended to a log;
    - a rejected promise is a [Throw], an awaited value an [Ok];
    - an action is run to completion from the state it is called in; the
      in-flight flags [isLoading] and [isLoadingAll] of that state stand
      for a load that is suspended at one of its awaits. *)

From Stdlib Require Import Ascii String DecimalString QArith Lqa.
From Stdlib Require Import Sorting.Sorted Sorting.Permutation.
From stdpp Require Import base gmap list strings.

Open Scope Z_scope.

(** ** JavaScript string primitives used by the sources *)

Module JsString.

Definition isDigit (c : ascii) : bool :=
  let n := nat_of_ascii c in (48 <=? n)%nat && (n <=? 57)%nat.

(** [\s] and the characters removed by [trim]: TAB, LF, VT, FF, CR, SPACE. *)
Definition isSpace (c : ascii) : bool :=
  let n := nat_of_ascii c in ((9 <=? n)%nat && (n <=? 13)%nat) || (n =? 32)%nat.

Definition lowerChar (c : ascii) : ascii :=
  let n := nat_of_ascii c in
  if (65 <=? n)%nat && (n <=? 90)%nat then ascii_of_nat (n + 32) else c.

Fixpoint toLowerCase (s : string) : string :=
  match s with
  | EmptyString => EmptyString
  | String c s' => String (lowerChar c) (toLowerCase s')
  end.

(** [s.startsWith(p)] *)
Fixpoint startsWith (s p : string) : bool :=
  match p, s with
  | EmptyString, _ => true
  | String _ _, EmptyString => false
  | String a p', String b s' => if Ascii.eqb a b then startsWith s' p' else false
  end.

(** [s.includes(q)] *)
Fixpoint includes (s q : string) : bool :=
  startsWith s q ||
  match s with
  | EmptyString => false
  | String _ s' => includes s' q
  end.

Fixpoint dropWhile (p : ascii -> bool) (l : list ascii) : list ascii :=
  match l with
  | [] => []
  | c :: l' => if p c then dropWhile p l' else l
  end.

Definition trimChars (l : list ascii) : list ascii :=
  rev (dropWhile isSpace (rev (dropWhile isSpace l))).

(** [s.trim()] *)
Definition trim (s : string) : string :=
  string_of_list_ascii (trimChars (list_ascii_of_string s)).

End JsString.

(** ** src/utils/formatters.ts *)

Module formatters.
Import JsString.

(** The match of [/^\{\d+\s+/]: an opening brace, one or more digits, one
    or more blanks. Returns what follows the match, if there is one. *)
Definition matchLeadingTag (name : list ascii) : option (list ascii) :=
  match name with
  | "{"%char :: r =>
      let r1 := dropWhile isDigit r in
      let r2 := dropWhile isSpace r1 in
      if (length r1 <? length r)%nat && (length r2 <? length r1)%nat
      then Some r2 else None
  | _ => None
  end.

(** [cleaned.replace(/\}$/, '')] *)
Definition dropTrailingBrace (l : list ascii) : list ascii :=
  match rev l with
  | "}"%char :: r => rev r
  | _ => l
  end.

Definition cleanMedicationName (name : string) : string :=
  match name with
  | EmptyString => ""
  | _ =>
      let chars := list_ascii_of_string name in
      let cleaned :=
        match matchLeadingTag chars with
        | Some rest => dropTrailingBrace rest
        | None => chars
        end in
      string_of_list_ascii (trimChars cleaned)
  end.

End formatters.

(** ** src/types/medication.ts *)

Record PricingStats := {
  min_unit_price : Q;
  median_unit_price : Q;
  max_unit_price : Q;
  pricing_unit : string;
  price_per_ml : option Q;
  price_per_mg : option Q;
  ndc_count : Z
}.

Record ConversionValues := {
  is_liquid : bool;
  package_size : option Q;
  package_unit : option string;
  strength_val : option Q;
  strength_unit : option string;
  scdc_rxcui : option string;
  data_source : string
}.

Record NdcLinks := {
  ndc11_all : list string;
  ndc11_preferred : list string
}.

Record Classification := {
  ingredient_name : option string;
  ingredient_rxcui : option string;
  atc_codes : list string
}.

Record Exemplar := {
  ndc11 : string;
  ndc_description : string;
  unit_price : Q;
  ex_pricing_unit : string;
  reason_selected : string;
  nadac_per_unit : Q;
  ex_package_size : option Q;
  package_description : option string
}.

Record DatasetVersions := {
  nadac_week : option string;
  rxnorm_version : option string;
  fda_date : option string
}.

Record MedicationDocument := {
  rxcui : string;
  name : string;
  tty : string;
  pricing_stats : PricingStats;
  conversion_values : ConversionValues;
  ndc_links : NdcLinks;
  exemplars : list Exemplar;
  classification : Classification;
  dataset_versions : DatasetVersions;
  created_at : option string;
  updated_at : option string
}.

Inductive SortField := F_name | F_rxcui | F_median_price | F_ndc_count.
Inductive SortDirection := asc | desc.

Definition SortField_eqb (a b : SortField) : bool :=
  match a, b with
  | F_name, F_name | F_rxcui, F_rxcui
  | F_median_price, F_median_price | F_ndc_count, F_ndc_count => true
  | _, _ => false
  end.

(** ** The document store and asynchronous calls *)

(** What a rejected promise carries: an [Error] object with its message, or
    any other value. *)
Inductive thrown := ErrorObj (message : string) | NonError.

Inductive Result (A : Type) :=
| Ok (a : A)
| Throw (e : thrown).
Arguments Ok {A} a.
Arguments Throw {A} e.

(** [err instanceof Error ? err.message : fallback] *)
Definition messageOf (e : thrown) (fallback : string) : string :=
  match e with
  | ErrorObj m => m
  | NonError => fallback
  end.

(** A [QueryDocumentSnapshot]: the store's handle on one document, used both
    as a carrier of [data()] and as a pagination cursor. *)
Record QueryDocumentSnapshot := {
  snap_ref : nat;
  snap_data : MedicationDocument
}.

(** One round trip to the store, with the answer it received. *)
Inductive Event :=
| EvCount (r : Result Z)
| EvGetDocs (startAfter : option QueryDocumentSnapshot) (lim : Z)
            (r : Result (list QueryDocumentSnapshot)).

(** The store: what it answers to the aggregate count and to an ordered,
    limited query when the request is the n-th round trip of the session. *)
Record Firestore := {
  getCountFromServer : nat -> Result Z;
  getDocs : nat -> option QueryDocumentSnapshot -> Z ->
            Result (list QueryDocumentSnapshot)
}.

(** An asynchronous computation over a state [S] (the round-trip log, alone
    or together with the controller). *)
Definition Async (S A : Type) : Type := Firestore -> S -> Result A * S.

Definition ret {S A} (a : A) : Async S A := fun _ s => (Ok a, s).

Definition bind {S A B} (m : Async S A) (k : A -> Async S B) : Async S B :=
  fun fs s =>
    match m fs s with
    | (Ok a, s') => k a fs s'
    | (Throw e, s') => (Throw e, s')
    end.

(** [try { m } catch { h }] *)
Definition tryCatch {S A} (m : Async S A) (h : thrown -> Async S A) : Async S A :=
  fun fs s =>
    match m fs s with
    | (Ok a, s') => (Ok a, s')
    | (Throw e, s') => h e fs s'
    end.

Notation "'await*' x := m 'in' k" := (bind m (fun x => k))
  (at level 10, x name, m at level 100, k at level 200, only parsing).

(** ** src/data/firestoreApi.ts *)

Module firestoreApi.

Record PaginatedResult := {
  medications : list MedicationDocument;
  totalCount : Z;
  hasMore : bool;
  lastDoc : option QueryDocumentSnapshot
}.

Definition getMedicationCount : Async (list Event) Z :=
  fun fs net =>
    let r := getCountFromServer fs (length net) in
    (r, net ++ [EvCount r]).

(** [await getDocs(q)] for the query ordered by [rxcui], resumed after
    [lastDocument] when there is one, limited to [pageSize]. *)
Definition runQuery (lastDocument : option QueryDocumentSnapshot) (pageSize : Z)
  : Async (list Event) (list QueryDocumentSnapshot) :=
  fun fs net =>
    let r := getDocs fs (length net) lastDocument pageSize in
    (r, net ++ [EvGetDocs lastDocument pageSize r]).

Definition fetchMedicationsPage (pageSize : Z)
    (lastDocument : option QueryDocumentSnapshot)
  : Async (list Event) PaginatedResult :=
  await* totalCount := tryCatch getMedicationCount (fun _ => ret 0) in
  await* docs := runQuery lastDocument pageSize in
  ret {| medications := map snap_data docs;
         totalCount := totalCount;
         hasMore := Z.of_nat (length docs) =? pageSize;
         lastDoc := last docs |}.

(** The [while (hasMore)] loop of [fetchAllMedications]; [St] is the state
    the progress callback writes to. [None]: the fuel ran out. *)
Fixpoint drain {St} (fuel : nat) (onProgress : Z -> option Z -> St -> St)
    (totalCount : option Z) (acc : list MedicationDocument)
    (lastDoc : option QueryDocumentSnapshot)
    (fs : Firestore) (st : St * list Event)
  : option (Result (list MedicationDocument) * (St * list Event)) :=
  match fuel with
  | O => None
  | S fuel' =>
      match fetchMedicationsPage 100 lastDoc fs (snd st) with
      | (Throw e, net') => Some (Throw e, (fst st, net'))
      | (Ok result, net') =>
          let acc' := acc ++ medications result in
          let s' := onProgress (Z.of_nat (length acc')) totalCount (fst st) in
          if hasMore result
          then drain fuel' onProgress totalCount acc' (firestoreApi.lastDoc result) fs (s', net')
          else Some (Ok acc', (s', net'))
      end
  end.

Definition fetchAllMedications {St} (fuel : nat)
    (onProgress : Z -> option Z -> St -> St) (fs : Firestore) (st : St * list Event)
  : option (Result (list MedicationDocument) * (St * list Event)) :=
  let (rc, net1) := getMedicationCount fs (snd st) in
  let totalCount := match rc with Ok c => Some c | Throw _ => None end in
  drain fuel onProgress totalCount [] None fs (fst st, net1).

End firestoreApi.

(** ** src/stores/MedicationViewerStore.ts: the state *)

Inductive ViewMode := cards | table.
Inductive Tab := database | tests | resolver.

Definition PAGE_SIZE : Z := 100.

Record MedicationViewerStore := {
  medications : list MedicationDocument;
  isLoading : bool;
  error : option string;
  totalCount : Z;
  isAuthenticated : bool;
  isLoadingAll : bool;
  loadingProgress : Z;
  allMedicationsLoaded : bool;
  currentPage : Z;
  pageSize : Z;
  lastDocuments : gmap Z QueryDocumentSnapshot;
  hasMore : bool;
  searchQuery : string;
  matchedOnly : bool;
  unmatchedOnly : bool;
  liquidsOnly : bool;
  solidsOnly : bool;
  minNdcCount : Z;
  sortField : SortField;
  sortDirection : SortDirection;
  viewMode : ViewMode;
  selectedMedication : option MedicationDocument;
  isDetailModalOpen : bool;
  activeTab : Tab
}.

(** The field values of a freshly constructed store. *)
Definition initialStore : MedicationViewerStore := {|
  medications := [];
  isLoading := false;
  error := None;
  totalCount := 0;
  isAuthenticated := false;
  isLoadingAll := false;
  loadingProgress := 0;
  allMedicationsLoaded := false;
  currentPage := 1;
  pageSize := PAGE_SIZE;
  lastDocuments := ∅;
  hasMore := true;
  searchQuery := "";
  matchedOnly := false;
  unmatchedOnly := false;
  liquidsOnly := false;
  solidsOnly := false;
  minNdcCount := 0;
  sortField := F_name;
  sortDirection := asc;
  viewMode := cards;
  selectedMedication := None;
  isDetailModalOpen := false;
  activeTab := database
|}.

(** Field assignments [this.f = v]. *)
Definition set_medications (v : list MedicationDocument) (s : MedicationViewerStore)
  : MedicationViewerStore :=
  {| medications := v; isLoading := isLoading s; error := error s;
     totalCount := totalCount s; isAuthenticated := isAuthenticated s;
     isLoadingAll := isLoadingAll s; loadingProgress := loadingProgress s;
     allMedicationsLoaded := allMedicationsLoaded s;
     currentPage := currentPage s; pageSize := pageSize s;
     lastDocuments := lastDocuments s; hasMore := hasMore s;
     searchQuery := searchQuery s; matchedOnly := matchedOnly s;
     unmatchedOnly := unmatchedOnly s; liquidsOnly := liquidsOnly s;
     solidsOnly := solidsOnly s; minNdcCount := minNdcCount s;
     sortField := sortField s; sortDirection := sortDirection s;
     viewMode := viewMode s; selectedMedication := selectedMedication s;
     isDetailModalOpen := isDetailModalOpen s; activeTab := activeTab s |}.

Definition set_isLoading (v : bool) (s : MedicationViewerStore)
  : MedicationViewerStore :=
  {| medications := medications s; isLoading := v; error := error s;
     totalCount := totalCount s; isAuthenticated := isAuthenticated s;
     isLoadingAll := isLoadingAll s; loadingProgress := loadingProgress s;
     allMedicationsLoaded := allMedicationsLoaded s;
     currentPage := currentPage s; pageSize := pageSize s;
     lastDocuments := lastDocuments s; hasMore := hasMore s;
     searchQuery := searchQuery s; matchedOnly := matchedOnly s;
     unmatchedOnly := unmatchedOnly s; liquidsOnly := liquidsOnly s;
     solidsOnly := solidsOnly s; minNdcCount := minNdcCount s;
     sortField := sortField s; sortDirection := sortDirection s;
     viewMode := viewMode s; selectedMedication := selectedMedication s;
     isDetailModalOpen := isDetailModalOpen s; activeTab := activeTab s |}.

Definition set_error (v : option string) (s : MedicationViewerStore)
  : MedicationViewerStore :=
  {| medications := medications s; isLoading := isLoading s; error := v;
     totalCount := totalCount s; isAuthenticated := isAuthenticated s;
     isLoadingAll := isLoadingAll s; loadingProgress := loadingProgress s;
     allMedicationsLoaded := allMedicationsLoaded s;
     currentPage := currentPage s; pageSize := pageSize s;
     lastDocuments := lastDocuments s; hasMore := hasMore s;
     searchQuery := searchQuery s; matchedOnly := matchedOnly s;
     unmatchedOnly := unmatchedOnly s; liquidsOnly := liquidsOnly s;
     solidsOnly := solidsOnly s; minNdcCount := minNdcCount s;
     sortField := sortField s; sortDirection := sortDirection s;
     viewMode := viewMode s; selectedMedication := selectedMedication s;
     isDetailModalOpen := isDetailModalOpen s; activeTab := activeTab s |}.

Definition set_totalCount (v : Z) (s : MedicationViewerStore)
  : MedicationViewerStore :=
  {| medications := medications s; isLoading := isLoading s;
     error := error s; totalCount := v; isAuthenticated := isAuthenticated s;
     isLoadingAll := isLoadingAll s; loadingProgress := loadingProgress s;
     allMedicationsLoaded := allMedicationsLoaded s;
     currentPage := currentPage s; pageSize := pageSize s;
     lastDocuments := lastDocuments s; hasMore := hasMore s;
     searchQuery := searchQuery s; matchedOnly := matchedOnly s;
     unmatchedOnly := unmatchedOnly s; liquidsOnly := liquidsOnly s;
     solidsOnly := solidsOnly s; minNdcCount := minNdcCount s;
     sortField := sortField s; sortDirection := sortDirection s;
     viewMode := viewMode s; selectedMedication := selectedMedication s;
     isDetailModalOpen := isDetailModalOpen s; activeTab := activeTab s |}.

Definition set_isAuthenticated (v : bool) (s : MedicationViewerStore)
  : MedicationViewerStore :=
  {| medications := medications s; isLoading := isLoading s;
     error := error s; totalCount := totalCount s; isAuthenticated := v;
     isLoadingAll := isLoadingAll s; loadingProgress := loadingProgress s;
     allMedicationsLoaded := allMedicationsLoaded s;
     currentPage := currentPage s; pageSize := pageSize s;
     lastDocuments := lastDocuments s; hasMore := hasMore s;
     searchQuery := searchQuery s; matchedOnly := matchedOnly s;
     unmatchedOnly := unmatchedOnly s; liquidsOnly := liquidsOnly s;
     solidsOnly := solidsOnly s; minNdcCount := minNdcCount s;
     sortField := sortField s; sortDirection := sortDirection s;
     viewMode := viewMode s; selectedMedication := selectedMedication s;
     isDetailModalOpen := isDetailModalOpen s; activeTab := activeTab s |}.

Definition set_isLoadingAll (v : bool) (s : MedicationViewerStore)
  : MedicationViewerStore :=
  {| medications := medications s; isLoading := isLoading s;
     error := error s; totalCount := totalCount s;
     isAuthenticated := isAuthenticated s; isLoadingAll := v;
     loadingProgress := loadingProgress s;
     allMedicationsLoaded := allMedicationsLoaded s;
     currentPage := currentPage s; pageSize := pageSize s;
     lastDocuments := lastDocuments s; hasMore := hasMore s;
     searchQuery := searchQuery s; matchedOnly := matchedOnly s;
     unmatchedOnly := unmatchedOnly s; liquidsOnly := liquidsOnly s;
     solidsOnly := solidsOnly s; minNdcCount := minNdcCount s;
     sortField := sortField s; sortDirection := sortDirection s;
     viewMode := viewMode s; selectedMedication := selectedMedication s;
     isDetailModalOpen := isDetailModalOpen s; activeTab := activeTab s |}.

Definition set_loadingProgress (v : Z) (s : MedicationViewerStore)
  : MedicationViewerStore :=
  {| medications := medications s; isLoading := isLoading s;
     error := error s; totalCount := totalCount s;
     isAuthenticated := isAuthenticated s; isLoadingAll := isLoadingAll s;
     loadingProgress := v; allMedicationsLoaded := allMedicationsLoaded s;
     currentPage := currentPage s; pageSize := pageSize s;
     lastDocuments := lastDocuments s; hasMore := hasMore s;
     searchQuery := searchQuery s; matchedOnly := matchedOnly s;
     unmatchedOnly := unmatchedOnly s; liquidsOnly := liquidsOnly s;
     solidsOnly := solidsOnly s; minNdcCount := minNdcCount s;
     sortField := sortField s; sortDirection := sortDirection s;
     viewMode := viewMode s; selectedMedication := selectedMedication s;
     isDetailModalOpen := isDetailModalOpen s; activeTab := activeTab s |}.

Definition set_allMedicationsLoaded (v : bool) (s : MedicationViewerStore)
  : MedicationViewerStore :=
  {| medications := medications s; isLoading := isLoading s;
     error := error s; totalCount := totalCount s;
     isAuthenticated := isAuthenticated s; isLoadingAll := isLoadingAll s;
     loadingProgress := loadingProgress s; allMedicationsLoaded := v;
     currentPage := currentPage s; pageSize := pageSize s;
     lastDocuments := lastDocuments s; hasMore := hasMore s;
     searchQuery := searchQuery s; matchedOnly := matchedOnly s;
     unmatchedOnly := unmatchedOnly s; liquidsOnly := liquidsOnly s;
     solidsOnly := solidsOnly s; minNdcCount := minNdcCount s;
     sortField := sortField s; sortDirection := sortDirection s;
     viewMode := viewMode s; selectedMedication := selectedMedication s;
     isDetailModalOpen := isDetailModalOpen s; activeTab := activeTab s |}.

Definition set_currentPage (v : Z) (s : MedicationViewerStore)
  : MedicationViewerStore :=
  {| medications := medications s; isLoading := isLoading s;
     error := error s; totalCount := totalCount s;
     isAuthenticated := isAuthenticated s; isLoadingAll := isLoadingAll s;
     loadingProgress := loadingProgress s;
     allMedicationsLoaded := allMedicationsLoaded s; currentPage := v;
     pageSize := pageSize s; lastDocuments := lastDocuments s;
     hasMore := hasMore s; searchQuery := searchQuery s;
     matchedOnly := matchedOnly s; unmatchedOnly := unmatchedOnly s;
     liquidsOnly := liquidsOnly s; solidsOnly := solidsOnly s;
     minNdcCount := minNdcCount s; sortField := sortField s;
     sortDirection := sortDirection s; viewMode := viewMode s;
     selectedMedication := selectedMedication s;
     isDetailModalOpen := isDetailModalOpen s; activeTab := activeTab s |}.

Definition set_lastDocuments (v : gmap Z QueryDocumentSnapshot) (s : MedicationViewerStore)
  : MedicationViewerStore :=
  {| medications := medications s; isLoading := isLoading s;
     error := error s; totalCount := totalCount s;
     isAuthenticated := isAuthenticated s; isLoadingAll := isLoadingAll s;
     loadingProgress := loadingProgress s;
     allMedicationsLoaded := allMedicationsLoaded s;
     currentPage := currentPage s; pageSize := pageSize s;
     lastDocuments := v; hasMore := hasMore s; searchQuery := searchQuery s;
     matchedOnly := matchedOnly s; unmatchedOnly := unmatchedOnly s;
     liquidsOnly := liquidsOnly s; solidsOnly := solidsOnly s;
     minNdcCount := minNdcCount s; sortField := sortField s;
     sortDirection := sortDirection s; viewMode := viewMode s;
     selectedMedication := selectedMedication s;
     isDetailModalOpen := isDetailModalOpen s; activeTab := activeTab s |}.

Definition set_hasMore (v : bool) (s : MedicationViewerStore)
  : MedicationViewerStore :=
  {| medications := medications s; isLoading := isLoading s;
     error := error s; totalCount := totalCount s;
     isAuthenticated := isAuthenticated s; isLoadingAll := isLoadingAll s;
     loadingProgress := loadingProgress s;
     allMedicationsLoaded := allMedicationsLoaded s;
     currentPage := currentPage s; pageSize := pageSize s;
     lastDocuments := lastDocuments s; hasMore := v;
     searchQuery := searchQuery s; matchedOnly := matchedOnly s;
     unmatchedOnly := unmatchedOnly s; liquidsOnly := liquidsOnly s;
     solidsOnly := solidsOnly s; minNdcCount := minNdcCount s;
     sortField := sortField s; sortDirection := sortDirection s;
     viewMode := viewMode s; selectedMedication := selectedMedication s;
     isDetailModalOpen := isDetailModalOpen s; activeTab := activeTab s |}.

Definition set_searchQuery (v : string) (s : MedicationViewerStore)
  : MedicationViewerStore :=
  {| medications := medications s; isLoading := isLoading s;
     error := error s; totalCount := totalCount s;
     isAuthenticated := isAuthenticated s; isLoadingAll := isLoadingAll s;
     loadingProgress := loadingProgress s;
     allMedicationsLoaded := allMedicationsLoaded s;
     currentPage := currentPage s; pageSize := pageSize s;
     lastDocuments := lastDocuments s; hasMore := hasMore s;
     searchQuery := v; matchedOnly := matchedOnly s;
     unmatchedOnly := unmatchedOnly s; liquidsOnly := liquidsOnly s;
     solidsOnly := solidsOnly s; minNdcCount := minNdcCount s;
     sortField := sortField s; sortDirection := sortDirection s;
     viewMode := viewMode s; selectedMedication := selectedMedication s;
     isDetailModalOpen := isDetailModalOpen s; activeTab := activeTab s |}.

Definition set_matchedOnly (v : bool) (s : MedicationViewerStore)
  : MedicationViewerStore :=
  {| medications := medications s; isLoading := isLoading s;
     error := error s; totalCount := totalCount s;
     isAuthenticated := isAuthenticated s; isLoadingAll := isLoadingAll s;
     loadingProgress := loadingProgress s;
     allMedicationsLoaded := allMedicationsLoaded s;
     currentPage := currentPage s; pageSize := pageSize s;
     lastDocuments := lastDocuments s; hasMore := hasMore s;
     searchQuery := searchQuery s; matchedOnly := v;
     unmatchedOnly := unmatchedOnly s; liquidsOnly := liquidsOnly s;
     solidsOnly := solidsOnly s; minNdcCount := minNdcCount s;
     sortField := sortField s; sortDirection := sortDirection s;
     viewMode := viewMode s; selectedMedication := selectedMedication s;
     isDetailModalOpen := isDetailModalOpen s; activeTab := activeTab s |}.

Definition set_unmatchedOnly (v : bool) (s : MedicationViewerStore)
  : MedicationViewerStore :=
  {| medications := medications s; isLoading := isLoading s;
     error := error s; totalCount := totalCount s;
     isAuthenticated := isAuthenticated s; isLoadingAll := isLoadingAll s;
     loadingProgress := loadingProgress s;
     allMedicationsLoaded := allMedicationsLoaded s;
     currentPage := currentPage s; pageSize := pageSize s;
     lastDocuments := lastDocuments s; hasMore := hasMore s;
     searchQuery := searchQuery s; matchedOnly := matchedOnly s;
     unmatchedOnly := v; liquidsOnly := liquidsOnly s;
     solidsOnly := solidsOnly s; minNdcCount := minNdcCount s;
     sortField := sortField s; sortDirection := sortDirection s;
     viewMode := viewMode s; selectedMedication := selectedMedication s;
     isDetailModalOpen := isDetailModalOpen s; activeTab := activeTab s |}.

Definition set_liquidsOnly (v : bool) (s : MedicationViewerStore)
  : MedicationViewerStore :=
  {| medications := medications s; isLoading := isLoading s;
     error := error s; totalCount := totalCount s;
     isAuthenticated := isAuthenticated s; isLoadingAll := isLoadingAll s;
     loadingProgress := loadingProgress s;
     allMedicationsLoaded := allMedicationsLoaded s;
     currentPage := currentPage s; pageSize := pageSize s;
     lastDocuments := lastDocuments s; hasMore := hasMore s;
     searchQuery := searchQuery s; matchedOnly := matchedOnly s;
     unmatchedOnly := unmatchedOnly s; liquidsOnly := v;
     solidsOnly := solidsOnly s; minNdcCount := minNdcCount s;
     sortField := sortField s; sortDirection := sortDirection s;
     viewMode := viewMode s; selectedMedication := selectedMedication s;
     isDetailModalOpen := isDetailModalOpen s; activeTab := activeTab s |}.

Definition set_solidsOnly (v : bool) (s : MedicationViewerStore)
  : MedicationViewerStore :=
  {| medications := medications s; isLoading := isLoading s;
     error := error s; totalCount := totalCount s;
     isAuthenticated := isAuthenticated s; isLoadingAll := isLoadingAll s;
     loadingProgress := loadingProgress s;
     allMedicationsLoaded := allMedicationsLoaded s;
     currentPage := currentPage s; pageSize := pageSize s;
     lastDocuments := lastDocuments s; hasMore := hasMore s;
     searchQuery := searchQuery s; matchedOnly := matchedOnly s;
     unmatchedOnly := unmatchedOnly s; liquidsOnly := liquidsOnly s;
     solidsOnly := v; minNdcCount := minNdcCount s; sortField := sortField s;
     sortDirection := sortDirection s; viewMode := viewMode s;
     selectedMedication := selectedMedication s;
     isDetailModalOpen := isDetailModalOpen s; activeTab := activeTab s |}.

Definition set_minNdcCount (v : Z) (s : MedicationViewerStore)
  : MedicationViewerStore :=
  {| medications := medications s; isLoading := isLoading s;
     error := error s; totalCount := totalCount s;
     isAuthenticated := isAuthenticated s; isLoadingAll := isLoadingAll s;
     loadingProgress := loadingProgress s;
     allMedicationsLoaded := allMedicationsLoaded s;
     currentPage := currentPage s; pageSize := pageSize s;
     lastDocuments := lastDocuments s; hasMore := hasMore s;
     searchQuery := searchQuery s; matchedOnly := matchedOnly s;
     unmatchedOnly := unmatchedOnly s; liquidsOnly := liquidsOnly s;
     solidsOnly := solidsOnly s; minNdcCount := v; sortField := sortField s;
     sortDirection := sortDirection s; viewMode := viewMode s;
     selectedMedication := selectedMedication s;
     isDetailModalOpen := isDetailModalOpen s; activeTab := activeTab s |}.

Definition set_sortField (v : SortField) (s : MedicationViewerStore)
  : MedicationViewerStore :=
  {| medications := medications s; isLoading := isLoading s;
     error := error s; totalCount := totalCount s;
     isAuthenticated := isAuthenticated s; isLoadingAll := isLoadingAll s;
     loadingProgress := loadingProgress s;
     allMedicationsLoaded := allMedicationsLoaded s;
     currentPage := currentPage s; pageSize := pageSize s;
     lastDocuments := lastDocuments s; hasMore := hasMore s;
     searchQuery := searchQuery s; matchedOnly := matchedOnly s;
     unmatchedOnly := unmatchedOnly s; liquidsOnly := liquidsOnly s;
     solidsOnly := solidsOnly s; minNdcCount := minNdcCount s;
     sortField := v; sortDirection := sortDirection s;
     viewMode := viewMode s; selectedMedication := selectedMedication s;
     isDetailModalOpen := isDetailModalOpen s; activeTab := activeTab s |}.

Definition set_sortDirection (v : SortDirection) (s : MedicationViewerStore)
  : MedicationViewerStore :=
  {| medications := medications s; isLoading := isLoading s;
     error := error s; totalCount := totalCount s;
     isAuthenticated := isAuthenticated s; isLoadingAll := isLoadingAll s;
     loadingProgress := loadingProgress s;
     allMedicationsLoaded := allMedicationsLoaded s;
     currentPage := currentPage s; pageSize := pageSize s;
     lastDocuments := lastDocuments s; hasMore := hasMore s;
     searchQuery := searchQuery s; matchedOnly := matchedOnly s;
     unmatchedOnly := unmatchedOnly s; liquidsOnly := liquidsOnly s;
     solidsOnly := solidsOnly s; minNdcCount := minNdcCount s;
     sortField := sortField s; sortDirection := v; viewMode := viewMode s;
     selectedMedication := selectedMedication s;
     isDetailModalOpen := isDetailModalOpen s; activeTab := activeTab s |}.

Definition set_viewMode (v : ViewMode) (s : MedicationViewerStore)
  : MedicationViewerStore :=
  {| medications := medications s; isLoading := isLoading s;
     error := error s; totalCount := totalCount s;
     isAuthenticated := isAuthenticated s; isLoadingAll := isLoadingAll s;
     loadingProgress := loadingProgress s;
     allMedicationsLoaded := allMedicationsLoaded s;
     currentPage := currentPage s; pageSize := pageSize s;
     lastDocuments := lastDocuments s; hasMore := hasMore s;
     searchQuery := searchQuery s; matchedOnly := matchedOnly s;
     unmatchedOnly := unmatchedOnly s; liquidsOnly := liquidsOnly s;
     solidsOnly := solidsOnly s; minNdcCount := minNdcCount s;
     sortField := sortField s; sortDirection := sortDirection s;
     viewMode := v; selectedMedication := selectedMedication s;
     isDetailModalOpen := isDetailModalOpen s; activeTab := activeTab s |}.

Definition set_selectedMedication (v : option MedicationDocument) (s : MedicationViewerStore)
  : MedicationViewerStore :=
  {| medications := medications s; isLoading := isLoading s;
     error := error s; totalCount := totalCount s;
     isAuthenticated := isAuthenticated s; isLoadingAll := isLoadingAll s;
     loadingProgress := loadingProgress s;
     allMedicationsLoaded := allMedicationsLoaded s;
     currentPage := currentPage s; pageSize := pageSize s;
     lastDocuments := lastDocuments s; hasMore := hasMore s;
     searchQuery := searchQuery s; matchedOnly := matchedOnly s;
     unmatchedOnly := unmatchedOnly s; liquidsOnly := liquidsOnly s;
     solidsOnly := solidsOnly s; minNdcCount := minNdcCount s;
     sortField := sortField s; sortDirection := sortDirection s;
     viewMode := viewMode s; selectedMedication := v;
     isDetailModalOpen := isDetailModalOpen s; activeTab := activeTab s |}.

Definition set_isDetailModalOpen (v : bool) (s : MedicationViewerStore)
  : MedicationViewerStore :=
  {| medications := medications s; isLoading := isLoading s;
     error := error s; totalCount := totalCount s;
     isAuthenticated := isAuthenticated s; isLoadingAll := isLoadingAll s;
     loadingProgress := loadingProgress s;
     allMedicationsLoaded := allMedicationsLoaded s;
     currentPage := currentPage s; pageSize := pageSize s;
     lastDocuments := lastDocuments s; hasMore := hasMore s;
     searchQuery := searchQuery s; matchedOnly := matchedOnly s;
     unmatchedOnly := unmatchedOnly s; liquidsOnly := liquidsOnly s;
     solidsOnly := solidsOnly s; minNdcCount := minNdcCount s;
     sortField := sortField s; sortDirection := sortDirection s;
     viewMode := viewMode s; selectedMedication := selectedMedication s;
     isDetailModalOpen := v; activeTab := activeTab s |}.

Definition set_activeTab (v : Tab) (s : MedicationViewerStore)
  : MedicationViewerStore :=
  {| medications := medications s; isLoading := isLoading s;
     error := error s; totalCount := totalCount s;
     isAuthenticated := isAuthenticated s; isLoadingAll := isLoadingAll s;
     loadingProgress := loadingProgress s;
     allMedicationsLoaded := allMedicationsLoaded s;
     currentPage := currentPage s; pageSize := pageSize s;
     lastDocuments := lastDocuments s; hasMore := hasMore s;
     searchQuery := searchQuery s; matchedOnly := matchedOnly s;
     unmatchedOnly := unmatchedOnly s; liquidsOnly := liquidsOnly s;
     solidsOnly := solidsOnly s; minNdcCount := minNdcCount s;
     sortField := sortField s; sortDirection := sortDirection s;
     viewMode := viewMode s; selectedMedication := selectedMedication s;
     isDetailModalOpen := isDetailModalOpen s; activeTab := v |}.

(** ** src/stores/MedicationViewerStore.ts: computed values *)

Definition isUnmatched (m : MedicationDocument) : bool :=
  JsString.startsWith (rxcui m) "UNMATCHED_".

Definition ndcCount (m : MedicationDocument) : Z :=
  Z.of_nat (length (ndc11_all (ndc_links m))).

Definition medianPrice (m : MedicationDocument) : Q :=
  median_unit_price (pricing_stats m).

(** The predicate of the search filter, for the lower-cased query. *)
Definition searchMatches (query : string) (m : MedicationDocument) : bool :=
  JsString.includes (JsString.toLowerCase (formatters.cleanMedicationName (name m))) query
  || JsString.includes (JsString.toLowerCase (rxcui m)) query
  || match ingredient_name (classification m) with
     | Some n => JsString.includes (JsString.toLowerCase n) query
     | None => false
     end.

(** [if (cond) result = result.filter(p)] *)
Definition filterWhen (cond : bool) (p : MedicationDocument -> bool)
    (result : list MedicationDocument) : list MedicationDocument :=
  if cond then List.filter p result else result.

(** [this.searchQuery.trim()] is truthy *)
Definition searchActive (s : MedicationViewerStore) : bool :=
  negb (String.eqb (JsString.trim (searchQuery s)) "").

Definition filteredMedications (s : MedicationViewerStore)
  : list MedicationDocument :=
  let result := medications s in
  let result :=
    filterWhen (searchActive s)
      (searchMatches (JsString.toLowerCase (searchQuery s))) result in
  let result := filterWhen (matchedOnly s) (fun m => negb (isUnmatched m)) result in
  let result := filterWhen (unmatchedOnly s) isUnmatched result in
  let result := filterWhen (liquidsOnly s)
                  (fun m => is_liquid (conversion_values m)) result in
  let result := filterWhen (solidsOnly s)
                  (fun m => negb (is_liquid (conversion_values m))) result in
  filterWhen (0 <? minNdcCount s)
    (fun m => minNdcCount s <=? ndcCount m) result.

(** [Array.prototype.sort(compareFn)]: a stable sort; [x] goes after [y]
    exactly when [compareFn(x, y) > 0]. For a consistent comparator every
    stable sort returns this list. *)
Fixpoint sortInsert {A} (compareFn : A -> A -> Q) (x : A) (l : list A) : list A :=
  match l with
  | [] => [x]
  | y :: l' =>
      if Qle_bool (compareFn x y) 0 then x :: l
      else y :: sortInsert compareFn x l'
  end.

Fixpoint arraySort {A} (compareFn : A -> A -> Q) (l : list A) : list A :=
  match l with
  | [] => []
  | x :: l' => sortInsert compareFn x (arraySort compareFn l')
  end.

Section Sorting.

(** [String.prototype.localeCompare] of the host: negative, zero or
    positive. *)
Variable localeCompare : string -> string -> Z.

Definition dirFactor (d : SortDirection) : Q :=
  match d with
  | asc => 1
  | desc => -1
  end.

(** The comparator passed to [sorted.sort]. *)
Definition compareFn (field : SortField) (d : SortDirection)
    (a b : MedicationDocument) : Q :=
  let dir := dirFactor d in
  match field with
  | F_name =>
      inject_Z (localeCompare (formatters.cleanMedicationName (name a))
                              (formatters.cleanMedicationName (name b))) * dir
  | F_rxcui => inject_Z (localeCompare (rxcui a) (rxcui b)) * dir
  | F_median_price => (medianPrice a - medianPrice b) * dir
  | F_ndc_count => (inject_Z (ndcCount a) - inject_Z (ndcCount b)) * dir
  end.

Definition sortedMedications (s : MedicationViewerStore)
  : list MedicationDocument :=
  arraySort (compareFn (sortField s) (sortDirection s)) (filteredMedications s).

End Sorting.

Record Stats := {
  total : Z;
  pageCount : Z;
  matched : Z;
  unmatched : Z;
  liquids : Z;
  solids : Z;
  totalNdcs : Z;
  avgMedianPrice : Q
}.

Definition lengthZ {A} (l : list A) : Z := Z.of_nat (length l).

Definition stats (s : MedicationViewerStore) : Stats :=
  let list := medications s in
  let matched := List.filter (fun m => negb (isUnmatched m)) list in
  let liquids := List.filter (fun m => is_liquid (conversion_values m)) list in
  let totalNdcs := fold_left (fun sum m => sum + ndcCount m) list 0 in
  let pricesWithValue :=
    List.filter (fun m => negb (Qle_bool (medianPrice m) 0)) list in
  let avgPrice :=
    if 0 <? lengthZ pricesWithValue
    then (fold_left (fun sum m => sum + medianPrice m) pricesWithValue 0
          / inject_Z (lengthZ pricesWithValue))%Q
    else 0%Q in
  {| total := totalCount s;
     pageCount := lengthZ list;
     matched := lengthZ matched;
     unmatched := lengthZ list - lengthZ matched;
     liquids := lengthZ liquids;
     solids := lengthZ list - lengthZ liquids;
     totalNdcs := totalNdcs;
     avgMedianPrice := avgPrice |}.

(** [Math.ceil(totalCount / pageSize)], for a positive page size. *)
Definition totalPages (s : MedicationViewerStore) : Z :=
  - ((- totalCount s) / pageSize s).

Definition canGoPrev (s : MedicationViewerStore) : bool := 1 <? currentPage s.

Definition canGoNext (s : MedicationViewerStore) : bool :=
  hasMore s || (currentPage s <? totalPages s).

(** ** src/stores/MedicationViewerStore.ts: actions *)

(** The controller together with the log of round trips. An action is run
    to completion from the state it is called in. *)
Definition Session : Type := MedicationViewerStore * list Event.

Definition liftNet {A} (m : Async (list Event) A) : Async Session A :=
  fun fs st => let (r, net') := m fs (snd st) in (r, (fst st, net')).

Definition getStore : Async Session MedicationViewerStore :=
  fun _ st => (Ok (fst st), st).

Definition modify (f : MedicationViewerStore -> MedicationViewerStore)
  : Async Session unit :=
  fun _ st => (Ok tt, (f (fst st), snd st)).

(** [this.lastDocuments.set(i, d)] *)
Definition cacheCursor (i : Z) (d : QueryDocumentSnapshot)
    (s : MedicationViewerStore) : MedicationViewerStore :=
  set_lastDocuments (<[i := d]> (lastDocuments s)) s.

(** The body of [for (let i = 1; i < page; i++)], over the values [i]
    takes. *)
Fixpoint bridge (pages : list Z) (currentDoc : option QueryDocumentSnapshot)
  : Async Session (option QueryDocumentSnapshot) :=
  match pages with
  | [] => ret currentDoc
  | i :: rest =>
      await* s := getStore in
      match lastDocuments s !! i with
      | Some c => bridge rest (Some c)
      | None =>
          await* result :=
            liftNet (firestoreApi.fetchMedicationsPage (pageSize s) currentDoc) in
          match firestoreApi.lastDoc result with
          | Some d =>
              await* _ := modify (cacheCursor i d) in
              bridge rest (Some d)
          | None => bridge rest currentDoc
          end
      end
  end.

(** The [if (page > 1)] block of [loadPage]: the cursor of the previous
    page, from the cache or by walking forward. *)
Definition previousCursor (page : Z)
  : Async Session (option QueryDocumentSnapshot) :=
  await* s := getStore in
  if 1 <? page then
    match lastDocuments s !! (page - 1) with
    | Some c => ret (Some c)
    | None => bridge (seqZ 1 (page - 1)) None
    end
  else ret None.

(** The [try] block of [loadPage]. *)
Definition loadPage_try (page : Z)
  : Async Session (Z * firestoreApi.PaginatedResult) :=
  await* count := liftNet firestoreApi.getMedicationCount in
  await* lastDoc := previousCursor page in
  await* s := getStore in
  await* result :=
    liftNet (firestoreApi.fetchMedicationsPage (pageSize s) lastDoc) in
  ret (count, result).

Definition loadPage_commit (page count : Z)
    (result : firestoreApi.PaginatedResult) (s : MedicationViewerStore)
  : MedicationViewerStore :=
  let s := set_medications (firestoreApi.medications result) s in
  let s := set_totalCount count s in
  let s := set_hasMore (firestoreApi.hasMore result) s in
  let s := set_currentPage page s in
  let s := match firestoreApi.lastDoc result with
           | Some d => cacheCursor page d s
           | None => s
           end in
  set_isLoading false s.

Definition loadPage_catch (e : thrown) (s : MedicationViewerStore)
  : MedicationViewerStore :=
  set_isLoading false
    (set_error (Some (messageOf e "Failed to load medications")) s).

Definition loadPage (page : Z) (fs : Firestore) (st : Session) : Session :=
  if isLoading (fst st) then st
  else if page <? 1 then st
  else
    let st := (set_error None (set_isLoading true (fst st)), snd st) in
    match loadPage_try page fs st with
    | (Ok (count, result), (s, net)) => (loadPage_commit page count result s, net)
    | (Throw e, (s, net)) => (loadPage_catch e s, net)
    end.

Definition nextPage (fs : Firestore) (st : Session) : Session :=
  if canGoNext (fst st) then loadPage (currentPage (fst st) + 1) fs st else st.

Definition prevPage (fs : Firestore) (st : Session) : Session :=
  if canGoPrev (fst st) then loadPage (currentPage (fst st) - 1) fs st else st.

Definition firstPage (fs : Firestore) (st : Session) : Session :=
  loadPage 1 fs st.

Definition refresh (fs : Firestore) (st : Session) : Session :=
  let s := set_lastDocuments ∅ (fst st) in
  let s := set_allMedicationsLoaded false s in
  loadPage 1 fs (s, snd st).

(** The progress callback handed to [fetchAllMedications]. *)
Definition onProgress (loaded : Z) (total : option Z)
    (s : MedicationViewerStore) : MedicationViewerStore :=
  let s := set_loadingProgress loaded s in
  match total with
  | Some t => set_totalCount t s
  | None => s
  end.

Definition loadAll_commit (allMeds : list MedicationDocument)
    (s : MedicationViewerStore) : MedicationViewerStore :=
  let s := set_medications allMeds s in
  let s := set_totalCount (lengthZ allMeds) s in
  let s := set_allMedicationsLoaded true s in
  let s := set_isLoadingAll false s in
  let s := set_currentPage 1 s in
  set_hasMore false s.

Definition loadAll_catch (e : thrown) (s : MedicationViewerStore)
  : MedicationViewerStore :=
  set_isLoadingAll false
    (set_error (Some (messageOf e "Failed to load all medications")) s).

(** [None]: the drain loop did not finish within [fuel] pages. *)
Definition loadAllMedications (fuel : nat) (fs : Firestore) (st : Session)
  : option Session :=
  if isLoadingAll (fst st) || isLoading (fst st) then Some st
  else
    let s := set_isLoadingAll true (fst st) in
    let s := set_loadingProgress 0 s in
    let s := set_error None s in
    match firestoreApi.fetchAllMedications fuel onProgress fs (s, snd st) with
    | None => None
    | Some (Ok allMeds, (s, net)) => Some (loadAll_commit allMeds s, net)
    | Some (Throw e, (s, net)) => Some (loadAll_catch e s, net)
    end.

(** The two calls of [src/data/firebase.ts] that [initialize] makes. *)
Record FirebaseApp := {
  isFirebaseConfigured : bool;
  initAuth : Result unit
}.

Definition initialize (app : FirebaseApp) (fs : Firestore) (st : Session)
  : Session :=
  if negb (isFirebaseConfigured app)
  then (set_error
          (Some "Firebase is not configured. Please check your .env file.")
          (fst st), snd st)
  else
    match initAuth app with
    | Ok _ => loadPage 1 fs (set_isAuthenticated true (fst st), snd st)
    | Throw e =>
        (set_isAuthenticated false
           (set_error (Some (messageOf e "Failed to authenticate")) (fst st)),
         snd st)
    end.

Definition setSearchQuery (query : string) (s : MedicationViewerStore) :=
  set_searchQuery query s.

Definition toggleMatchedOnly (s : MedicationViewerStore) : MedicationViewerStore :=
  let s := set_matchedOnly (negb (matchedOnly s)) s in
  if matchedOnly s then set_unmatchedOnly false s else s.

Definition toggleUnmatchedOnly (s : MedicationViewerStore) : MedicationViewerStore :=
  let s := set_unmatchedOnly (negb (unmatchedOnly s)) s in
  if unmatchedOnly s then set_matchedOnly false s else s.

Definition toggleLiquidsOnly (s : MedicationViewerStore) : MedicationViewerStore :=
  let s := set_liquidsOnly (negb (liquidsOnly s)) s in
  if liquidsOnly s then set_solidsOnly false s else s.

Definition toggleSolidsOnly (s : MedicationViewerStore) : MedicationViewerStore :=
  let s := set_solidsOnly (negb (solidsOnly s)) s in
  if solidsOnly s then set_liquidsOnly false s else s.

Definition setMinNdcCount (count : Z) (s : MedicationViewerStore) :=
  set_minNdcCount (Z.max 0 count) s.

Definition flipDirection (d : SortDirection) : SortDirection :=
  match d with
  | asc => desc
  | desc => asc
  end.

Definition setSortField (field : SortField) (s : MedicationViewerStore)
  : MedicationViewerStore :=
  if SortField_eqb (sortField s) field
  then set_sortDirection (flipDirection (sortDirection s)) s
  else set_sortDirection asc (set_sortField field s).

Definition setViewMode (mode : ViewMode) (s : MedicationViewerStore) :=
  set_viewMode mode s.

Definition openDetailModal (medication : MedicationDocument)
    (s : MedicationViewerStore) : MedicationViewerStore :=
  set_isDetailModalOpen true (set_selectedMedication (Some medication) s).

Definition closeDetailModal (s : MedicationViewerStore) : MedicationViewerStore :=
  set_selectedMedication None (set_isDetailModalOpen false s).

Definition resetFilters (s : MedicationViewerStore) : MedicationViewerStore :=
  let s := set_searchQuery "" s in
  let s := set_matchedOnly false s in
  let s := set_unmatchedOnly false s in
  let s := set_liquidsOnly false s in
  let s := set_solidsOnly false s in
  set_minNdcCount 0 s.

Definition clearError (s : MedicationViewerStore) := set_error None s.

Definition setActiveTab (tab : Tab) (s : MedicationViewerStore) :=
  set_activeTab tab s.

(** Every operation of the controller, as a step of the session. *)
Inductive Action :=
| Initialize (app : FirebaseApp)
| LoadPage (page : Z)
| NextPage
| PrevPage
| FirstPage
| Refresh
| LoadAllMedications (fuel : nat)
| SetSearchQuery (query : string)
| ToggleMatchedOnly
| ToggleUnmatchedOnly
| ToggleLiquidsOnly
| ToggleSolidsOnly
| SetMinNdcCount (count : Z)
| SetSortField (field : SortField)
| SetViewMode (mode : ViewMode)
| OpenDetailModal (medication : MedicationDocument)
| CloseDetailModal
| ResetFilters
| ClearError
| SetActiveTab (tab : Tab).

Definition onStore (f : MedicationViewerStore -> MedicationViewerStore)
    (st : Session) : option Session :=
  Some (f (fst st), snd st).

Definition perform (a : Action) (fs : Firestore) (st : Session)
  : option Session :=
  match a with
  | Initialize app => Some (initialize app fs st)
  | LoadPage page => Some (loadPage page fs st)
  | NextPage => Some (nextPage fs st)
  | PrevPage => Some (prevPage fs st)
  | FirstPage => Some (firstPage fs st)
  | Refresh => Some (refresh fs st)
  | LoadAllMedications fuel => loadAllMedications fuel fs st
  | SetSearchQuery query => onStore (setSearchQuery query) st
  | ToggleMatchedOnly => onStore toggleMatchedOnly st
  | ToggleUnmatchedOnly => onStore toggleUnmatchedOnly st
  | ToggleLiquidsOnly => onStore toggleLiquidsOnly st
  | ToggleSolidsOnly => onStore toggleSolidsOnly st
  | SetMinNdcCount count => onStore (setMinNdcCount count) st
  | SetSortField field => onStore (setSortField field) st
  | SetViewMode mode => onStore (setViewMode mode) st
  | OpenDetailModal medication => onStore (openDetailModal medication) st
  | CloseDetailModal => onStore closeDetailModal st
  | ResetFilters => onStore resetFilters st
  | ClearError => onStore clearError st
  | SetActiveTab tab => onStore (setActiveTab tab) st
  end.

(** The average-price statistic as the specification words it: the sum of
    the positive median prices over their number, 0 when there is none. A
    record whose median price is not positive adds to neither. *)
Fixpoint sumPositive (l : list MedicationDocument) : Q :=
  match l with
  | [] => 0
  | m :: l' =>
      if Qle_bool (medianPrice m) 0 then sumPositive l'
      else medianPrice m + sumPositive l'
  end.

Fixpoint countPositive (l : list MedicationDocument) : Z :=
  match l with
  | [] => 0
  | m :: l' =>
      if Qle_bool (medianPrice m) 0 then countPositive l'
      else 1 + countPositive l'
  end.

Definition meanOfPositive (l : list MedicationDocument) : Q :=
  if countPositive l =? 0 then 0
  else sumPositive l / inject_Z (countPositive l).

(** [m.pricing_stats.median_unit_price > 0] *)
Definition hasPrice (m : MedicationDocument) : bool :=
  negb (Qle_bool (medianPrice m) 0).

(** The value [fetchMedicationsPage] builds from the documents of a
    snapshot. *)
Definition pageResult (pageSize count : Z) (docs : list QueryDocumentSnapshot)
  : firestoreApi.PaginatedResult :=
  {| firestoreApi.medications := map snap_data docs;
     firestoreApi.totalCount := count;
     firestoreApi.hasMore := Z.of_nat (length docs) =? pageSize;
     firestoreApi.lastDoc := last docs |}.

Definition countOrZero (r : Result Z) : Z :=
  match r with
  | Ok c => c
  | Throw _ => 0
  end.

(** The round trip [ev] is a document query that failed with [e]. *)
Definition queryFailed (e : thrown) (ev : Event) : Prop :=
  match ev with
  | EvGetDocs _ _ (Throw e') => e' = e
  | _ => False
  end.

(** The document queries of a log, each with the cursor it resumed after
    and its limit. *)
Fixpoint pageQueries (evs : list Event)
  : list (option QueryDocumentSnapshot * Z) :=
  match evs with
  | [] => []
  | EvGetDocs after lim _ :: evs' => (after, lim) :: pageQueries evs'
  | EvCount _ :: evs' => pageQueries evs'
  end.

(** The records of the pages a log received, in order. *)
Fixpoint drainedPages (evs : list Event) : list (list MedicationDocument) :=
  match evs with
  | [] => []
  | EvGetDocs _ _ (Ok docs) :: evs' => map snap_data docs :: drainedPages evs'
  | _ :: evs' => drainedPages evs'
  end.

(** [loadPage(1)], then [loadPage(2)], ..., then [loadPage(K)]. *)
Fixpoint visitPages (fs : Firestore) (K : nat) (st : Session) : Session :=
  match K with
  | O => st
  | S k => loadPage (Z.of_nat (S k)) fs (visitPages fs k st)
  end.

(** A store that answers every round trip. *)
Definition healthy (fs : Firestore) : Prop :=
  (forall n, exists c, getCountFromServer fs n = Ok c) /\
  (forall n after lim, exists docs, getDocs fs n after lim = Ok docs).

(** The cursor the walk of [bridge] holds after the cached pages [pages]. *)
Definition lastCached (s : MedicationViewerStore) (pages : list Z)
    (currentDoc : option QueryDocumentSnapshot)
  : option QueryDocumentSnapshot :=
  fold_left (fun cur i => match lastDocuments s !! i with
                          | Some c => Some c
                          | None => cur
                          end) pages currentDoc.

(** The cursor [loadPage] resumes from after page [K]: none before the
    first page, the cached one otherwise. *)
Definition cursorOf (s : MedicationViewerStore) (K : Z)
  : option QueryDocumentSnapshot :=
  if K <? 1 then None else lastDocuments s !! K.

(** No cursor is cached for a page beyond [M]. *)
Definition cacheBelow (M : Z) (s : MedicationViewerStore) : Prop :=
  forall i, M < i -> lastDocuments s !! i = None.

(** The strict order a sort field puts on the records, for a given
    [localeCompare]. *)
Definition keyLt (localeCompare : string -> string -> Z) (field : SortField)
    (a b : MedicationDocument) : Prop :=
  match field with
  | F_name =>
      localeCompare (formatters.cleanMedicationName (name a))
                    (formatters.cleanMedicationName (name b)) < 0
  | F_rxcui => localeCompare (rxcui a) (rxcui b) < 0
  | F_median_price => (medianPrice a < medianPrice b)%Q
  | F_ndc_count => ndcCount a < ndcCount b
  end.

(** A [localeCompare] that orders strings by their code units. *)
Definition codeUnitCompare (x y : string) : Z :=
  match String.compare x y with
  | Eq => 0
  | Lt => -1
  | Gt => 1
  end.

(** The order of the numeric keys in a given direction. *)
Definition priceOrdered (d : SortDirection) (a b : MedicationDocument) : Prop :=
  match d with
  | asc => (medianPrice a <= medianPrice b)%Q
  | desc => (medianPrice b <= medianPrice a)%Q
  end.

Definition ndcCountOrdered (d : SortDirection) (a b : MedicationDocument) : Prop :=
  match d with
  | asc => ndcCount a <= ndcCount b
  | desc => ndcCount b <= ndcCount a
  end.

(** The sessions a store [fs] can bring about from a fresh controller. *)
Inductive reachable (fs : Firestore) : Session -> Prop :=
| reach_init : reachable fs (initialStore, [])
| reach_step a st st' :
    reachable fs st -> perform a fs st = Some st' -> reachable fs st'.

(** ** Stores used in the examples *)

Definition snapshotsOf (docs : list MedicationDocument)
  : list QueryDocumentSnapshot :=
  imap (fun i d => {| snap_ref := i; snap_data := d |}) docs.

(** The position a query resumes from. *)
Definition resumeIndex (after : option QueryDocumentSnapshot) : nat :=
  match after with
  | None => O
  | Some c => S (snap_ref c)
  end.

(** A store that serves a fixed collection in order and never fails. *)
Definition collectionStore (docs : list MedicationDocument) : Firestore := {|
  getCountFromServer _ := Ok (lengthZ docs);
  getDocs _ after lim :=
    Ok (take (Z.to_nat lim) (drop (resumeIndex after) (snapshotsOf docs)))
|}.

(** The same collection when the count aggregate is refused. *)
Definition countDeniedStore (docs : list MedicationDocument) : Firestore := {|
  getCountFromServer _ := Throw (ErrorObj "permission-denied");
  getDocs := getDocs (collectionStore docs)
|}.

(** The same collection when document queries fail. *)
Definition unavailableStore (docs : list MedicationDocument) : Firestore := {|
  getCountFromServer := getCountFromServer (collectionStore docs);
  getDocs _ _ _ := Throw (ErrorObj "unavailable")
|}.

Definition sampleDoc (id nm : string) (price : Q) (liquid : bool)
    (ndcs : list string) (ingredient : option string) : MedicationDocument := {|
  rxcui := id;
  name := nm;
  tty := "SCD";
  pricing_stats := {| min_unit_price := price; median_unit_price := price;
                      max_unit_price := price; pricing_unit := "EA";
                      price_per_ml := None; price_per_mg := None;
                      ndc_count := lengthZ ndcs |};
  conversion_values := {| is_liquid := liquid; package_size := None;
                          package_unit := None; strength_val := None;
                          strength_unit := None; scdc_rxcui := None;
                          data_source := "UNKNOWN" |};
  ndc_links := {| ndc11_all := ndcs; ndc11_preferred := [] |};
  exemplars := [];
  classification := {| ingredient_name := ingredient;
                       ingredient_rxcui := None; atc_codes := [] |};
  dataset_versions := {| nadac_week := None; rxnorm_version := None;
                         fda_date := None |};
  created_at := None;
  updated_at := None
|}.

Definition amoxicillin : MedicationDocument :=
  sampleDoc "308182" "{1 amoxicillin 250 MG Oral Capsule}" (8 # 10) false
    ["00093310701"; "00093310705"] (Some "amoxicillin").

Definition atorvastatin : MedicationDocument :=
  sampleDoc "617310" "atorvastatin 10 MG Oral Tablet" 10 false
    ["00071015523"] (Some "atorvastatin").

Definition cough_syrup : MedicationDocument :=
  sampleDoc "UNMATCHED_9f2c" "Cough Syrup 5 ML" 0 true [] None.

Definition ibuprofen : MedicationDocument :=
  sampleDoc "310965" "ibuprofen 200 MG Oral Tablet" 10 false
    ["00904585360"] (Some "ibuprofen").

(** A collection of [n] records with the identifiers 1000, 1001, ... *)
Definition catalogue (n : nat) : list MedicationDocument :=
  map (fun i => sampleDoc (NilEmpty.string_of_uint (Nat.to_uint (1000 + i)))
                  "ibuprofen 200 MG Oral Tablet" (5 # 100) false
                  ["00904585360"] (Some "ibuprofen"))
      (seq 0 n).

(** ** Paging through a fixed collection *)

(** The store answers every ordered query from the collection [docs]: the
    documents after the cursor, up to the limit. Nothing is said of the
    count aggregate. *)
Definition servesCollection (fs : Firestore) (docs : list MedicationDocument)
  : Prop :=
  forall n after lim,
    getDocs fs n after lim
    = Ok (take (Z.to_nat lim) (drop (resumeIndex after) (snapshotsOf docs))).

(** The records of page [N], for pages of [ps] records. *)
Definition pageSlice (ps : nat) (docs : list MedicationDocument) (N : Z)
  : list MedicationDocument :=
  take ps (drop (ps * Z.to_nat (N - 1)) docs).

(** Two positions of the ordering leave the same documents of a collection
    of [n] records after them. *)
Definition samePosition (n p q : nat) : Prop := Nat.min n p = Nat.min n q.

(** Every cached cursor of a page [i >= 1] resumes where [i] whole pages
    end. *)
Definition cacheConsistent (docs : list MedicationDocument)
    (s : MedicationViewerStore) : Prop :=
  forall i c, 1 <= i -> lastDocuments s !! i = Some c ->
    samePosition (length docs) (S (snap_ref c))
      (Z.to_nat (pageSize s) * Z.to_nat i).

(** The pages of a list that have no cached cursor. *)
Definition uncachedPages (s : MedicationViewerStore) (pages : list Z) : list Z :=
  List.filter (fun i => match lastDocuments s !! i with
                        | Some _ => false
                        | None => true
                        end) pages.

(** ** The controller between two actions *)

(** [isDetailModalOpen] says whether a record is selected. *)
Definition modalMatchesSelection (s : MedicationViewerStore) : Prop :=
  isDetailModalOpen s = match selectedMedication s with
                        | Some _ => true
                        | None => false
                        end.

(** What the actions keep true of the controller. *)
Record SessionInvariant (s : MedicationViewerStore) : Prop := {
  inv_isLoading : isLoading s = false;
  inv_isLoadingAll : isLoadingAll s = false;
  inv_pageSize : pageSize s = PAGE_SIZE;
  inv_currentPage : 1 <= currentPage s;
  inv_matched : matchedOnly s && unmatchedOnly s = false;
  inv_liquids : liquidsOnly s && solidsOnly s = false;
  inv_modal : modalMatchesSelection s
}.

(** ** The filters as one predicate *)

(** A record passes every filter that is enabled in [s]. *)
Definition passesFilters (s : MedicationViewerStore) (m : MedicationDocument)
  : bool :=
  (negb (searchActive s)
   || searchMatches (JsString.toLowerCase (searchQuery s)) m)
  && (negb (matchedOnly s) || negb (isUnmatched m))
  && (negb (unmatchedOnly s) || isUnmatched m)
  && (negb (liquidsOnly s) || is_liquid (conversion_values m))
  && (negb (solidsOnly s) || negb (is_liquid (conversion_values m)))
  && (negb (0 <? minNdcCount s) || (minNdcCount s <=? ndcCount m)).

(** A string of blanks only. *)
Fixpoint isBlank (q : string) : bool :=
  match q with
  | EmptyString => true
  | String c q' => JsString.isSpace c && isBlank q'
  end.

(** ** The filter predicates, as the specification words them *)

(** [u] is an upper-case letter and [l] the same letter in lower case. *)
Definition letterPair (u l : ascii) : Prop :=
  exists k : nat,
    (k < 26)%nat /\ u = ascii_of_nat (65 + k) /\ l = ascii_of_nat (97 + k).

(** Two characters that differ at most in letter case. *)
Definition sameLetter (c d : ascii) : Prop :=
  c = d \/ letterPair c d \/ letterPair d c.

(** Two strings of the same length that differ at most in letter case. *)
Fixpoint equalIgnoringCase (a b : string) : Prop :=
  match a, b with
  | EmptyString, EmptyString => True
  | String c a', String d b' => sameLetter c d /\ equalIgnoringCase a' b'
  | _, _ => False
  end.

(** A case-insensitive substring match: [query] occurs in [text], letter
    case apart. *)
Definition containsIgnoringCase (text query : string) : Prop :=
  exists pre mid post,
    text = pre +:+ mid +:+ post /\ equalIgnoringCase mid query.

(** The free-text match of a record: against the cleaned name, the
    identifier, or the ingredient name when there is one. *)
Definition matchesSearchText (query : string) (m : MedicationDocument) : Prop :=
  containsIgnoringCase (formatters.cleanMedicationName (name m)) query \/
  containsIgnoringCase (rxcui m) query \/
  exists n, ingredient_name (classification m) = Some n /\
            containsIgnoringCase n query.

(** [s] starts with [p]. *)
Definition hasPrefix (p s : string) : Prop := exists rest, s = p +:+ rest.

(** The blank characters: TAB, LF, VT, FF, CR and the space. *)
Definition blank (c : ascii) : Prop :=
  In c ["009"; "010"; "011"; "012"; "013"; " "]%char.

(** The search text holds a character that is not a blank. *)
Definition hasText (q : string) : Prop :=
  exists c, In c (list_ascii_of_string q) /\ ~ blank c.

(** ** src/data/firebase.ts: the configuration *)

(** [firebaseConfig]: the six settings read from the environment, absent
    when the variable is not set. *)
Record FirebaseConfig := {
  apiKey : option string;
  authDomain : option string;
  projectId : option string;
  storageBucket : option string;
  messagingSenderId : option string;
  appId : option string
}.

(** A setting is truthy when it is set and not the empty string. *)
Definition truthy (v : option string) : bool :=
  match v with
  | Some (String _ _) => true
  | _ => false
  end.

(** [Boolean(firebaseConfig.apiKey && firebaseConfig.projectId &&
    firebaseConfig.appId)] *)
Definition isFirebaseConfigured_of (cfg : FirebaseConfig) : bool :=
  truthy (apiKey cfg) && truthy (projectId cfg) && truthy (appId cfg).

(** The application for a configuration and an outcome of the anonymous
    sign-in. *)
Definition firebaseApp (cfg : FirebaseConfig) (signIn : Result unit)
  : FirebaseApp :=
  {| isFirebaseConfigured := isFirebaseConfigured_of cfg; initAuth := signIn |}.

(** * Properties *)

Example clean_scenario :
  formatters.cleanMedicationName "{1 amoxicillin 250 MG Oral Capsule}"
  = "amoxicillin 250 MG Oral Capsule".
Proof. reflexivity. Qed.

(** ** The adapter *)

Lemma fetchMedicationsPage_inv fs net pageSize lastDocument result net' :
  firestoreApi.fetchMedicationsPage pageSize lastDocument fs net
    = (Ok result, net') ->
  exists docs,
    getDocs fs (S (length net)) lastDocument pageSize = Ok docs /\
    result = {| firestoreApi.medications := map snap_data docs;
                firestoreApi.totalCount :=
                  match getCountFromServer fs (length net) with
                  | Ok c => c
                  | Throw _ => 0
                  end;
                firestoreApi.hasMore := Z.of_nat (length docs) =? pageSize;
                firestoreApi.lastDoc := last docs |} /\
    net' = net ++ [EvCount (getCountFromServer fs (length net));
                   EvGetDocs lastDocument pageSize (Ok docs)].
Proof.
  unfold firestoreApi.fetchMedicationsPage, bind, tryCatch, ret,
    firestoreApi.getMedicationCount, firestoreApi.runQuery.
  intros H.
  assert (Hlen : length (net ++ [EvCount (getCountFromServer fs (length net))])
                 = S (length net)) by (rewrite length_app; simpl; lia).
  destruct (getCountFromServer fs (length net)) as [c|e] eqn:Hc;
    rewrite Hlen in H;
    destruct (getDocs fs (S (length net)) lastDocument pageSize) as [docs|e'];
    inversion H; subst; clear H;
    exists docs; rewrite <- app_assoc; auto.
Qed.

(** C3. A successful [fetchMedicationsPage] reports [hasMore = true] exactly
    when the number of returned records equals [pageSize]: a shorter page
    reports [false], a full page reports [true] whatever follows it in the
    collection. *)
Theorem hasMore_boundary fs net pageSize lastDocument result net' :
  firestoreApi.fetchMedicationsPage pageSize lastDocument fs net
    = (Ok result, net') ->
  (firestoreApi.hasMore result = true
     <-> lengthZ (firestoreApi.medications result) = pageSize) /\
  (lengthZ (firestoreApi.medications result) < pageSize ->
     firestoreApi.hasMore result = false) /\
  (lengthZ (firestoreApi.medications result) = pageSize ->
     firestoreApi.hasMore result = true).
Proof.
  intros H. apply fetchMedicationsPage_inv in H as (docs & _ & -> & _).
  unfold lengthZ. simpl. rewrite length_map.
  repeat split; intros; lia.
Qed.

(** A full page that is the last one of a two-record collection still
    reports [hasMore]; a short one does not. *)
Lemma hasMore_boundary_witness :
  exists result net',
    firestoreApi.fetchMedicationsPage 2 None
      (collectionStore [amoxicillin; atorvastatin]) [] = (Ok result, net') /\
    lengthZ (firestoreApi.medications result) = 2 /\
    (firestoreApi.hasMore result = true
       <-> lengthZ (firestoreApi.medications result) = 2).
Proof.
  eexists. eexists. split; [reflexivity|]. split; [reflexivity|].
  exact (proj1 (hasMore_boundary
                  (collectionStore [amoxicillin; atorvastatin]) [] 2 None _ _
                  eq_refl)).
Defined.

(** ** Unfolding the asynchronous code one await at a time *)

Lemma bridge_cons i rest currentDoc fs s net :
  bridge (i :: rest) currentDoc fs (s, net) =
  match lastDocuments s !! i with
  | Some c => bridge rest (Some c) fs (s, net)
  | None =>
      match firestoreApi.fetchMedicationsPage (pageSize s) currentDoc fs net with
      | (Ok result, net1) =>
          match firestoreApi.lastDoc result with
          | Some d => bridge rest (Some d) fs (cacheCursor i d s, net1)
          | None => bridge rest currentDoc fs (s, net1)
          end
      | (Throw e, net1) => (Throw e, (s, net1))
      end
  end.
Proof.
  simpl. unfold bind, liftNet, getStore, modify. cbn [fst snd].
  destruct (lastDocuments s !! i); [reflexivity|]. cbn [fst snd].
  destruct (firestoreApi.fetchMedicationsPage (pageSize s) currentDoc fs net)
    as [[result|e] net1]; [|reflexivity].
  destruct (firestoreApi.lastDoc result); reflexivity.
Qed.

Lemma previousCursor_eq page fs s net :
  previousCursor page fs (s, net) =
  if 1 <? page then
    match lastDocuments s !! (page - 1) with
    | Some c => (Ok (Some c), (s, net))
    | None => bridge (seqZ 1 (page - 1)) None fs (s, net)
    end
  else (Ok None, (s, net)).
Proof.
  unfold previousCursor, bind, getStore, ret. cbn [fst snd].
  destruct (1 <? page); [|reflexivity].
  destruct (lastDocuments s !! (page - 1)); reflexivity.
Qed.

Lemma loadPage_try_eq page fs s net :
  loadPage_try page fs (s, net) =
  match firestoreApi.getMedicationCount fs net with
  | (Throw e, net1) => (Throw e, (s, net1))
  | (Ok count, net1) =>
      match previousCursor page fs (s, net1) with
      | (Throw e, st1) => (Throw e, st1)
      | (Ok lastDoc, (s1, net2)) =>
          match firestoreApi.fetchMedicationsPage (pageSize s1) lastDoc fs net2 with
          | (Ok result, net3) => (Ok (count, result), (s1, net3))
          | (Throw e, net3) => (Throw e, (s1, net3))
          end
      end
  end.
Proof.
  unfold loadPage_try, bind, liftNet, getStore, ret. cbn [fst snd].
  destruct (firestoreApi.getMedicationCount fs net) as [[count|e] net1];
    [|reflexivity].
  destruct (previousCursor page fs (s, net1)) as [[lastDoc|e] [s1 net2]];
    [|reflexivity].
  cbn [fst snd].
  destruct (firestoreApi.fetchMedicationsPage (pageSize s1) lastDoc fs net2)
    as [[result|e] net3]; reflexivity.
Qed.

Section Frame.

Context {B : Type} (f : MedicationViewerStore -> B).
Hypothesis f_cache : forall i d s, f (cacheCursor i d s) = f s.

Lemma bridge_frame pages : forall currentDoc fs st r st',
  bridge pages currentDoc fs st = (r, st') -> f (fst st') = f (fst st).
Proof.
  induction pages as [|i rest IH]; intros cur fs [s net] r st' H.
  - inversion H; subst; reflexivity.
  - rewrite bridge_cons in H.
    destruct (lastDocuments s !! i) as [c|].
    + apply IH in H. exact H.
    + destruct (firestoreApi.fetchMedicationsPage (pageSize s) cur fs net)
        as [[result|e] net1].
      * destruct (firestoreApi.lastDoc result) as [d|].
        -- apply IH in H. simpl in H. rewrite H. apply f_cache.
        -- apply IH in H. exact H.
      * inversion H; subst; reflexivity.
Qed.

Lemma previousCursor_frame page fs st r st' :
  previousCursor page fs st = (r, st') -> f (fst st') = f (fst st).
Proof.
  destruct st as [s net]. rewrite previousCursor_eq.
  destruct (1 <? page); [|intros H; inversion H; subst; reflexivity].
  destruct (lastDocuments s !! (page - 1));
    [intros H; inversion H; subst; reflexivity|].
  apply bridge_frame.
Qed.

Lemma loadPage_try_frame page fs st r st' :
  loadPage_try page fs st = (r, st') -> f (fst st') = f (fst st).
Proof.
  destruct st as [s net]. rewrite loadPage_try_eq.
  destruct (firestoreApi.getMedicationCount fs net) as [[count|e] net1];
    [|intros H; inversion H; subst; reflexivity].
  destruct (previousCursor page fs (s, net1)) as [[lastDoc|e] [s1 net2]] eqn:E;
    apply previousCursor_frame in E; simpl in E.
  - destruct (firestoreApi.fetchMedicationsPage (pageSize s1) lastDoc fs net2)
      as [[result|e] net3]; intros H; inversion H; subst; exact E.
  - intros H; inversion H; subst; exact E.
Qed.

Hypothesis f_progress : forall loaded total s, f (onProgress loaded total s) = f s.

Lemma drain_frame fuel : forall total acc lastDoc fs st r st',
  firestoreApi.drain fuel onProgress total acc lastDoc fs st = Some (r, st') ->
  f (fst st') = f (fst st).
Proof.
  induction fuel as [|fuel IH]; intros total acc lastDoc fs [s net] r st' H;
    [discriminate|].
  simpl in H.
  destruct (firestoreApi.fetchMedicationsPage 100 lastDoc fs net)
    as [[result|e] net1].
  - destruct (firestoreApi.hasMore result).
    + apply IH in H. simpl in H. rewrite H. apply f_progress.
    + inversion H; subst. simpl. apply f_progress.
  - inversion H; subst; reflexivity.
Qed.

Lemma fetchAllMedications_frame fuel fs st r st' :
  firestoreApi.fetchAllMedications fuel onProgress fs st = Some (r, st') ->
  f (fst st') = f (fst st).
Proof.
  unfold firestoreApi.fetchAllMedications.
  destruct (firestoreApi.getMedicationCount fs (snd st)) as [rc net1].
  intros H. apply drain_frame in H. exact H.
Qed.

End Frame.

(** ** Fields that the loads never write *)

Lemma loadPage_field {B} (f : MedicationViewerStore -> B) page fs st :
  (forall i d s, f (cacheCursor i d s) = f s) ->
  (forall v s, f (set_isLoading v s) = f s) ->
  (forall v s, f (set_error v s) = f s) ->
  (forall v s, f (set_medications v s) = f s) ->
  (forall v s, f (set_totalCount v s) = f s) ->
  (forall v s, f (set_hasMore v s) = f s) ->
  (forall v s, f (set_currentPage v s) = f s) ->
  f (fst (loadPage page fs st)) = f (fst st).
Proof.
  intros Hc Hl He Hm Ht Hh Hp. unfold loadPage.
  destruct (isLoading (fst st)); [reflexivity|].
  destruct (page <? 1); [reflexivity|].
  destruct (loadPage_try page fs _) as [[[count result]|e] [s1 net1]] eqn:E;
    apply (loadPage_try_frame f Hc) in E; cbn [fst snd] in *.
  - unfold loadPage_commit.
    rewrite Hl. destruct (firestoreApi.lastDoc result);
      rewrite ?Hc, Hp, Hh, Ht, Hm, E, He, Hl; reflexivity.
  - unfold loadPage_catch. rewrite Hl, He, E, He, Hl. reflexivity.
Qed.

Lemma loadAllMedications_field {B} (f : MedicationViewerStore -> B)
    fuel fs st st' :
  (forall v s, f (set_isLoadingAll v s) = f s) ->
  (forall v s, f (set_loadingProgress v s) = f s) ->
  (forall v s, f (set_error v s) = f s) ->
  (forall v s, f (set_medications v s) = f s) ->
  (forall v s, f (set_totalCount v s) = f s) ->
  (forall v s, f (set_hasMore v s) = f s) ->
  (forall v s, f (set_currentPage v s) = f s) ->
  (forall v s, f (set_allMedicationsLoaded v s) = f s) ->
  loadAllMedications fuel fs st = Some st' ->
  f (fst st') = f (fst st).
Proof.
  intros Ha Hg He Hm Ht Hh Hp Hl. unfold loadAllMedications.
  destruct (isLoadingAll (fst st) || isLoading (fst st));
    [intros H; inversion H; reflexivity|].
  assert (Hprog : forall loaded total s, f (onProgress loaded total s) = f s).
  { intros loaded [t|] s; unfold onProgress; rewrite ?Ht, Hg; reflexivity. }
  destruct (firestoreApi.fetchAllMedications fuel onProgress fs _)
    as [[[allMeds|e] [s1 net1]]|] eqn:E; [| |discriminate];
    apply (fetchAllMedications_frame f Hprog) in E; cbn [fst snd] in E;
    intros H; inversion H; subst; cbn [fst snd].
  - unfold loadAll_commit. rewrite Hh, Hp, Ha, Hl, Ht, Hm, E, He, Hg, Ha.
    reflexivity.
  - unfold loadAll_catch. rewrite Ha, He, E, He, Hg, Ha. reflexivity.
Qed.

Lemma perform_minNdcCount a fs st st' :
  0 <= minNdcCount (fst st) ->
  perform a fs st = Some st' ->
  0 <= minNdcCount (fst st').
Proof.
  intros Hst H.
  assert (Hload : forall page st0,
            minNdcCount (fst (loadPage page fs st0)) = minNdcCount (fst st0)).
  { intros. apply (loadPage_field minNdcCount); reflexivity. }
  destruct a; simpl in H; unfold onStore in H;
    try match type of H with
        | Some _ = Some _ => inversion H; subst; clear H; cbn [fst snd]
        end.
  - unfold initialize. destruct (negb (isFirebaseConfigured app)); [exact Hst|].
    destruct (initAuth app); [rewrite Hload|]; exact Hst.
  - rewrite Hload. exact Hst.
  - unfold nextPage. destruct (canGoNext _); [rewrite Hload|]; exact Hst.
  - unfold prevPage. destruct (canGoPrev _); [rewrite Hload|]; exact Hst.
  - unfold firstPage. rewrite Hload. exact Hst.
  - unfold refresh. rewrite Hload. exact Hst.
  - apply (loadAllMedications_field minNdcCount) in H; try reflexivity.
    rewrite H. exact Hst.
  - exact Hst.
  - unfold toggleMatchedOnly. simpl. destruct (negb (matchedOnly _)); exact Hst.
  - unfold toggleUnmatchedOnly. simpl. destruct (negb (unmatchedOnly _)); exact Hst.
  - unfold toggleLiquidsOnly. simpl. destruct (negb (liquidsOnly _)); exact Hst.
  - unfold toggleSolidsOnly. simpl. destruct (negb (solidsOnly _)); exact Hst.
  - simpl. lia.
  - unfold setSortField. destruct (SortField_eqb _ _); exact Hst.
  - exact Hst.
  - exact Hst.
  - exact Hst.
  - simpl. lia.
  - exact Hst.
  - exact Hst.
Qed.

(** C10. [setMinNdcCount(c)] stores [max(0, c)], so a negative argument is
    stored as 0; [minNdcCount >= 0] holds in the fresh controller, is
    preserved by every operation and so holds in every reachable session. *)
Theorem minNdcCount_nonnegative :
  (forall c s, minNdcCount (setMinNdcCount c s) = Z.max 0 c) /\
  (forall c s, c < 0 -> minNdcCount (setMinNdcCount c s) = 0) /\
  0 <= minNdcCount initialStore /\
  (forall a fs st st',
     0 <= minNdcCount (fst st) -> perform a fs st = Some st' ->
     0 <= minNdcCount (fst st')) /\
  (forall fs st, reachable fs st -> 0 <= minNdcCount (fst st)).
Proof.
  split; [reflexivity|].
  split; [intros c s Hc; simpl; lia|].
  split; [simpl; lia|].
  split; [exact perform_minNdcCount|].
  intros fs st Hr. induction Hr as [|a st st' _ IH Hstep].
  - simpl. lia.
  - eapply perform_minNdcCount; eassumption.
Qed.

(** ** Letter case, prefixes and substrings *)

Lemma lowerChar_upper c :
  JsString.lowerChar c = c \/ letterPair c (JsString.lowerChar c).
Proof.
  unfold JsString.lowerChar.
  destruct ((65 <=? nat_of_ascii c)%nat && (nat_of_ascii c <=? 90)%nat) eqn:E;
    [right|left; reflexivity].
  apply andb_true_iff in E as [H1 H2].
  apply Nat.leb_le in H1, H2.
  exists (nat_of_ascii c - 65)%nat. split; [lia|]. split.
  - replace (65 + (nat_of_ascii c - 65))%nat with (nat_of_ascii c) by lia.
    symmetry. apply ascii_nat_embedding.
  - f_equal. lia.
Qed.

Lemma letterPair_lower u l :
  letterPair u l -> JsString.lowerChar u = l /\ JsString.lowerChar l = l.
Proof.
  intros (k & Hk & -> & ->). unfold JsString.lowerChar.
  rewrite !nat_ascii_embedding by lia.
  replace ((65 <=? 65 + k)%nat && (65 + k <=? 90)%nat) with true
    by (symmetry; apply andb_true_iff; split; apply Nat.leb_le; lia).
  replace ((65 <=? 97 + k)%nat && (97 + k <=? 90)%nat) with false
    by (symmetry; apply andb_false_iff; right; apply Nat.leb_gt; lia).
  split; [f_equal; lia|reflexivity].
Qed.

Lemma letterPair_inj u u' l : letterPair u l -> letterPair u' l -> u = u'.
Proof.
  intros (k & Hk & -> & ->) (k' & Hk' & -> & E).
  apply (f_equal nat_of_ascii) in E.
  rewrite !nat_ascii_embedding in E by lia.
  f_equal. lia.
Qed.

Lemma lowerChar_eq c d :
  JsString.lowerChar c = JsString.lowerChar d <-> sameLetter c d.
Proof.
  split.
  - intros E.
    destruct (lowerChar_upper c) as [Hc|Hc], (lowerChar_upper d) as [Hd|Hd].
    + left. congruence.
    + right. right. rewrite Hc in E. rewrite E. exact Hd.
    + right. left. rewrite Hd in E. rewrite <- E. exact Hc.
    + left. rewrite E in Hc. exact (letterPair_inj _ _ _ Hc Hd).
  - intros [->|[H|H]]; [reflexivity| |];
      destruct (letterPair_lower _ _ H) as [H1 H2]; congruence.
Qed.

Lemma toLowerCase_eq a : forall b,
  JsString.toLowerCase a = JsString.toLowerCase b <-> equalIgnoringCase a b.
Proof.
  induction a as [|c a IH]; intros [|d b]; simpl;
    try (split; [discriminate|intros []]); [tauto|].
  rewrite <- IH, <- lowerChar_eq. split.
  - intros E. injection E as E1 E2. auto.
  - intros [-> ->]. reflexivity.
Qed.

Lemma toLowerCase_app a b :
  JsString.toLowerCase (a +:+ b)
  = JsString.toLowerCase a +:+ JsString.toLowerCase b.
Proof.
  induction a as [|c a IH]; [reflexivity|].
  change (JsString.toLowerCase (String c (a +:+ b))
          = String (JsString.lowerChar c)
              (JsString.toLowerCase a +:+ JsString.toLowerCase b)).
  simpl. rewrite IH. reflexivity.
Qed.

Lemma toLowerCase_split x y : forall t,
  JsString.toLowerCase t = x +:+ y ->
  exists t1 t2, t = t1 +:+ t2 /\ JsString.toLowerCase t1 = x
                /\ JsString.toLowerCase t2 = y.
Proof.
  induction x as [|c x IH]; intros t E.
  - exists "", t. auto.
  - destruct t as [|d t]; simpl in E; [discriminate|].
    injection E as E1 E2.
    destruct (IH t E2) as (t1 & t2 & -> & H1 & H2).
    exists (String d t1), t2. simpl. rewrite E1, H1. split; [reflexivity|auto].
Qed.

(** [s.startsWith(p)] holds exactly when [s] is [p] followed by some rest. *)
Lemma startsWith_prefix p : forall s,
  JsString.startsWith s p = true <-> hasPrefix p s.
Proof.
  unfold hasPrefix.
  induction p as [|a p IH]; intros s.
  - destruct s; simpl; (split; [intros _; eexists; reflexivity|reflexivity]).
  - destruct s as [|b s]; simpl.
    + split; [discriminate|intros (r & E); discriminate].
    + destruct (Ascii.eqb_spec a b) as [->|Hne].
      * rewrite IH. split; intros (r & E); exists r.
        -- rewrite E. reflexivity.
        -- injection E as E. exact E.
      * split; [discriminate|intros (r & E); injection E as E1 E2; congruence].
Qed.

(** [s.includes(q)] holds exactly when [q] occurs somewhere in [s]. *)
Lemma includes_substring q : forall s,
  JsString.includes s q = true <-> exists pre post, s = pre +:+ q +:+ post.
Proof.
  induction s as [|c s IH].
  - cbn [JsString.includes]. rewrite orb_false_r, startsWith_prefix. split.
    + intros (r & E). exists "", r. exact E.
    + intros ([|d pre] & post & E); [exists post; exact E|discriminate].
  - cbn [JsString.includes]. rewrite orb_true_iff, startsWith_prefix, IH. split.
    + intros [(r & E)|(pre & post & E)].
      * exists "", r. exact E.
      * exists (String c pre), post. rewrite E. reflexivity.
    + intros ([|d pre] & post & E).
      * left. exists post. exact E.
      * right. injection E as _ E. exists pre, post. exact E.
Qed.

Lemma includes_ignoring_case text q :
  JsString.includes (JsString.toLowerCase text) (JsString.toLowerCase q) = true
  <-> containsIgnoringCase text q.
Proof.
  rewrite includes_substring. unfold containsIgnoringCase. split.
  - intros (pre & post & E).
    destruct (toLowerCase_split _ _ _ E) as (t1 & t' & -> & _ & E').
    destruct (toLowerCase_split _ _ _ E') as (t2 & t3 & -> & E2 & _).
    exists t1, t2, t3. split; [reflexivity|]. apply toLowerCase_eq. exact E2.
  - intros (pre & mid & post & -> & E). apply toLowerCase_eq in E.
    exists (JsString.toLowerCase pre), (JsString.toLowerCase post).
    rewrite !toLowerCase_app, E. reflexivity.
Qed.

(** ** Blanks and [trim] *)

Section DropWhile.

Variable p : ascii -> bool.

Lemma dropWhile_all l r :
  Forall (fun c => p c = true) l ->
  JsString.dropWhile p (l ++ r) = JsString.dropWhile p r.
Proof.
  induction 1 as [|c l Hc _ IH]; simpl; [reflexivity|]. rewrite Hc. exact IH.
Qed.

Lemma dropWhile_stop l c :
  p c = false ->
  JsString.dropWhile p (l ++ [c]) = JsString.dropWhile p l ++ [c].
Proof.
  intros Hc. induction l as [|x l IH]; simpl; [rewrite Hc; reflexivity|].
  destruct (p x); [exact IH|reflexivity].
Qed.

Lemma dropWhile_head l :
  match JsString.dropWhile p l with
  | [] => True
  | c :: _ => p c = false
  end.
Proof.
  induction l as [|x l IH]; simpl; [exact I|].
  destruct (p x) eqn:E; [exact IH|exact E].
Qed.

Lemma dropWhile_fixed l :
  match l with
  | [] => True
  | c :: _ => p c = false
  end -> JsString.dropWhile p l = l.
Proof. destruct l as [|c l]; simpl; [reflexivity|]. intros ->. reflexivity. Qed.

Lemma dropWhile_idem l :
  JsString.dropWhile p (JsString.dropWhile p l) = JsString.dropWhile p l.
Proof. apply dropWhile_fixed, dropWhile_head. Qed.

Lemma dropWhile_length l : (length (JsString.dropWhile p l) <= length l)%nat.
Proof.
  induction l as [|x l IH]; simpl; [lia|]. destruct (p x); simpl; lia.
Qed.

End DropWhile.

Lemma dropWhile_nil (p : ascii -> bool) l :
  JsString.dropWhile p l = [] -> List.Forall (fun c => p c = true) l.
Proof.
  induction l as [|c l IH]; simpl; [constructor|].
  destruct (p c) eqn:E; [|discriminate]. intros H. constructor; auto.
Qed.

Lemma isSpace_blank c : JsString.isSpace c = true <-> blank c.
Proof.
  unfold blank. split.
  - destruct c as [[] [] [] [] [] [] [] []]; vm_compute; intros H;
      try discriminate; tauto.
  - intros H. simpl in H. decompose [or] H; subst; try reflexivity. contradiction.
Qed.

(** [trim] leaves nothing exactly when every character is a blank. *)
Lemma trimChars_nil l :
  JsString.trimChars l = [] <-> List.Forall (fun c => JsString.isSpace c = true) l.
Proof.
  unfold JsString.trimChars. split.
  - intros H. apply dropWhile_nil.
    pose proof (dropWhile_head JsString.isSpace l) as Hh.
    destruct (JsString.dropWhile JsString.isSpace l) as [|c d]; [reflexivity|].
    exfalso. apply (f_equal (@rev ascii)) in H. rewrite rev_involutive in H.
    simpl in H. rewrite (dropWhile_stop JsString.isSpace _ c Hh) in H.
    destruct (JsString.dropWhile JsString.isSpace (rev d)); discriminate.
  - intros H.
    assert (E : JsString.dropWhile JsString.isSpace l = []).
    { induction H as [|c l Hc _ IH]; simpl; [reflexivity|]. rewrite Hc. exact IH. }
    rewrite E. reflexivity.
Qed.

(** ** Filters *)

Lemma filterWhen_In cond p l (R : MedicationDocument) :
  In R (filterWhen cond p l) <-> In R l /\ (cond = true -> p R = true).
Proof.
  unfold filterWhen. destruct cond.
  - rewrite filter_In. intuition.
  - intuition discriminate.
Qed.

(** The search filter is enabled exactly when the search text holds a
    character that is not a blank. *)
Lemma searchActive_hasText s :
  searchActive s = true <-> hasText (searchQuery s).
Proof.
  unfold searchActive, hasText, JsString.trim.
  rewrite negb_true_iff.
  set (l := list_ascii_of_string (searchQuery s)).
  assert (Hnil : String.eqb (string_of_list_ascii (JsString.trimChars l)) "" = false
                 <-> JsString.trimChars l <> []).
  { destruct (JsString.trimChars l) as [|c r]; simpl; split; congruence. }
  rewrite Hnil, trimChars_nil. split.
  - intros Hn.
    assert (Hex : List.Exists (fun c => JsString.isSpace c <> true) l).
    { apply List.neg_Forall_Exists_neg; [|exact Hn].
      intros c. destruct (JsString.isSpace c); [left; reflexivity|right; discriminate]. }
    apply List.Exists_exists in Hex as (c & Hin & Hc).
    exists c. split; [exact Hin|]. rewrite <- isSpace_blank. exact Hc.
  - intros (c & Hin & Hc) Hall.
    rewrite List.Forall_forall in Hall. apply Hc, isSpace_blank, Hall, Hin.
Qed.

(** The predicate of the search filter is the case-insensitive substring
    match of the search text against the cleaned name, the identifier or the
    ingredient name. *)
Lemma searchMatches_text q m :
  searchMatches (JsString.toLowerCase q) m = true <-> matchesSearchText q m.
Proof.
  unfold searchMatches, matchesSearchText.
  rewrite !orb_true_iff, !includes_ignoring_case.
  destruct (ingredient_name (classification m)) as [n|].
  - rewrite includes_ignoring_case. split.
    + intros [[H|H]|H]; eauto.
    + intros [H|[H|(n' & E & H)]]; auto. injection E as <-. auto.
  - split.
    + intros [[H|H]|H]; auto. discriminate.
    + intros [H|[H|(n' & E & H)]]; auto. discriminate.
Qed.

Lemma isUnmatched_prefix m :
  isUnmatched m = true <-> hasPrefix "UNMATCHED_" (rxcui m).
Proof. apply startsWith_prefix. Qed.

(** C5. A loaded record is in [filteredMedications] exactly when it passes
    every enabled filter: the search filter, enabled when the search text
    holds a character that is not a blank, asks that the search text occurs,
    letter case apart, in the cleaned name, in the identifier or in the
    ingredient name; matched-only asks that the identifier does not start
    with ["UNMATCHED_"], unmatched-only that it does; liquids-only and
    solids-only test the [is_liquid] flag; a minimum above 0 asks for at
    least that many linked codes. A toggle that switches one flag of an
    exclusive pair on switches the other off. *)
Theorem filter_conjunction (s : MedicationViewerStore) (R : MedicationDocument) :
  (In R (filteredMedications s) <->
     In R (medications s) /\
     (hasText (searchQuery s) -> matchesSearchText (searchQuery s) R) /\
     (matchedOnly s = true -> ~ hasPrefix "UNMATCHED_" (rxcui R)) /\
     (unmatchedOnly s = true -> hasPrefix "UNMATCHED_" (rxcui R)) /\
     (liquidsOnly s = true -> is_liquid (conversion_values R) = true) /\
     (solidsOnly s = true -> is_liquid (conversion_values R) = false) /\
     (0 < minNdcCount s ->
        minNdcCount s <= Z.of_nat (length (ndc11_all (ndc_links R))))) /\
  (matchedOnly (toggleMatchedOnly s) = negb (matchedOnly s) /\
   (matchedOnly (toggleMatchedOnly s) = true ->
      unmatchedOnly (toggleMatchedOnly s) = false)) /\
  (unmatchedOnly (toggleUnmatchedOnly s) = negb (unmatchedOnly s) /\
   (unmatchedOnly (toggleUnmatchedOnly s) = true ->
      matchedOnly (toggleUnmatchedOnly s) = false)) /\
  (liquidsOnly (toggleLiquidsOnly s) = negb (liquidsOnly s) /\
   (liquidsOnly (toggleLiquidsOnly s) = true ->
      solidsOnly (toggleLiquidsOnly s) = false)) /\
  (solidsOnly (toggleSolidsOnly s) = negb (solidsOnly s) /\
   (solidsOnly (toggleSolidsOnly s) = true ->
      liquidsOnly (toggleSolidsOnly s) = false)).
Proof.
  split.
  - unfold filteredMedications. rewrite !filterWhen_In.
    rewrite searchActive_hasText, searchMatches_text.
    rewrite !negb_true_iff, Z.ltb_lt, Z.leb_le.
    rewrite <- (isUnmatched_prefix R). unfold ndcCount.
    destruct (isUnmatched R); intuition congruence.
  - unfold toggleMatchedOnly, toggleUnmatchedOnly, toggleLiquidsOnly,
      toggleSolidsOnly. simpl.
    destruct (matchedOnly s), (unmatchedOnly s), (liquidsOnly s), (solidsOnly s);
      simpl; repeat split; auto; discriminate.
Qed.

(** The search text is matched as typed: letter case apart, blanks
    included. *)
Example search_text_example :
  matchesSearchText "AMOX" amoxicillin /\
  ~ matchesSearchText " AMOX" amoxicillin /\
  hasPrefix "UNMATCHED_" (rxcui cough_syrup) /\
  ~ hasPrefix "UNMATCHED_" (rxcui amoxicillin).
Proof.
  rewrite <- !searchMatches_text, <- !isUnmatched_prefix.
  repeat split; try reflexivity; vm_compute; discriminate.
Qed.

Example filter_search_example :
  filteredMedications
    (set_searchQuery " AMOX"
       (set_medications [amoxicillin; atorvastatin; cough_syrup] initialStore))
  = [].
Proof. reflexivity. Qed.

Example filter_search_example2 :
  filteredMedications
    (set_matchedOnly true (set_searchQuery "ORAL"
       (set_medications [amoxicillin; atorvastatin; cough_syrup] initialStore)))
  = [amoxicillin; atorvastatin].
Proof. reflexivity. Qed.

(** ** Statistics *)

Lemma fold_prices_from (l : list MedicationDocument) : forall a : Q,
  (fold_left (fun sum m => sum + medianPrice m) l a
   == a + fold_left (fun sum m => sum + medianPrice m) l 0)%Q.
Proof.
  induction l as [|m l IH]; intros a; simpl.
  - ring.
  - rewrite (IH (a + medianPrice m)%Q), (IH (0 + medianPrice m)%Q). ring.
Qed.

Lemma sum_filter_positive (l : list MedicationDocument) :
  (fold_left (fun sum m => sum + medianPrice m) (List.filter hasPrice l) 0
   == sumPositive l)%Q.
Proof.
  induction l as [|m l IH]; simpl; [reflexivity|].
  unfold hasPrice at 1. destruct (Qle_bool (medianPrice m) 0); simpl.
  - exact IH.
  - rewrite fold_prices_from, IH. ring.
Qed.

Lemma count_filter_positive (l : list MedicationDocument) :
  lengthZ (List.filter hasPrice l) = countPositive l.
Proof.
  unfold lengthZ. induction l as [|m l IH]; simpl; [reflexivity|].
  unfold hasPrice at 1. destruct (Qle_bool (medianPrice m) 0); simpl; lia.
Qed.

Lemma countPositive_nonneg l : 0 <= countPositive l.
Proof.
  induction l as [|m l IH]; simpl; [lia|].
  destruct (Qle_bool (medianPrice m) 0); lia.
Qed.

Lemma avgMedianPrice_eq s :
  (avgMedianPrice (stats s) == meanOfPositive (medications s))%Q.
Proof.
  unfold stats, meanOfPositive. cbn [avgMedianPrice].
  fold hasPrice. rewrite count_filter_positive.
  pose proof (countPositive_nonneg (medications s)) as Hn.
  destruct (0 <? countPositive (medications s)) eqn:E1;
    destruct (countPositive (medications s) =? 0) eqn:E2; try lia.
  - rewrite sum_filter_positive. reflexivity.
  - reflexivity.
Qed.

Lemma filter_drop_unpriced l1 r l2 :
  (medianPrice r <= 0)%Q ->
  List.filter hasPrice (l1 ++ r :: l2) = List.filter hasPrice (l1 ++ l2).
Proof.
  intros Hr. rewrite !List.filter_app. simpl.
  unfold hasPrice at 2. apply Qle_bool_iff in Hr. rewrite Hr. reflexivity.
Qed.

(** C8. The average-median-price statistic is the mean of
    [median_unit_price] over exactly the records with a strictly positive
    median price: it equals [meanOfPositive]; a record with median price 0
    can be removed from the slice without changing it; it is 0 when no
    record has a positive median price. *)
Theorem stats_exclusion_rule (s : MedicationViewerStore) :
  (avgMedianPrice (stats s) == meanOfPositive (medications s))%Q /\
  (forall l1 r l2,
     (medianPrice r == 0)%Q ->
     avgMedianPrice (stats (set_medications (l1 ++ r :: l2) s))
     = avgMedianPrice (stats (set_medications (l1 ++ l2) s))) /\
  ((forall m, In m (medications s) -> ~ (0 < medianPrice m)%Q) ->
   avgMedianPrice (stats s) = 0%Q).
Proof.
  split; [apply avgMedianPrice_eq|]. split.
  - intros l1 r l2 Hr. unfold stats. cbn [avgMedianPrice medications set_medications].
    fold hasPrice. rewrite filter_drop_unpriced; [reflexivity|].
    rewrite Hr. apply Qle_refl.
  - intros Hnone. unfold stats. cbn [avgMedianPrice]. fold hasPrice.
    assert (E : List.filter hasPrice (medications s) = []).
    { induction (medications s) as [|m l IH]; simpl; [reflexivity|].
      unfold hasPrice at 1.
      destruct (Qle_bool (medianPrice m) 0) eqn:Em; simpl.
      - apply IH. intros m' Hm'. apply Hnone. right. exact Hm'.
      - exfalso. apply (Hnone m); [left; reflexivity|].
        apply Qnot_le_lt. intros Hle. apply Qle_bool_iff in Hle. congruence. }
    rewrite E. reflexivity.
Qed.

Example stats_example :
  avgMedianPrice
    (stats (set_medications [amoxicillin; cough_syrup; atorvastatin] initialStore))
  = ((0 + (8 # 10) + 10) / inject_Z 2)%Q.
Proof. reflexivity. Qed.

(** ** The load guards *)

Lemma loadPage_rejected_while_loading page fs st :
  isLoading (fst st) = true -> loadPage page fs st = st.
Proof. intros H. unfold loadPage. rewrite H. reflexivity. Qed.

Lemma loadPage_rejected_below_one page fs st :
  page < 1 -> loadPage page fs st = st.
Proof.
  intros H. unfold loadPage. destruct (isLoading (fst st)); [reflexivity|].
  apply Z.ltb_lt in H. rewrite H. reflexivity.
Qed.

Lemma loadAllMedications_rejected fuel fs st :
  isLoadingAll (fst st) = true \/ isLoading (fst st) = true ->
  loadAllMedications fuel fs st = Some st.
Proof.
  intros H. unfold loadAllMedications.
  destruct H as [-> | ->]; [reflexivity|].
  rewrite orb_true_r. reflexivity.
Qed.

(** When [loadPage] runs, its own count request is the first round trip,
    and a failure of it ends the load in the [catch] block. *)
Lemma loadPage_count_failure page fs s net e :
  isLoading s = false -> 1 <= page ->
  getCountFromServer fs (length net) = Throw e ->
  loadPage page fs (s, net)
  = (loadPage_catch e (set_error None (set_isLoading true s)),
     net ++ [EvCount (Throw e)]).
Proof.
  intros Hl Hp He. unfold loadPage. cbn [fst snd]. rewrite Hl.
  destruct (page <? 1) eqn:E; [lia|].
  rewrite loadPage_try_eq. unfold firestoreApi.getMedicationCount.
  rewrite He. reflexivity.
Qed.

(** C4. [loadPage] returns the session untouched while [isLoading] is set,
    and [loadAllMedications] does while either flag is set; but [loadPage]
    does not look at [isLoadingAll]: called during a bulk load it queries
    the store and replaces the loaded records. *)
Theorem loadPage_during_bulk_load :
  (forall page fs st, isLoading (fst st) = true -> loadPage page fs st = st) /\
  (forall fuel fs st,
     isLoadingAll (fst st) = true \/ isLoading (fst st) = true ->
     loadAllMedications fuel fs st = Some st) /\
  (let fs := collectionStore [amoxicillin] in
   let st := (set_isLoadingAll true initialStore, []) in
   let st' := loadPage 1 fs st in
   isLoadingAll (fst st) = true /\
   snd st' = [EvCount (Ok 1); EvCount (Ok 1);
              EvGetDocs None 100 (Ok (snapshotsOf [amoxicillin]))] /\
   medications (fst st) = [] /\
   medications (fst st') = [amoxicillin] /\
   isLoadingAll (fst st') = true).
Proof.
  split; [exact loadPage_rejected_while_loading|].
  split; [exact loadAllMedications_rejected|].
  vm_compute. repeat split; reflexivity.
Qed.

(** C2. A failing count aggregate is swallowed inside
    [fetchMedicationsPage] (the page comes back with total 0), but
    [loadPage] awaits the count itself, unguarded: on a store that refuses
    the aggregate and answers queries, the load stops after the count
    request, puts the failure in the error slot and loads nothing. *)
Theorem loadPage_count_failure_surfaces :
  let fs := countDeniedStore [amoxicillin] in
  let st' := loadPage 1 fs (initialStore, []) in
  (exists result net,
     firestoreApi.fetchMedicationsPage 100 None fs [] = (Ok result, net) /\
     firestoreApi.medications result = [amoxicillin] /\
     firestoreApi.totalCount result = 0) /\
  error (fst st') = Some "permission-denied" /\
  medications (fst st') = [] /\
  isLoading (fst st') = false /\
  snd st' = [EvCount (Throw (ErrorObj "permission-denied"))].
Proof.
  split.
  - eexists. eexists. split; [reflexivity|]. split; reflexivity.
  - vm_compute. repeat split; reflexivity.
Qed.

(** ** The round trips of a page load *)

Lemma fetchMedicationsPage_eq pageSize lastDocument fs net :
  firestoreApi.fetchMedicationsPage pageSize lastDocument fs net =
  let rc := getCountFromServer fs (length net) in
  let rd := getDocs fs (S (length net)) lastDocument pageSize in
  (match rd with
   | Ok docs => Ok (pageResult pageSize (countOrZero rc) docs)
   | Throw e => Throw e
   end,
   net ++ [EvCount rc; EvGetDocs lastDocument pageSize rd]).
Proof.
  unfold firestoreApi.fetchMedicationsPage, bind, tryCatch, ret,
    firestoreApi.getMedicationCount, firestoreApi.runQuery.
  assert (Hlen : length (net ++ [EvCount (getCountFromServer fs (length net))])
                 = S (length net)) by (rewrite length_app; simpl; lia).
  cbv zeta.
  destruct (getCountFromServer fs (length net)) as [c|e]; rewrite Hlen;
    destruct (getDocs fs (S (length net)) lastDocument pageSize) as [docs|e'];
    rewrite <- app_assoc; reflexivity.
Qed.

Lemma bridge_log pages : forall currentDoc fs s net r s' net',
  bridge pages currentDoc fs (s, net) = (r, (s', net')) ->
  exists evs, net' = net ++ evs /\
    forall ev e, In ev evs -> queryFailed e ev -> r = Throw e.
Proof.
  induction pages as [|i rest IH]; intros cur fs s net r s' net' H.
  - inversion H; subst. exists []. rewrite app_nil_r. split; [reflexivity|].
    intros ev e [].
  - rewrite bridge_cons in H.
    destruct (lastDocuments s !! i) as [c|]; [eapply IH; exact H|].
    rewrite fetchMedicationsPage_eq in H. cbv zeta in H.
    destruct (getDocs fs (S (length net)) cur (pageSize s)) as [docs|e0] eqn:Ed.
    + assert (Hrest : exists evs, net' = (net ++ [EvCount (getCountFromServer fs (length net));
                                     EvGetDocs cur (pageSize s) (Ok docs)]) ++ evs /\
                forall ev e, In ev evs -> queryFailed e ev -> r = Throw e).
      { destruct (firestoreApi.lastDoc _); eapply IH; exact H. }
      destruct Hrest as (evs & -> & Hevs).
      eexists. rewrite <- app_assoc. split; [reflexivity|].
      intros ev e [<-|[<-|Hin]] Hq; simpl in Hq; try contradiction.
      eapply Hevs; eassumption.
    + inversion H; subst. eexists. split; [reflexivity|].
      intros ev e [<-|[<-|[]]] Hq; simpl in Hq; [contradiction|].
      congruence.
Qed.

Lemma previousCursor_log page fs s net r s' net' :
  previousCursor page fs (s, net) = (r, (s', net')) ->
  exists evs, net' = net ++ evs /\
    forall ev e, In ev evs -> queryFailed e ev -> r = Throw e.
Proof.
  rewrite previousCursor_eq.
  assert (Hnil : forall r0, (r0, (s, net)) = (r, (s', net')) ->
            exists evs, net' = net ++ evs /\
              forall ev e, In ev evs -> queryFailed e ev -> r = Throw e).
  { intros r0 H; inversion H; subst. exists []. rewrite app_nil_r.
    split; [reflexivity|]. intros ev e []. }
  destruct (1 <? page); [|apply Hnil].
  destruct (lastDocuments s !! (page - 1)); [apply Hnil|].
  apply bridge_log.
Qed.

Lemma loadPage_try_log page fs s net r s' net' :
  loadPage_try page fs (s, net) = (r, (s', net')) ->
  exists evs, net' = net ++ evs /\
    forall ev e, In ev evs -> queryFailed e ev -> r = Throw e.
Proof.
  rewrite loadPage_try_eq. unfold firestoreApi.getMedicationCount.
  destruct (getCountFromServer fs (length net)) as [count|e0] eqn:Ec.
  - destruct (previousCursor page fs _) as [[lastDoc|e1] [s1 net1]] eqn:Ep;
      apply previousCursor_log in Ep as (evs1 & -> & Hevs1).
    + rewrite fetchMedicationsPage_eq. cbv zeta.
      match goal with |- context [getDocs fs ?n lastDoc ?p] =>
        destruct (getDocs fs n lastDoc p) as [docs|e2] end;
        intros H; inversion H; subst; clear H;
        eexists; rewrite <- !app_assoc; (split; [reflexivity|]);
        intros ev e Hin Hq; simpl in Hin; rewrite in_app_iff in Hin; simpl in Hin;
        destruct Hin as [<-|[Hin|[<-|[<-|[]]]]]; simpl in Hq; try contradiction.
      * specialize (Hevs1 _ _ Hin Hq). discriminate.
      * specialize (Hevs1 _ _ Hin Hq). discriminate.
      * congruence.
    + intros H; inversion H; subst; clear H.
      eexists; rewrite <- !app_assoc; (split; [reflexivity|]).
      intros ev e [<-|Hin] Hq; simpl in Hq; [contradiction|].
      specialize (Hevs1 _ _ Hin Hq). congruence.
  - intros H; inversion H; subst; clear H.
    eexists. split; [reflexivity|].
    intros ev e [<-|[]] Hq. simpl in Hq. contradiction.
Qed.

(** C6. When a document query issued by a page load fails, the load ends
    with the failure message in the error slot (replacing whatever was
    there), the loading flag cleared, and the loaded records and the current
    page index as they were before the call. *)
Theorem page_load_error_atomicity page fs s net s' net' ev e :
  loadPage page fs (s, net) = (s', net') ->
  In ev (drop (length net) net') ->
  queryFailed e ev ->
  error s' = Some (messageOf e "Failed to load medications") /\
  isLoading s' = false /\
  medications s' = medications s /\
  currentPage s' = currentPage s.
Proof.
  unfold loadPage. cbn [fst snd].
  destruct (isLoading s).
  { intros H; inversion H; subst. rewrite drop_all. intros []. }
  destruct (page <? 1).
  { intros H; inversion H; subst. rewrite drop_all. intros []. }
  destruct (loadPage_try page fs _) as [r [s1 net1]] eqn:E.
  pose proof (loadPage_try_frame medications (fun _ _ _ => eq_refl) _ _ _ _ _ E)
    as Hmeds.
  pose proof (loadPage_try_frame currentPage (fun _ _ _ => eq_refl) _ _ _ _ _ E)
    as Hpage.
  apply loadPage_try_log in E as (evs & -> & Hevs).
  cbn [fst snd] in *.
  intros H Hin Hq.
  assert (Hr : r = Throw e).
  { apply (Hevs ev e); [|exact Hq].
    destruct r as [[count result]|e0]; inversion H; subst;
      rewrite drop_app_length in Hin; exact Hin. }
  subst r. inversion H; subst. simpl.
  repeat split; assumption.
Qed.

Lemma page_load_error_atomicity_witness :
  let s := set_medications [amoxicillin] initialStore in
  exists s' net',
    loadPage 2 (unavailableStore [amoxicillin; atorvastatin]) (s, []) = (s', net') /\
    error s' = Some "unavailable" /\
    isLoading s' = false /\
    medications s' = [amoxicillin] /\
    currentPage s' = 1.
Proof.
  eexists. eexists. split; [reflexivity|].
  eapply (page_load_error_atomicity 2
            (unavailableStore [amoxicillin; atorvastatin])
            (set_medications [amoxicillin] initialStore) [] _ _
            (EvGetDocs None 100 (Throw (ErrorObj "unavailable")))
            (ErrorObj "unavailable")).
  - reflexivity.
  - right. right. left. reflexivity.
  - reflexivity.
Defined.

(** ** The bulk load *)

Lemma drainedPages_app evs1 evs2 :
  drainedPages (evs1 ++ evs2) = drainedPages evs1 ++ drainedPages evs2.
Proof.
  induction evs1 as [|ev evs1 IH]; [reflexivity|].
  destruct ev as [r|after lim [docs|e]]; simpl; rewrite IH; reflexivity.
Qed.

Lemma drain_log {St} (onP : Z -> option Z -> St -> St) fuel :
  forall total acc lastDoc fs s net meds s' net',
  firestoreApi.drain fuel onP total acc lastDoc fs (s, net)
    = Some (Ok meds, (s', net')) ->
  exists evs, net' = net ++ evs /\ meds = acc ++ concat (drainedPages evs).
Proof.
  induction fuel as [|fuel IH]; intros total acc lastDoc fs s net meds s' net' H;
    [discriminate|].
  simpl in H. rewrite fetchMedicationsPage_eq in H. cbv zeta in H.
  destruct (getDocs fs (S (length net)) lastDoc 100) as [docs|e].
  - set (evs0 := [EvCount (getCountFromServer fs (length net));
                  EvGetDocs lastDoc 100 (Ok docs)]) in *.
    assert (H0 : concat (drainedPages evs0) = map snap_data docs)
      by (simpl; apply app_nil_r).
    destruct (firestoreApi.hasMore _).
    + apply IH in H as (evs & -> & ->). exists (evs0 ++ evs).
      rewrite drainedPages_app, concat_app, H0, !app_assoc. auto.
    + inversion H; subst. exists evs0. rewrite H0. auto.
  - discriminate.
Qed.

Lemma onProgress_error loaded total s : error (onProgress loaded total s) = error s.
Proof. destruct total; reflexivity. Qed.

(** C9. A bulk load that completes without an error commits the
    concatenation of the drained pages as the loaded records, their number
    as the total count, page 1 as the current page, [hasMore = false],
    [allMedicationsLoaded = true] and a cleared [isLoadingAll]. *)
Theorem bulk_load_commit fuel fs s net s' net' :
  isLoadingAll s = false ->
  isLoading s = false ->
  loadAllMedications fuel fs (s, net) = Some (s', net') ->
  error s' = None ->
  medications s' = concat (drainedPages (drop (length net) net')) /\
  totalCount s' = lengthZ (medications s') /\
  currentPage s' = 1 /\
  hasMore s' = false /\
  allMedicationsLoaded s' = true /\
  isLoadingAll s' = false.
Proof.
  intros Ha Hl. unfold loadAllMedications. cbn [fst snd]. rewrite Ha, Hl.
  cbn [orb]. unfold firestoreApi.fetchAllMedications. cbn [fst snd].
  unfold firestoreApi.getMedicationCount.
  destruct (firestoreApi.drain _ _ _ _ _ _ _) as [[[allMeds|e] [s1 net1]]|] eqn:E;
    [| |discriminate]; intros H; inversion H; subst; clear H.
  - intros _. apply drain_log in E as (evs & -> & ->).
    rewrite <- app_assoc, drop_app_length. simpl. repeat split.
  - simpl. discriminate.
Qed.

Lemma bulk_load_commit_witness :
  exists s' net',
    loadAllMedications 2 (collectionStore [amoxicillin; atorvastatin])
      (initialStore, []) = Some (s', net') /\
    medications s' = [amoxicillin; atorvastatin] /\
    totalCount s' = 2 /\
    currentPage s' = 1 /\
    hasMore s' = false /\
    allMedicationsLoaded s' = true /\
    isLoadingAll s' = false.
Proof.
  eexists. eexists. split; [reflexivity|].
  pose proof (bulk_load_commit 2 (collectionStore [amoxicillin; atorvastatin])
                initialStore [] _ _ eq_refl eq_refl eq_refl eq_refl) as H.
  exact H.
Defined.

(** ** The bulk load terminates on a finite collection *)

Lemma snapshotsOf_data docs : map snap_data (snapshotsOf docs) = docs.
Proof.
  unfold snapshotsOf. apply list_eq. intros i.
  change (map snap_data) with (fmap (M:=list) snap_data).
  rewrite list_lookup_fmap, list_lookup_imap.
  destruct (docs !! i); reflexivity.
Qed.

Lemma snapshotsOf_length docs : length (snapshotsOf docs) = length docs.
Proof. unfold snapshotsOf. apply length_imap. Qed.

Lemma full_page_last docs (j : nat) :
  length (take 100 (drop j (snapshotsOf docs))) = 100%nat ->
  exists c, last (take 100 (drop j (snapshotsOf docs))) = Some c /\
            snap_ref c = (j + 99)%nat.
Proof.
  intros Hlen. rewrite last_lookup, Hlen. simpl.
  rewrite lookup_take_lt by lia. rewrite lookup_drop.
  unfold snapshotsOf. rewrite list_lookup_imap.
  destruct (docs !! (j + 99)%nat) as [d|] eqn:E.
  - eexists. split; [reflexivity|reflexivity].
  - exfalso. apply lookup_ge_None in E.
    rewrite length_take, length_drop, snapshotsOf_length in Hlen. lia.
Qed.

Lemma drain_collection {St} (onP : Z -> option Z -> St -> St) total docs fuel :
  forall acc lastDoc s net,
  (length docs - resumeIndex lastDoc < fuel)%nat ->
  exists s' net',
    firestoreApi.drain fuel onP total acc lastDoc (collectionStore docs) (s, net)
    = Some (Ok (acc ++ drop (resumeIndex lastDoc) docs), (s', net')).
Proof.
  induction fuel as [|fuel IH]; intros acc lastDoc s net Hfuel; [lia|].
  cbn [firestoreApi.drain fst snd]. rewrite fetchMedicationsPage_eq. cbv zeta.
  cbn [getDocs collectionStore]. cbn [firestoreApi.hasMore pageResult
    firestoreApi.medications firestoreApi.lastDoc fst snd].
  change (Z.to_nat 100) with 100%nat.
  set (j := resumeIndex lastDoc) in *.
  set (page := take 100 (drop j (snapshotsOf docs))).
  assert (Hdata : map snap_data page = take 100 (drop j docs)).
  { subst page. change (map snap_data) with (fmap (M:=list) snap_data).
    rewrite fmap_take, fmap_drop.
    change (fmap (M:=list) snap_data) with (map snap_data).
    rewrite snapshotsOf_data. reflexivity. }
  destruct (Z.of_nat (length page) =? 100) eqn:Efull.
  - apply Z.eqb_eq in Efull.
    assert (Hlen : length page = 100%nat) by lia.
    destruct (full_page_last docs j Hlen) as (c & Hlast & Hc).
    fold page in Hlast. rewrite Hlast.
    assert (Hj : (j + 100 <= length docs)%nat).
    { subst page. rewrite length_take, length_drop, snapshotsOf_length in Hlen.
      lia. }
    edestruct (IH (acc ++ map snap_data page) (Some c)) as (s' & net' & ->).
    { simpl. rewrite Hc. lia. }
    exists s', net'. simpl. rewrite Hc, Hdata, <- app_assoc.
    replace (S (j + 99)) with (j + 100)%nat by lia.
    rewrite <- (drop_drop docs 100 j), take_drop. reflexivity.
  - apply Z.eqb_neq in Efull.
    eexists. eexists. rewrite Hdata.
    rewrite take_ge; [reflexivity|].
    assert (length page <> 100%nat) by lia.
    subst page. rewrite length_take, length_drop, snapshotsOf_length in H.
    rewrite length_drop. lia.
Qed.

(** On a store that serves a finite collection, a bulk load finishes within
    one page fetch per record, and loads the whole collection. *)
Lemma loadAllMedications_completes docs s net :
  isLoadingAll s = false -> isLoading s = false ->
  exists s' net',
    loadAllMedications (S (length docs)) (collectionStore docs) (s, net)
    = Some (s', net') /\
    medications s' = docs /\ error s' = None /\ allMedicationsLoaded s' = true.
Proof.
  intros Ha Hl. unfold loadAllMedications. cbn [fst snd]. rewrite Ha, Hl.
  cbn [orb]. unfold firestoreApi.fetchAllMedications. cbn [fst snd].
  unfold firestoreApi.getMedicationCount.
  set (s0 := set_error None _).
  edestruct (drain_collection onProgress
               (match getCountFromServer (collectionStore docs) (length net) with
                | Ok c => Some c
                | Throw _ => None
                end) docs (S (length docs)) [] None s0)
    as (s1 & net1 & E); [simpl; lia|].
  rewrite E.
  pose proof (drain_frame error onProgress_error _ _ _ _ _ _ _ _ E) as Herr.
  eexists. eexists. split; [reflexivity|].
  simpl. repeat split. exact Herr.
Qed.

(** ** A failed bulk load *)

Lemma drain_failure {St} (onP : Z -> option Z -> St -> St) fuel :
  forall total acc lastDoc fs s net r s' net',
  firestoreApi.drain fuel onP total acc lastDoc fs (s, net)
    = Some (r, (s', net')) ->
  exists evs, net' = net ++ evs /\
    forall ev e, In ev evs -> queryFailed e ev -> r = Throw e.
Proof.
  induction fuel as [|fuel IH];
    intros total acc lastDoc fs s net r s' net' H; [discriminate|].
  cbn [firestoreApi.drain fst snd] in H.
  rewrite fetchMedicationsPage_eq in H. cbv zeta in H.
  destruct (getDocs fs (S (length net)) lastDoc 100) as [docs|e0].
  - destruct (firestoreApi.hasMore _).
    + apply IH in H as (evs & -> & Hevs).
      eexists. rewrite <- app_assoc. split; [reflexivity|].
      intros ev e [<-|[<-|Hin]] Hq; simpl in Hq; try contradiction.
      eapply Hevs; eassumption.
    + inversion H; subst. eexists. split; [reflexivity|].
      intros ev e [<-|[<-|[]]] Hq; simpl in Hq; contradiction.
  - inversion H; subst. eexists. split; [reflexivity|].
    intros ev e [<-|[<-|[]]] Hq; simpl in Hq; [contradiction|congruence].
Qed.

(** The bulk load fails the same way as a page load: the message goes to
    the error slot, [isLoadingAll] is cleared, the records and the current
    page stay. *)
Lemma bulk_load_error_atomicity fuel fs s net s' net' ev e :
  loadAllMedications fuel fs (s, net) = Some (s', net') ->
  In ev (drop (length net) net') ->
  queryFailed e ev ->
  error s' = Some (messageOf e "Failed to load all medications") /\
  isLoadingAll s' = false /\
  medications s' = medications s /\
  currentPage s' = currentPage s.
Proof.
  unfold loadAllMedications. cbn [fst snd].
  destruct (isLoadingAll s || isLoading s).
  { intros H; inversion H; subst. rewrite drop_all. intros []. }
  destruct (firestoreApi.fetchAllMedications fuel onProgress fs _)
    as [[r [s1 net1]]|] eqn:E; [|discriminate].
  assert (Hprog : forall B (f : MedicationViewerStore -> B),
            (forall v s, f (set_loadingProgress v s) = f s) ->
            (forall v s, f (set_totalCount v s) = f s) ->
            forall loaded total s, f (onProgress loaded total s) = f s).
  { intros B f H1 H2 loaded [t|] s0; unfold onProgress; rewrite ?H2, H1;
      reflexivity. }
  pose proof (fetchAllMedications_frame medications
                (Hprog _ medications (fun _ _ => eq_refl) (fun _ _ => eq_refl))
                _ _ _ _ _ E) as Hmeds.
  pose proof (fetchAllMedications_frame currentPage
                (Hprog _ currentPage (fun _ _ => eq_refl) (fun _ _ => eq_refl))
                _ _ _ _ _ E) as Hpage.
  unfold firestoreApi.fetchAllMedications, firestoreApi.getMedicationCount in E.
  cbn [fst snd] in E.
  apply drain_failure in E as (evs & -> & Hevs).
  cbn [fst snd] in *.
  intros H Hin Hq.
  assert (Hr : r = Throw e).
  { apply (Hevs ev e); [|exact Hq].
    assert (Hnet : net' = net ++ EvCount (getCountFromServer fs (length net)) :: evs)
      by (destruct r; inversion H; subst; rewrite <- app_assoc; reflexivity).
    rewrite Hnet, drop_app_length in Hin.
    destruct Hin as [<-|Hin]; [simpl in Hq; contradiction|exact Hin]. }
  subst r. inversion H; subst. simpl.
  repeat split; assumption.
Qed.

(** ** The cursor cache *)

Lemma bridge_app l1 : forall l2 currentDoc fs st,
  bridge (l1 ++ l2) currentDoc fs st =
  match bridge l1 currentDoc fs st with
  | (Ok c, st1) => bridge l2 c fs st1
  | (Throw e, st1) => (Throw e, st1)
  end.
Proof.
  induction l1 as [|i l1 IH]; intros l2 cur fs [s net]; [reflexivity|].
  rewrite <- app_comm_cons, !bridge_cons.
  destruct (lastDocuments s !! i); [apply IH|].
  destruct (firestoreApi.fetchMedicationsPage (pageSize s) cur fs net)
    as [[result|e] net1]; [|reflexivity].
  destruct (firestoreApi.lastDoc result); apply IH.
Qed.

Lemma bridge_cached pages : forall currentDoc fs s net,
  (forall i, In i pages -> is_Some (lastDocuments s !! i)) ->
  bridge pages currentDoc fs (s, net)
  = (Ok (lastCached s pages currentDoc), (s, net)).
Proof.
  induction pages as [|i rest IH]; intros cur fs s net Hc; [reflexivity|].
  rewrite bridge_cons. unfold lastCached. simpl.
  destruct (Hc i (or_introl eq_refl)) as [c Hi]. rewrite Hi.
  apply IH. intros j Hj. apply Hc. right. exact Hj.
Qed.

Lemma lastCached_seqZ s (k : nat) :
  is_Some (lastDocuments s !! Z.of_nat (S k)) ->
  lastCached s (seqZ 1 (Z.of_nat (S k))) None
  = lastDocuments s !! Z.of_nat (S k).
Proof.
  intros [c Hc]. rewrite seqZ_S. unfold lastCached.
  rewrite fold_left_app. simpl.
  replace (1 + Z.of_nat k) with (Z.of_nat (S k)) by lia.
  rewrite Hc. reflexivity.
Qed.

Lemma bridge_prefix_cached s (K : nat) fs net :
  (forall i, 1 <= i <= Z.of_nat K -> is_Some (lastDocuments s !! i)) ->
  bridge (seqZ 1 (Z.of_nat K)) None fs (s, net)
  = (Ok (cursorOf s (Z.of_nat K)), (s, net)).
Proof.
  intros Hc. rewrite bridge_cached.
  - f_equal. f_equal. unfold cursorOf. destruct K as [|k].
    + reflexivity.
    + rewrite lastCached_seqZ by (apply Hc; lia).
      destruct (Z.of_nat (S k) <? 1) eqn:E; [apply Z.ltb_lt in E; lia|reflexivity].
  - intros i Hi. apply Hc. apply list_elem_of_In, elem_of_seqZ in Hi. lia.
Qed.

(** *** What a load leaves in the controller *)

Lemma loadPage_isLoading page fs st :
  isLoading (fst st) = false -> isLoading (fst (loadPage page fs st)) = false.
Proof.
  intros H. unfold loadPage. rewrite H.
  destruct (page <? 1); [exact H|].
  destruct (loadPage_try page fs _) as [[[count result]|e] [s1 net1]];
    reflexivity.
Qed.

Lemma cacheCursor_below M i d s :
  i <= M -> cacheBelow M s -> cacheBelow M (cacheCursor i d s).
Proof.
  intros Hi Hs j Hj. unfold cacheCursor. simpl.
  rewrite lookup_insert_ne by lia. apply Hs. exact Hj.
Qed.

Lemma bridge_below M pages : forall currentDoc fs s net r s' net',
  (forall i, In i pages -> i <= M) ->
  cacheBelow M s ->
  bridge pages currentDoc fs (s, net) = (r, (s', net')) ->
  cacheBelow M s'.
Proof.
  induction pages as [|i rest IH]; intros cur fs s net r s' net' Hp Hs H.
  - inversion H; subst. exact Hs.
  - assert (Hrest : forall j, In j rest -> j <= M)
      by (intros j Hj; apply Hp; right; exact Hj).
    rewrite bridge_cons in H.
    destruct (lastDocuments s !! i); [eapply IH; eassumption|].
    destruct (firestoreApi.fetchMedicationsPage (pageSize s) cur fs net)
      as [[result|e] net1].
    + destruct (firestoreApi.lastDoc result) as [d|];
        [|eapply IH; eassumption].
      eapply IH; [exact Hrest| |exact H].
      apply cacheCursor_below; [apply Hp; left; reflexivity|exact Hs].
    + inversion H; subst. exact Hs.
Qed.

Lemma previousCursor_below M page fs s net r s' net' :
  page <= M -> cacheBelow M s ->
  previousCursor page fs (s, net) = (r, (s', net')) ->
  cacheBelow M s'.
Proof.
  intros Hp Hs. rewrite previousCursor_eq.
  destruct (1 <? page); [|intros H; inversion H; subst; exact Hs].
  destruct (lastDocuments s !! (page - 1));
    [intros H; inversion H; subst; exact Hs|].
  apply bridge_below; [|exact Hs].
  intros i Hi. apply list_elem_of_In, elem_of_seqZ in Hi. lia.
Qed.

Lemma loadPage_below M page fs st :
  page <= M -> cacheBelow M (fst st) -> cacheBelow M (fst (loadPage page fs st)).
Proof.
  intros Hp Hs. destruct st as [s net]. unfold loadPage. cbn [fst snd] in *.
  destruct (isLoading s); [exact Hs|].
  destruct (page <? 1); [exact Hs|].
  rewrite loadPage_try_eq.
  destruct (firestoreApi.getMedicationCount fs net) as [[count|e] net1];
    [|exact Hs].
  destruct (previousCursor page fs _) as [[lastDoc|e] [s1 net2]] eqn:E;
    apply (previousCursor_below M) in E; try assumption.
  - destruct (firestoreApi.fetchMedicationsPage (pageSize s1) lastDoc fs net2)
      as [[result|e] net3]; cbn [fst]; [|exact E].
    unfold loadPage_commit.
    destruct (firestoreApi.lastDoc result) as [d|]; [|exact E].
    intros j Hj. simpl. rewrite lookup_insert_ne by lia. apply E. exact Hj.
Qed.

Lemma visitPages_invariant fs (K : nat) s net :
  isLoading s = false ->
  lastDocuments s = ∅ ->
  let stK := visitPages fs K (s, net) in
  isLoading (fst stK) = false /\
  pageSize (fst stK) = pageSize s /\
  cacheBelow (Z.of_nat K) (fst stK).
Proof.
  intros Hl He. induction K as [|k (IHl & IHp & IHc)]; cbn zeta.
  - repeat split; [exact Hl|]. intros i _. simpl. rewrite He. apply lookup_empty.
  - simpl visitPages. split; [apply loadPage_isLoading; exact IHl|].
    split.
    + rewrite <- IHp. apply (loadPage_field pageSize); reflexivity.
    + apply loadPage_below; [lia|].
      intros i Hi. apply IHc. lia.
Qed.

(** *** A jump to a page whose predecessor is cached *)

Ltac answer_count Hh :=
  match goal with
  | |- context [getCountFromServer ?fs ?n] =>
      let c := fresh "c" in let Hc := fresh "Hc" in
      destruct (proj1 Hh n) as [c Hc]; rewrite Hc
  end.

Ltac answer_query Hh :=
  match goal with
  | |- context [getDocs ?fs ?n ?a ?l] =>
      let docs := fresh "docs" in let Hd := fresh "Hd" in
      destruct (proj2 Hh n a l) as [docs Hd]; rewrite Hd
  end.

Lemma loadPage_hit fs s net N :
  healthy fs -> isLoading s = false -> 1 <= N ->
  (1 < N -> is_Some (lastDocuments s !! (N - 1))) ->
  exists rc1 rc2 docs,
    snd (loadPage N fs (s, net))
    = net ++ [EvCount rc1; EvCount rc2;
              EvGetDocs (cursorOf s (N - 1)) (pageSize s) (Ok docs)].
Proof.
  intros Hh Hl HN Hc. unfold loadPage. cbn [fst snd]. rewrite Hl.
  destruct (N <? 1) eqn:E1; [apply Z.ltb_lt in E1; lia|].
  rewrite loadPage_try_eq. unfold firestoreApi.getMedicationCount.
  answer_count Hh. rewrite previousCursor_eq. unfold cursorOf.
  destruct (1 <? N) eqn:E2.
  - apply Z.ltb_lt in E2. destruct (Hc E2) as [c' Hc'].
    cbn [lastDocuments set_error set_isLoading]. rewrite Hc'.
    destruct (N - 1 <? 1) eqn:E3; [apply Z.ltb_lt in E3; lia|].
    rewrite fetchMedicationsPage_eq. cbv zeta. answer_query Hh.
    cbn [fst snd]. rewrite <- app_assoc. simpl. eauto.
  - apply Z.ltb_ge in E2.
    destruct (N - 1 <? 1) eqn:E3; [|apply Z.ltb_ge in E3; lia].
    rewrite fetchMedicationsPage_eq. cbv zeta. answer_query Hh.
    cbn [fst snd]. rewrite <- app_assoc. simpl. eauto.
Qed.

(** *** A jump two pages past the cached ones *)

Lemma loadPage_bridge_two fs s net (K : nat) :
  healthy fs -> isLoading s = false ->
  (forall i, 1 <= i <= Z.of_nat K -> is_Some (lastDocuments s !! i)) ->
  cacheBelow (Z.of_nat K) s ->
  exists rc1 rc2 rc3 docs1 docs2,
    let cK := cursorOf s (Z.of_nat K) in
    let cK1 := match last docs1 with
               | Some d => Some d
               | None => cK
               end in
    let st2 := loadPage (Z.of_nat K + 2) fs (s, net) in
    snd st2 = net ++ [EvCount rc1;
                      EvCount rc2; EvGetDocs cK (pageSize s) (Ok docs1);
                      EvCount rc3; EvGetDocs cK1 (pageSize s) (Ok docs2)] /\
    lastDocuments (fst st2) !! (Z.of_nat K + 1) = last docs1 /\
    lastDocuments (fst st2) !! (Z.of_nat K + 2) = last docs2 /\
    (forall i, i <= Z.of_nat K ->
       lastDocuments (fst st2) !! i = lastDocuments s !! i).
Proof.
  intros Hh Hl Hc Hb.
  destruct (loadPage (Z.of_nat K + 2) fs (s, net)) as [s2 net2] eqn:E.
  unfold loadPage in E. cbn [fst snd] in E. rewrite Hl in E.
  destruct (Z.of_nat K + 2 <? 1) eqn:E1; [apply Z.ltb_lt in E1; lia|].
  rewrite loadPage_try_eq in E. unfold firestoreApi.getMedicationCount in E.
  destruct (proj1 Hh (length net)) as [c Hcount]. rewrite Hcount in E.
  rewrite previousCursor_eq in E.
  destruct (1 <? Z.of_nat K + 2) eqn:E2; [|apply Z.ltb_ge in E2; lia].
  set (s0 := set_error None (set_isLoading true s)) in E.
  assert (Hs0 : lastDocuments s0 = lastDocuments s) by reflexivity.
  assert (Hp0 : pageSize s0 = pageSize s) by reflexivity.
  replace (Z.of_nat K + 2 - 1) with (Z.of_nat K + 1) in E by lia.
  rewrite Hs0, (Hb (Z.of_nat K + 1)) in E by lia.
  replace (Z.of_nat K + 1) with (Z.of_nat (S K)) in E by lia.
  rewrite seqZ_S, bridge_app in E.
  rewrite bridge_prefix_cached in E by (rewrite Hs0; exact Hc).
  rewrite bridge_cons in E.
  replace (1 + Z.of_nat K) with (Z.of_nat K + 1) in E by lia.
  rewrite Hs0, (Hb (Z.of_nat K + 1)) in E by lia.
  rewrite fetchMedicationsPage_eq in E. cbv zeta in E.
  set (net1 := net ++ [EvCount (Ok c)]) in E.
  destruct (proj2 Hh (S (length net1)) (cursorOf s0 (Z.of_nat K)) (pageSize s0))
    as [docs1 Hd1].
  rewrite Hd1 in E. cbn [firestoreApi.lastDoc pageResult] in E.
  set (net2' := net1 ++ _) in E.
  exists (Ok c), (getCountFromServer fs (length net1)).
  exists (getCountFromServer fs (length net2')), docs1.
  destruct (last docs1) as [d|] eqn:Elast; cbn [bridge ret] in E;
    rewrite fetchMedicationsPage_eq in E; cbv zeta in E.
  - destruct (proj2 Hh (S (length net2')) (Some d)
                (pageSize (cacheCursor (Z.of_nat K + 1) d s0)))
      as [docs2 Hd2].
    rewrite Hd2 in E. inversion E; subst s2 net2; clear E.
    exists docs2. cbv zeta. cbn [fst snd]. subst net2' net1.
    rewrite <- !app_assoc. split; [reflexivity|].
    unfold loadPage_commit. cbn [firestoreApi.lastDoc pageResult].
    destruct (last docs2) as [d2|]; simpl.
    + rewrite lookup_insert_ne, lookup_insert_eq by lia.
      rewrite lookup_insert_eq. repeat split.
      intros i Hi. rewrite !lookup_insert_ne by lia. reflexivity.
    + rewrite lookup_insert_eq, lookup_insert_ne by lia.
      rewrite (Hb (Z.of_nat K + 2)) by lia. repeat split.
      intros i Hi. rewrite !lookup_insert_ne by lia. reflexivity.
  - destruct (proj2 Hh (S (length net2')) (cursorOf s0 (Z.of_nat K))
                (pageSize s0))
      as [docs2 Hd2].
    rewrite Hd2 in E. inversion E; subst s2 net2; clear E.
    exists docs2. cbv zeta. cbn [fst snd]. subst net2' net1.
    rewrite <- !app_assoc. split; [reflexivity|].
    unfold loadPage_commit. cbn [firestoreApi.lastDoc pageResult].
    destruct (last docs2) as [d2|]; simpl.
    + rewrite lookup_insert_eq, lookup_insert_ne by lia.
      rewrite (Hb (Z.of_nat K + 1)) by lia. repeat split.
      intros i Hi. rewrite !lookup_insert_ne by lia. reflexivity.
    + rewrite (Hb (Z.of_nat K + 1)), (Hb (Z.of_nat K + 2)) by lia.
      repeat split.
Qed.

Lemma collectionStore_healthy docs : healthy (collectionStore docs).
Proof. split; intros; eexists; reflexivity. Qed.

(** C1. Let pages [1..K] be loaded in order from an empty cache on a store
    that answers, each caching its cursor. Then [loadPage(N)] for
    [N <= K] issues a single document query, resumed after the cached
    cursor of page [N-1]; and [loadPage(K+2)] issues exactly two: one
    resumed after the cursor of page [K], whose cursor it caches for page
    [K+1], and one resumed after that cursor. *)
Theorem cursor_cache_correct fs (K : nat) s net :
  healthy fs ->
  isLoading s = false ->
  lastDocuments s = ∅ ->
  (forall i, 1 <= i <= Z.of_nat K ->
     is_Some (lastDocuments (fst (visitPages fs K (s, net))) !! i)) ->
  let stK := visitPages fs K (s, net) in
  (forall N, 1 <= N <= Z.of_nat K ->
     (1 < N -> is_Some (cursorOf (fst stK) (N - 1))) /\
     exists rc1 rc2 docs,
       snd (loadPage N fs stK)
       = snd stK ++ [EvCount rc1; EvCount rc2;
                     EvGetDocs (cursorOf (fst stK) (N - 1)) (pageSize s)
                       (Ok docs)]) /\
  (exists rc1 rc2 rc3 docs1 docs2,
     let cK := cursorOf (fst stK) (Z.of_nat K) in
     let cK1 := match last docs1 with
                | Some d => Some d
                | None => cK
                end in
     let st2 := loadPage (Z.of_nat K + 2) fs stK in
     snd st2 = snd stK ++ [EvCount rc1;
                           EvCount rc2; EvGetDocs cK (pageSize s) (Ok docs1);
                           EvCount rc3; EvGetDocs cK1 (pageSize s) (Ok docs2)] /\
     lastDocuments (fst st2) !! (Z.of_nat K + 1) = last docs1 /\
     lastDocuments (fst st2) !! (Z.of_nat K + 2) = last docs2 /\
     (forall i, i <= Z.of_nat K ->
        lastDocuments (fst st2) !! i = lastDocuments (fst stK) !! i)).
Proof.
  intros Hh Hl He Hcached stK.
  destruct (visitPages_invariant fs K s net Hl He) as (HlK & HpK & HbK).
  fold stK in HlK, HpK, HbK, Hcached.
  destruct stK as [sK netK]. cbn [fst snd] in *. rewrite <- HpK. split.
  - intros N HN.
    assert (Hprev : 1 < N -> is_Some (lastDocuments sK !! (N - 1)))
      by (intros; apply Hcached; lia).
    split.
    + intros H1. unfold cursorOf.
      destruct (N - 1 <? 1) eqn:E; [apply Z.ltb_lt in E; lia|].
      apply Hprev. exact H1.
    + apply loadPage_hit; [exact Hh|exact HlK|lia|exact Hprev].
  - apply loadPage_bridge_two; assumption.
Qed.

Lemma cursor_cache_correct_witness :
  let fs := collectionStore (catalogue 250) in
  let stK := visitPages fs 2 (initialStore, []) in
  exists rc1 rc2 docs,
    snd (loadPage 2 fs stK)
    = snd stK ++ [EvCount rc1; EvCount rc2;
                  EvGetDocs (cursorOf (fst stK) (2 - 1)) 100 (Ok docs)].
Proof.
  intros fs stK.
  assert (Hcached : forall i, 1 <= i <= Z.of_nat 2 ->
            is_Some (lastDocuments (fst (visitPages fs 2 (initialStore, []))) !! i)).
  { intros i Hi. assert (Hi' : i = 1 \/ i = 2) by lia.
    destruct Hi' as [-> | ->]; vm_compute; eexists; reflexivity. }
  destruct (cursor_cache_correct fs 2 initialStore []
              (collectionStore_healthy _) eq_refl eq_refl Hcached) as [Hhit _].
  exact (proj2 (Hhit 2 ltac:(lia))).
Defined.

Example jump_ahead_example :
  let fs := collectionStore (catalogue 250) in
  let stK := visitPages fs 2 (initialStore, []) in
  let st4 := loadPage 4 fs stK in
  pageQueries (drop (length (snd stK)) (snd st4))
  = [(lastDocuments (fst stK) !! 2, 100); (lastDocuments (fst st4) !! 3, 100)]
  /\ lengthZ (medications (fst st4)) = 0
  /\ hasMore (fst st4) = false.
Proof. vm_compute. repeat split. Qed.

Example spec_scenario_250 :
  let fs := collectionStore (catalogue 250) in
  let st1 := loadPage 1 fs (initialStore, []) in
  let st3 := loadPage 3 fs st1 in
  hasMore (fst st1) = true /\ totalPages (fst st1) = 3 /\
  lengthZ (medications (fst st3)) = 50 /\ hasMore (fst st3) = false.
Proof. vm_compute. repeat split. Qed.

(** *** Refresh *)


(** ** The stable sort *)

Section StableSort.

Context {A : Type} (cmp : A -> A -> Q).

Lemma sortInsert_perm x l : Permutation (sortInsert cmp x l) (x :: l).
Proof.
  induction l as [|y l IH]; simpl; [reflexivity|].
  destruct (Qle_bool (cmp x y) 0); [reflexivity|].
  rewrite IH. apply perm_swap.
Qed.

Lemma arraySort_perm l : Permutation (arraySort cmp l) l.
Proof.
  induction l as [|x l IH]; simpl; [reflexivity|].
  rewrite sortInsert_perm, IH. reflexivity.
Qed.

(** A list in which no element has to move is returned as it is. *)
Lemma arraySort_in_order l :
  ForallOrdPairs (fun a b => (cmp a b <= 0)%Q) l -> arraySort cmp l = l.
Proof.
  induction 1 as [|x l Hx Hl IH]; simpl; [reflexivity|].
  rewrite IH. destruct l as [|y l]; [reflexivity|]. simpl.
  apply Forall_cons_iff in Hx as [Hxy _].
  apply Qle_bool_iff in Hxy. rewrite Hxy. reflexivity.
Qed.

(** [R] is the order the comparator induces on the pairs that satisfy
    [P]. *)
Variables R P : A -> A -> Prop.
Hypothesis R_trans : forall a b c, R a b -> R b c -> R a c.
Hypothesis cmp_le : forall x y, P x y -> (cmp x y <= 0)%Q -> R x y.
Hypothesis cmp_gt : forall x y, P x y -> ~ (cmp x y <= 0)%Q -> R y x.

Lemma sortInsert_sorted x l :
  Forall (P x) l -> StronglySorted R l -> StronglySorted R (sortInsert cmp x l).
Proof.
  induction l as [|y l IH]; intros HP Hs; simpl.
  - constructor; constructor.
  - apply Forall_cons_iff in HP as [HPy HPl].
    apply StronglySorted_inv in Hs as [Hs Hy].
    destruct (Qle_bool (cmp x y) 0) eqn:E.
    + apply Qle_bool_iff in E. pose proof (cmp_le _ _ HPy E) as Hxy.
      constructor; [constructor; assumption|].
      constructor; [exact Hxy|].
      rewrite List.Forall_forall in Hy. apply List.Forall_forall. intros z Hz.
      eapply R_trans; [exact Hxy|]. apply Hy. exact Hz.
    + assert (Hyx : R y x).
      { apply cmp_gt; [exact HPy|]. intros H. apply Qle_bool_iff in H. congruence. }
      constructor; [apply IH; assumption|].
      apply List.Forall_forall. intros z Hz.
      apply (Permutation_in _ (sortInsert_perm x l)) in Hz as [<-|Hz];
        [exact Hyx|].
      rewrite List.Forall_forall in Hy. apply Hy. exact Hz.
Qed.

Lemma arraySort_sorted l :
  ForallOrdPairs P l -> StronglySorted R (arraySort cmp l).
Proof.
  induction 1 as [|x l Hx Hl IH]; simpl; [constructor|].
  apply sortInsert_sorted; [|exact IH].
  apply List.Forall_forall. intros y Hy.
  apply (Permutation_in _ (arraySort_perm l)) in Hy.
  rewrite List.Forall_forall in Hx. apply Hx. exact Hy.
Qed.

End StableSort.

Section SortedLists.

Context {A : Type} (R : A -> A -> Prop).

Lemma StronglySorted_snoc l a :
  StronglySorted R l -> Forall (fun x => R x a) l -> StronglySorted R (l ++ [a]).
Proof.
  induction 1 as [|b l Hs IH Hb]; intros Ha; simpl.
  - constructor; constructor.
  - apply Forall_cons_iff in Ha as [Hba Ha].
    constructor; [apply IH; exact Ha|].
    apply Forall_app. split; [exact Hb|]. constructor; [exact Hba|constructor].
Qed.

Lemma StronglySorted_rev l :
  StronglySorted (fun a b => R b a) l -> StronglySorted R (rev l).
Proof.
  induction 1 as [|a l Hs IH Ha]; simpl; [constructor|].
  apply StronglySorted_snoc; [exact IH|].
  apply List.Forall_forall. intros x Hx. apply in_rev in Hx.
  rewrite List.Forall_forall in Ha. apply Ha. exact Hx.
Qed.

Hypothesis R_asym : forall a b, R a b -> R b a -> False.

Lemma StronglySorted_unique l1 : forall l2,
  StronglySorted R l1 -> StronglySorted R l2 -> Permutation l1 l2 -> l1 = l2.
Proof.
  induction l1 as [|a l1 IH]; intros l2 H1 H2 Hp.
  - apply Permutation_nil in Hp. congruence.
  - destruct l2 as [|b l2];
      [apply Permutation_sym, Permutation_nil in Hp; discriminate|].
    apply StronglySorted_inv in H1 as [H1 Ha].
    apply StronglySorted_inv in H2 as [H2 Hb].
    rewrite List.Forall_forall in Ha, Hb.
    assert (Eab : a = b).
    { assert (Hin1 : In a (b :: l2))
        by (apply (Permutation_in _ Hp); left; reflexivity).
      assert (Hin2 : In b (a :: l1))
        by (apply (Permutation_in _ (Permutation_sym Hp)); left; reflexivity).
      destruct Hin1 as [->|Hin1]; [reflexivity|].
      destruct Hin2 as [->|Hin2]; [reflexivity|].
      exfalso. apply (R_asym a b); [apply Ha|apply Hb]; assumption. }
    subst b. f_equal. apply IH; try assumption.
    eapply Permutation_cons_inv. exact Hp.
Qed.

End SortedLists.

(** ** The comparator of [sortedMedications] *)

Lemma string_compare_lt_trans x : forall y z,
  String.compare x y = Lt -> String.compare y z = Lt -> String.compare x z = Lt.
Proof.
  induction x as [|a x IH]; intros [|b y] [|c z]; simpl; try congruence.
  unfold Ascii.compare.
  destruct (N.compare_spec (N_of_ascii a) (N_of_ascii b)) as [Hab|Hab|Hab];
    destruct (N.compare_spec (N_of_ascii b) (N_of_ascii c)) as [Hbc|Hbc|Hbc];
    try congruence; intros H1 H2.
  - rewrite Hab, Hbc, N.compare_refl. eapply IH; eassumption.
  - rewrite Hab. apply N.compare_lt_iff in Hbc. rewrite Hbc. reflexivity.
  - rewrite <- Hbc. apply N.compare_lt_iff in Hab. rewrite Hab. reflexivity.
  - assert (H : (N_of_ascii a < N_of_ascii c)%N) by lia.
    apply N.compare_lt_iff in H. rewrite H. reflexivity.
Qed.

Lemma codeUnitCompare_anti x y :
  codeUnitCompare x y < 0 <-> 0 < codeUnitCompare y x.
Proof.
  unfold codeUnitCompare. rewrite (String.compare_antisym x y).
  destruct (String.compare y x); simpl; lia.
Qed.

Lemma codeUnitCompare_trans x y z :
  codeUnitCompare x y < 0 -> codeUnitCompare y z < 0 -> codeUnitCompare x z < 0.
Proof.
  unfold codeUnitCompare. intros H1 H2.
  rewrite (string_compare_lt_trans x y z); [lia| |].
  - destruct (String.compare x y); [lia|reflexivity|lia].
  - destruct (String.compare y z); [lia|reflexivity|lia].
Qed.

Lemma Q_of_Z_neg z : (inject_Z z < 0)%Q <-> z < 0.
Proof. rewrite (Zlt_Qlt z 0). reflexivity. Qed.

Lemma Q_of_Z_pos z : (0 < inject_Z z)%Q <-> 0 < z.
Proof. rewrite (Zlt_Qlt 0 z). reflexivity. Qed.

Lemma Q_of_Z_sub_neg x y : (inject_Z x - inject_Z y < 0)%Q <-> x < y.
Proof. rewrite (Zlt_Qlt x y). split; intros; lra. Qed.

Lemma compareFn_desc lc field a b :
  (compareFn lc field desc a b == - compareFn lc field asc a b)%Q.
Proof. destruct field; simpl; ring. Qed.

Section Comparator.

Variable lc : string -> string -> Z.
Hypothesis lc_anti : forall x y, lc x y < 0 <-> 0 < lc y x.
Hypothesis lc_trans : forall x y z, lc x y < 0 -> lc y z < 0 -> lc x z < 0.

Lemma compareFn_asc_neg field a b :
  (compareFn lc field asc a b < 0)%Q <-> keyLt lc field a b.
Proof.
  destruct field; simpl; rewrite Qmult_1_r.
  - apply Q_of_Z_neg.
  - apply Q_of_Z_neg.
  - split; intros; lra.
  - apply Q_of_Z_sub_neg.
Qed.

Lemma compareFn_asc_pos field a b :
  (0 < compareFn lc field asc a b)%Q <-> keyLt lc field b a.
Proof.
  destruct field; simpl; rewrite Qmult_1_r.
  - rewrite Q_of_Z_pos. symmetry. apply lc_anti.
  - rewrite Q_of_Z_pos. symmetry. apply lc_anti.
  - split; intros; lra.
  - rewrite <- Q_of_Z_sub_neg. split; intros; lra.
Qed.

Lemma keyLt_trans field a b c :
  keyLt lc field a b -> keyLt lc field b c -> keyLt lc field a c.
Proof.
  destruct field; simpl.
  - apply lc_trans.
  - apply lc_trans.
  - apply Qlt_trans.
  - lia.
Qed.

Lemma keyLt_asym field a b : keyLt lc field a b -> keyLt lc field b a -> False.
Proof.
  destruct field; simpl.
  - intros H1 H2. apply lc_anti in H1. lia.
  - intros H1 H2. apply lc_anti in H1. lia.
  - intros H1 H2. lra.
  - lia.
Qed.

Lemma arraySort_asc_sorted field l :
  ForallOrdPairs (fun a b => ~ (compareFn lc field asc a b == 0)%Q) l ->
  StronglySorted (keyLt lc field) (arraySort (compareFn lc field asc) l).
Proof.
  apply arraySort_sorted.
  - apply keyLt_trans.
  - intros x y Hne Hle. apply compareFn_asc_neg. lra.
  - intros x y Hne Hgt. apply compareFn_asc_pos. lra.
Qed.

Lemma arraySort_desc_sorted field l :
  ForallOrdPairs (fun a b => ~ (compareFn lc field asc a b == 0)%Q) l ->
  StronglySorted (fun a b => keyLt lc field b a)
    (arraySort (compareFn lc field desc) l).
Proof.
  apply arraySort_sorted.
  - intros a b c Hab Hbc. eapply keyLt_trans; eassumption.
  - intros x y Hne Hle. rewrite compareFn_desc in Hle.
    apply compareFn_asc_pos. lra.
  - intros x y Hne Hgt. rewrite compareFn_desc in Hgt.
    apply compareFn_asc_neg. lra.
Qed.

Lemma arraySort_desc_rev field l :
  ForallOrdPairs (fun a b => ~ (compareFn lc field asc a b == 0)%Q) l ->
  arraySort (compareFn lc field desc) l
  = rev (arraySort (compareFn lc field asc) l).
Proof.
  intros Hne.
  rewrite <- (rev_involutive (arraySort (compareFn lc field desc) l)).
  f_equal.
  apply (StronglySorted_unique (keyLt lc field) (keyLt_asym field)).
  - apply StronglySorted_rev. apply arraySort_desc_sorted. exact Hne.
  - apply arraySort_asc_sorted. exact Hne.
  - rewrite <- Permutation_rev, !arraySort_perm. reflexivity.
Qed.

End Comparator.

(** ** Sorting and the sort toggle *)

Lemma SortField_eqb_eq a b : SortField_eqb a b = true <-> a = b.
Proof. destruct a, b; simpl; split; congruence. Qed.

Lemma ForallOrdPairs_True {A} (l : list A) : ForallOrdPairs (fun _ _ => True) l.
Proof.
  induction l as [|a l IH]; constructor; [|exact IH].
  apply List.Forall_forall. intros; exact I.
Qed.

Lemma arraySort_by_price lc d l :
  StronglySorted (priceOrdered d) (arraySort (compareFn lc F_median_price d) l).
Proof.
  apply (arraySort_sorted _ _ (fun _ _ => True)).
  - intros a b c. destruct d; simpl; intros; lra.
  - intros x y _. destruct d; simpl; intros; lra.
  - intros x y _. destruct d; simpl; intros; lra.
  - apply ForallOrdPairs_True.
Qed.

Lemma arraySort_by_ndcCount lc d l :
  StronglySorted (ndcCountOrdered d) (arraySort (compareFn lc F_ndc_count d) l).
Proof.
  apply (arraySort_sorted _ _ (fun _ _ => True)).
  - intros a b c. destruct d; simpl; lia.
  - intros x y _. destruct d; simpl; intros H;
      [rewrite (Zle_Qle (ndcCount x) (ndcCount y))
      |rewrite (Zle_Qle (ndcCount y) (ndcCount x))]; lra.
  - intros x y _. destruct d; simpl; intros H;
      [rewrite (Zle_Qle (ndcCount y) (ndcCount x))
      |rewrite (Zle_Qle (ndcCount x) (ndcCount y))]; lra.
  - apply ForallOrdPairs_True.
Qed.

Lemma arraySort_all_tied lc field d l :
  ForallOrdPairs (fun a b => (compareFn lc field asc a b == 0)%Q) l ->
  arraySort (compareFn lc field d) l = l.
Proof.
  intros H. apply arraySort_in_order.
  induction H as [|x l Hx Hl IH]; constructor; [|exact IH].
  rewrite List.Forall_forall in Hx. apply List.Forall_forall. intros y Hy.
  specialize (Hx y Hy). destruct d; [|rewrite compareFn_desc]; lra.
Qed.

(** C7 (as the code has it). [setSortField] with the active field flips the
    direction and with another field selects it ascending. For a
    [localeCompare] that is a consistent order, flipping the direction
    reverses [sortedMedications] when no two filtered records compare equal
    on the field, and leaves it as it is when all of them do. Under the
    [median_price] and [ndc_count] keys the sorted list is ordered by the
    numeric value of the key. *)
Theorem sort_toggle lc (s : MedicationViewerStore) (field : SortField) :
  (forall x y, lc x y < 0 <-> 0 < lc y x) ->
  (forall x y z, lc x y < 0 -> lc y z < 0 -> lc x z < 0) ->
  (sortField s = field ->
     sortField (setSortField field s) = field /\
     sortDirection (setSortField field s) = flipDirection (sortDirection s)) /\
  (sortField s <> field ->
     sortField (setSortField field s) = field /\
     sortDirection (setSortField field s) = asc) /\
  (sortField s = field ->
     ForallOrdPairs (fun a b => ~ (compareFn lc field asc a b == 0)%Q)
       (filteredMedications s) ->
     sortedMedications lc (setSortField field s)
     = rev (sortedMedications lc s)) /\
  (sortField s = field ->
     ForallOrdPairs (fun a b => (compareFn lc field asc a b == 0)%Q)
       (filteredMedications s) ->
     sortedMedications lc (setSortField field s) = sortedMedications lc s) /\
  (sortField s = F_median_price ->
     StronglySorted (priceOrdered (sortDirection s)) (sortedMedications lc s)) /\
  (sortField s = F_ndc_count ->
     StronglySorted (ndcCountOrdered (sortDirection s)) (sortedMedications lc s)).
Proof.
  intros lc_anti lc_trans.
  assert (Hsame : sortField s = field ->
            setSortField field s
            = set_sortDirection (flipDirection (sortDirection s)) s).
  { intros H. unfold setSortField.
    rewrite (proj2 (SortField_eqb_eq _ _) H). reflexivity. }
  split; [|split; [|split; [|split; [|split]]]].
  - intros H. rewrite (Hsame H). simpl. auto.
  - intros H. unfold setSortField.
    destruct (SortField_eqb (sortField s) field) eqn:E;
      [apply SortField_eqb_eq in E; contradiction|].
    simpl. auto.
  - intros H Hne. rewrite (Hsame H). unfold sortedMedications.
    change (filteredMedications (set_sortDirection _ s))
      with (filteredMedications s).
    cbn [sortField sortDirection set_sortDirection]. rewrite H.
    destruct (sortDirection s); cbn [flipDirection].
    + apply arraySort_desc_rev; assumption.
    + rewrite (arraySort_desc_rev lc lc_anti lc_trans field _ Hne).
      rewrite rev_involutive. reflexivity.
  - intros H Htie. rewrite (Hsame H). unfold sortedMedications.
    change (filteredMedications (set_sortDirection _ s))
      with (filteredMedications s).
    cbn [sortField sortDirection set_sortDirection]. rewrite H.
    rewrite !arraySort_all_tied by exact Htie. reflexivity.
  - intros H. unfold sortedMedications. rewrite H. apply arraySort_by_price.
  - intros H. unfold sortedMedications. rewrite H. apply arraySort_by_ndcCount.
Qed.

Lemma sort_toggle_witness :
  let s := set_sortField F_median_price
             (set_medications [atorvastatin; amoxicillin] initialStore) in
  sortedMedications codeUnitCompare s = [amoxicillin; atorvastatin] /\
  sortedMedications codeUnitCompare (setSortField F_median_price s)
  = rev (sortedMedications codeUnitCompare s).
Proof.
  intros s. split; [reflexivity|].
  refine (proj1 (proj2 (proj2
            (sort_toggle codeUnitCompare s F_median_price
               codeUnitCompare_anti codeUnitCompare_trans))) eq_refl _).
  repeat constructor. vm_compute. discriminate.
Defined.

(** The claim as stated fails on ties: two records with the same median
    price keep their order when the direction is flipped. *)
Lemma sort_toggle_keeps_ties :
  let s := set_sortField F_median_price
             (set_medications [atorvastatin; ibuprofen] initialStore) in
  sortDirection (setSortField F_median_price s) = desc /\
  sortedMedications codeUnitCompare s = [atorvastatin; ibuprofen] /\
  sortedMedications codeUnitCompare (setSortField F_median_price s)
  = [atorvastatin; ibuprofen] /\
  sortedMedications codeUnitCompare (setSortField F_median_price s)
  <> rev (sortedMedications codeUnitCompare s).
Proof.
  intros s. repeat split; try reflexivity.
  vm_compute. discriminate.
Qed.

Example numeric_not_lexicographic :
  let nine := sampleDoc "1" "a" 9 false [] None in
  let ten := sampleDoc "2" "b" 10 false [] None in
  sortedMedications codeUnitCompare
    (set_sortField F_median_price (set_medications [ten; nine] initialStore))
  = [nine; ten].
Proof. reflexivity. Qed.

(** * Further properties *)

(** ** Pages of a collection *)

Lemma snapshot_page_data docs (ps P : nat) :
  map snap_data (take ps (drop P (snapshotsOf docs))) = take ps (drop P docs).
Proof.
  change (map snap_data) with (fmap (M:=list) snap_data).
  rewrite fmap_take, fmap_drop.
  change (fmap (M:=list) snap_data) with (map snap_data).
  rewrite snapshotsOf_data. reflexivity.
Qed.

Lemma snapshot_page_length docs (ps P : nat) :
  length (take ps (drop P (snapshotsOf docs))) = Nat.min ps (length docs - P).
Proof. rewrite length_take, length_drop, snapshotsOf_length. reflexivity. Qed.

Lemma snapshot_page_last docs (ps P : nat) :
  match last (take ps (drop P (snapshotsOf docs))) with
  | Some d => (0 < Nat.min ps (length docs - P))%nat /\
              S (snap_ref d) = (P + Nat.min ps (length docs - P))%nat
  | None => Nat.min ps (length docs - P) = 0%nat
  end.
Proof.
  pose proof (snapshot_page_length docs ps P) as Hlen.
  rewrite last_lookup, Hlen.
  destruct (Nat.eq_dec (Nat.min ps (length docs - P)) 0%nat) as [Hz|Hnz].
  - rewrite lookup_ge_None_2 by lia. exact Hz.
  - rewrite lookup_take_lt by lia. rewrite lookup_drop.
    unfold snapshotsOf. rewrite list_lookup_imap.
    destruct (docs !! (P + pred (Nat.min ps (length docs - P)))%nat) as [d|] eqn:Ed.
    + simpl. split; lia.
    + apply lookup_ge_None in Ed. lia.
Qed.

Lemma drop_samePosition {A} (l : list A) p q :
  samePosition (length l) p q -> drop p l = drop q l.
Proof.
  unfold samePosition. intros H.
  destruct (Nat.le_gt_cases (length l) p) as [Hp|Hp].
  - rewrite (drop_ge l p) by lia. rewrite (drop_ge l q) by lia. reflexivity.
  - assert (p = q) by lia. subst. reflexivity.
Qed.

(** The cursor of a page that resumed at an equivalent of position [P] and
    came back non-empty marks the end of the page. *)
Lemma page_cursor_position docs (ps P Q : nat) d :
  samePosition (length docs) P Q ->
  last (take ps (drop P (snapshotsOf docs))) = Some d ->
  samePosition (length docs) (S (snap_ref d)) (Q + ps).
Proof.
  unfold samePosition. intros HP Hlast.
  pose proof (snapshot_page_last docs ps P) as H. rewrite Hlast in H.
  destruct H as [Hpos ->]. lia.
Qed.

(** After an empty page nothing is left, so the old position is as good as
    the end of the page. *)
Lemma empty_page_position docs (ps P Q : nat) :
  samePosition (length docs) P Q ->
  last (take ps (drop P (snapshotsOf docs))) = None ->
  samePosition (length docs) P (Q + ps).
Proof.
  unfold samePosition. intros HP Hlast.
  pose proof (snapshot_page_last docs ps P) as H. rewrite Hlast in H. lia.
Qed.

Lemma page_position_succ (ps : nat) (i : Z) :
  1 <= i -> (ps * Z.to_nat i = ps * Z.to_nat (i - 1) + ps)%nat.
Proof. intros Hi. replace (Z.to_nat i) with (S (Z.to_nat (i - 1))) by lia. lia. Qed.

(** ** Page loads against a fixed collection *)

Section ServedCollection.

Variable fs : Firestore.
Variable docs : list MedicationDocument.
Hypothesis serves : servesCollection fs docs.

Lemma served_query n after lim :
  getDocs fs n after lim
  = Ok (take (Z.to_nat lim) (drop (resumeIndex after) (snapshotsOf docs))).
Proof. apply serves. Qed.

Lemma cacheCursor_consistent s a d :
  1 <= a ->
  cacheConsistent docs s ->
  samePosition (length docs) (S (snap_ref d))
    (Z.to_nat (pageSize s) * Z.to_nat a) ->
  cacheConsistent docs (cacheCursor a d s).
Proof.
  intros Ha Hs Hd i c Hi. unfold cacheCursor. simpl.
  destruct (decide (a = i)) as [->|Hne].
  - rewrite lookup_insert_eq. intros [= <-]. exact Hd.
  - rewrite lookup_insert_ne by exact Hne. apply Hs. exact Hi.
Qed.

Lemma bridge_serving (k : nat) : forall a currentDoc s net,
  1 <= a ->
  cacheConsistent docs s ->
  samePosition (length docs) (resumeIndex currentDoc)
    (Z.to_nat (pageSize s) * Z.to_nat (a - 1)) ->
  exists cur' s' net',
    bridge (seqZ a (Z.of_nat k)) currentDoc fs (s, net) = (Ok cur', (s', net')) /\
    cacheConsistent docs s' /\
    pageSize s' = pageSize s /\
    samePosition (length docs) (resumeIndex cur')
      (Z.to_nat (pageSize s) * Z.to_nat (a + Z.of_nat k - 1)).
Proof.
  induction k as [|k IH]; intros a cur s net Ha Hs Hcur.
  - exists cur, s, net. rewrite seqZ_nil by lia.
    replace (a + Z.of_nat 0 - 1) with (a - 1) by lia. auto.
  - rewrite seqZ_cons by lia.
    replace (Z.pred (Z.of_nat (S k))) with (Z.of_nat k) by lia.
    replace (a + Z.of_nat (S k) - 1) with (Z.succ a + Z.of_nat k - 1) by lia.
    rewrite bridge_cons.
    destruct (lastDocuments s !! a) as [c|] eqn:Ec.
    + apply IH; [lia|exact Hs|].
      replace (Z.succ a - 1) with a by lia. apply Hs; assumption.
    + rewrite fetchMedicationsPage_eq. cbv zeta. rewrite served_query.
      cbn [firestoreApi.lastDoc pageResult].
      set (Q := (Z.to_nat (pageSize s) * Z.to_nat (a - 1))%nat) in *.
      assert (HQ : (Z.to_nat (pageSize s) * Z.to_nat a)%nat
                   = (Q + Z.to_nat (pageSize s))%nat)
        by (apply page_position_succ; exact Ha).
      destruct (last _) as [d|] eqn:Elast.
      * pose proof (page_cursor_position _ _ _ _ _ Hcur Elast) as Hd.
        rewrite <- HQ in Hd.
        edestruct (IH (Z.succ a) (Some d) (cacheCursor a d s))
          as (cur' & s' & net' & E & Hs' & Hp' & Hcur').
        { lia. }
        { apply cacheCursor_consistent; assumption. }
        { replace (Z.succ a - 1) with a by lia. exact Hd. }
        exists cur', s', net'. rewrite E. auto.
      * pose proof (empty_page_position _ _ _ _ Hcur Elast) as Hd.
        rewrite <- HQ in Hd.
        apply IH; [lia|exact Hs|].
        replace (Z.succ a - 1) with a by lia. exact Hd.
Qed.

Lemma previousCursor_serving N s net :
  1 <= N ->
  cacheConsistent docs s ->
  exists lastDoc s' net',
    previousCursor N fs (s, net) = (Ok lastDoc, (s', net')) /\
    cacheConsistent docs s' /\
    pageSize s' = pageSize s /\
    samePosition (length docs) (resumeIndex lastDoc)
      (Z.to_nat (pageSize s) * Z.to_nat (N - 1)).
Proof.
  intros HN Hs. rewrite previousCursor_eq.
  destruct (1 <? N) eqn:E1.
  - apply Z.ltb_lt in E1.
    destruct (lastDocuments s !! (N - 1)) as [c|] eqn:Ec.
    + exists (Some c), s, net. repeat split; try assumption.
      apply Hs; [lia|exact Ec].
    + edestruct (bridge_serving (Z.to_nat (N - 1)) 1 None s net)
        as (cur' & s' & net' & E & Hs' & Hp' & Hcur'); [lia|exact Hs| |].
      { unfold samePosition. simpl. rewrite Nat.mul_0_r. reflexivity. }
      rewrite Z2Nat.id in E by lia.
      exists cur', s', net'. rewrite E. repeat split; try assumption.
      replace (1 + Z.of_nat (Z.to_nat (N - 1)) - 1) with (N - 1) in Hcur' by lia.
      exact Hcur'.
  - apply Z.ltb_ge in E1. exists None, s, net. repeat split; try assumption.
    replace (N - 1) with 0 by lia. unfold samePosition. simpl.
    rewrite Nat.mul_0_r. reflexivity.
Qed.

(** A page load that gets its count shows the records of the page. *)
Lemma loadPage_serving N s net count :
  getCountFromServer fs (length net) = Ok count ->
  isLoading s = false ->
  1 <= N ->
  cacheConsistent docs s ->
  let ps := Z.to_nat (pageSize s) in
  let s' := fst (loadPage N fs (s, net)) in
  medications s' = pageSlice ps docs N /\
  currentPage s' = N /\
  totalCount s' = count /\
  hasMore s' = (lengthZ (pageSlice ps docs N) =? pageSize s) /\
  error s' = None /\
  isLoading s' = false /\
  pageSize s' = pageSize s /\
  cacheConsistent docs s'.
Proof.
  intros Hcount Hl HN Hs ps. unfold loadPage. cbn [fst snd]. rewrite Hl.
  destruct (N <? 1) eqn:E1; [apply Z.ltb_lt in E1; lia|].
  rewrite loadPage_try_eq. unfold firestoreApi.getMedicationCount.
  rewrite Hcount.
  set (s0 := set_error None (set_isLoading true s)).
  assert (Hs0 : cacheConsistent docs s0) by exact Hs.
  destruct (previousCursor_serving N s0 (net ++ [EvCount (Ok count)]) HN Hs0)
    as (lastDoc & s1 & net1 & E & Hs1 & Hp1 & Hpos).
  rewrite E.
  pose proof (previousCursor_frame error (fun _ _ _ => eq_refl) _ _ _ _ _ E)
    as Herr.
  cbn [fst] in Herr.
  rewrite fetchMedicationsPage_eq. cbv zeta. rewrite served_query. cbn [fst].
  change (pageSize s0) with (pageSize s) in *. rewrite Hp1 in *.
  fold ps in Hpos |- *.
  assert (Hslice : map snap_data
                     (take ps (drop (resumeIndex lastDoc) (snapshotsOf docs)))
                   = pageSlice ps docs N).
  { rewrite snapshot_page_data. unfold pageSlice.
    rewrite (drop_samePosition docs _ _ Hpos). reflexivity. }
  unfold loadPage_commit. cbn [firestoreApi.lastDoc firestoreApi.medications
    firestoreApi.hasMore pageResult].
  assert (Hhas : (Z.of_nat (length (take ps (drop (resumeIndex lastDoc)
                                               (snapshotsOf docs)))) =? pageSize s)
                 = (lengthZ (pageSlice ps docs N) =? pageSize s)).
  { rewrite <- Hslice. unfold lengthZ. rewrite length_map. reflexivity. }
  destruct (last _) as [d|] eqn:Elast; simpl; rewrite Hslice, Hhas;
    repeat split; try assumption.
  intros i c Hi. simpl.
  destruct (decide (N = i)) as [->|Hne].
  - rewrite lookup_insert_eq. intros [= <-]. rewrite Hp1. fold ps.
    pose proof (page_cursor_position _ _ _ _ _ Hpos Elast) as Hd.
    rewrite <- page_position_succ in Hd by exact Hi. exact Hd.
  - rewrite lookup_insert_ne by exact Hne. intros Hc.
    specialize (Hs1 i c Hi Hc). rewrite Hp1 in Hs1. rewrite Hp1. exact Hs1.
Qed.

End ServedCollection.

(** ** What every action keeps *)

Lemma loadPage_currentPage page fs st :
  currentPage (fst (loadPage page fs st)) = currentPage (fst st) \/
  (currentPage (fst (loadPage page fs st)) = page /\ 1 <= page).
Proof.
  unfold loadPage. destruct (isLoading (fst st)); [left; reflexivity|].
  destruct (page <? 1) eqn:E; [left; reflexivity|]. apply Z.ltb_ge in E.
  destruct (loadPage_try page fs _) as [[[count result]|e] [s1 net1]] eqn:Et;
    pose proof (loadPage_try_frame currentPage (fun _ _ _ => eq_refl)
                  _ _ _ _ _ Et) as Hp; cbn [fst snd] in *.
  - right. split; [|exact E]. unfold loadPage_commit.
    destruct (firestoreApi.lastDoc result); reflexivity.
  - left. exact Hp.
Qed.

Lemma loadAllMedications_flag fuel fs st st' :
  isLoadingAll (fst st) = false ->
  loadAllMedications fuel fs st = Some st' ->
  isLoadingAll (fst st') = false.
Proof.
  intros Ha. unfold loadAllMedications. rewrite Ha. cbn [orb].
  destruct (isLoading (fst st)); [intros [= <-]; exact Ha|].
  destruct (firestoreApi.fetchAllMedications fuel onProgress fs _)
    as [[[allMeds|e] [s1 net1]]|]; [| |discriminate];
    intros [= <-]; reflexivity.
Qed.

Lemma loadAllMedications_currentPage fuel fs st st' :
  loadAllMedications fuel fs st = Some st' ->
  currentPage (fst st') = currentPage (fst st) \/ currentPage (fst st') = 1.
Proof.
  unfold loadAllMedications.
  destruct (isLoadingAll (fst st) || isLoading (fst st));
    [intros [= <-]; left; reflexivity|].
  destruct (firestoreApi.fetchAllMedications fuel onProgress fs _)
    as [[[allMeds|e] [s1 net1]]|] eqn:E; [| |discriminate]; intros [= <-].
  - right. reflexivity.
  - left. apply (fetchAllMedications_frame currentPage) in E; [exact E|].
    intros loaded [t|] s; reflexivity.
Qed.

Lemma loadPage_invariant page fs st :
  SessionInvariant (fst st) -> SessionInvariant (fst (loadPage page fs st)).
Proof.
  intros [Hl Ha Hp Hc Hm Hq Hd]. split.
  - apply loadPage_isLoading. exact Hl.
  - rewrite (loadPage_field isLoadingAll); auto.
  - rewrite (loadPage_field pageSize); auto.
  - destruct (loadPage_currentPage page fs st) as [-> | [-> H1]]; assumption.
  - rewrite (loadPage_field matchedOnly), (loadPage_field unmatchedOnly); auto.
  - rewrite (loadPage_field liquidsOnly), (loadPage_field solidsOnly); auto.
  - unfold modalMatchesSelection.
    rewrite (loadPage_field isDetailModalOpen),
      (loadPage_field selectedMedication); auto.
Qed.

Lemma loadAllMedications_invariant fuel fs st st' :
  SessionInvariant (fst st) ->
  loadAllMedications fuel fs st = Some st' ->
  SessionInvariant (fst st').
Proof.
  intros [Hl Ha Hp Hc Hm Hq Hd] H. split.
  - rewrite (loadAllMedications_field isLoading _ _ _ _ ltac:(auto) ltac:(auto)
               ltac:(auto) ltac:(auto) ltac:(auto) ltac:(auto) ltac:(auto)
               ltac:(auto) H). exact Hl.
  - eapply loadAllMedications_flag; eassumption.
  - rewrite (loadAllMedications_field pageSize _ _ _ _ ltac:(auto) ltac:(auto)
               ltac:(auto) ltac:(auto) ltac:(auto) ltac:(auto) ltac:(auto)
               ltac:(auto) H). exact Hp.
  - destruct (loadAllMedications_currentPage _ _ _ _ H) as [-> | ->];
      [exact Hc|lia].
  - rewrite (loadAllMedications_field matchedOnly _ _ _ _ ltac:(auto) ltac:(auto)
               ltac:(auto) ltac:(auto) ltac:(auto) ltac:(auto) ltac:(auto)
               ltac:(auto) H),
            (loadAllMedications_field unmatchedOnly _ _ _ _ ltac:(auto) ltac:(auto)
               ltac:(auto) ltac:(auto) ltac:(auto) ltac:(auto) ltac:(auto)
               ltac:(auto) H). exact Hm.
  - rewrite (loadAllMedications_field liquidsOnly _ _ _ _ ltac:(auto) ltac:(auto)
               ltac:(auto) ltac:(auto) ltac:(auto) ltac:(auto) ltac:(auto)
               ltac:(auto) H),
            (loadAllMedications_field solidsOnly _ _ _ _ ltac:(auto) ltac:(auto)
               ltac:(auto) ltac:(auto) ltac:(auto) ltac:(auto) ltac:(auto)
               ltac:(auto) H). exact Hq.
  - unfold modalMatchesSelection.
    rewrite (loadAllMedications_field isDetailModalOpen _ _ _ _ ltac:(auto)
               ltac:(auto) ltac:(auto) ltac:(auto) ltac:(auto) ltac:(auto)
               ltac:(auto) ltac:(auto) H),
            (loadAllMedications_field selectedMedication _ _ _ _ ltac:(auto)
               ltac:(auto) ltac:(auto) ltac:(auto) ltac:(auto) ltac:(auto)
               ltac:(auto) ltac:(auto) H). exact Hd.
Qed.

Lemma initialStore_invariant : SessionInvariant initialStore.
Proof. split; reflexivity. Qed.

Lemma perform_invariant a fs st st' :
  SessionInvariant (fst st) -> perform a fs st = Some st' ->
  SessionInvariant (fst st').
Proof.
  intros Hinv H.
  assert (Hset : forall s, SessionInvariant s ->
            forall page net, SessionInvariant (fst (loadPage page fs (s, net))))
    by (intros; apply loadPage_invariant; assumption).
  destruct a; simpl in H; unfold onStore in H;
    try match type of H with
        | Some _ = Some _ => inversion H; subst; clear H; cbn [fst snd]
        end.
  - unfold initialize. destruct (negb (isFirebaseConfigured app)).
    + destruct Hinv; split; assumption.
    + destruct (initAuth app).
      * apply Hset. destruct Hinv; split; assumption.
      * destruct Hinv; split; assumption.
  - apply loadPage_invariant. exact Hinv.
  - unfold nextPage. destruct (canGoNext _);
      [apply loadPage_invariant|]; exact Hinv.
  - unfold prevPage. destruct (canGoPrev _);
      [apply loadPage_invariant|]; exact Hinv.
  - apply loadPage_invariant. exact Hinv.
  - unfold refresh. apply Hset. destruct Hinv; split; assumption.
  - eapply loadAllMedications_invariant; eassumption.
  - destruct Hinv; split; assumption.
  - destruct Hinv as [Hl Ha Hp Hc Hm Hq Hd].
    unfold toggleMatchedOnly. simpl.
    destruct (matchedOnly (fst st)); split; simpl; auto.
  - destruct Hinv as [Hl Ha Hp Hc Hm Hq Hd].
    unfold toggleUnmatchedOnly. simpl.
    destruct (unmatchedOnly (fst st)); split; simpl; auto.
    apply andb_false_r.
  - destruct Hinv as [Hl Ha Hp Hc Hm Hq Hd].
    unfold toggleLiquidsOnly. simpl.
    destruct (liquidsOnly (fst st)); split; simpl; auto.
  - destruct Hinv as [Hl Ha Hp Hc Hm Hq Hd].
    unfold toggleSolidsOnly. simpl.
    destruct (solidsOnly (fst st)); split; simpl; auto.
    apply andb_false_r.
  - destruct Hinv; split; assumption.
  - destruct Hinv. unfold setSortField.
    destruct (SortField_eqb _ _); split; assumption.
  - destruct Hinv; split; assumption.
  - destruct Hinv; split; try assumption. reflexivity.
  - destruct Hinv; split; try assumption. reflexivity.
  - destruct Hinv; split; try assumption; reflexivity.
  - destruct Hinv; split; assumption.
  - destruct Hinv; split; assumption.
Qed.

Lemma reachable_invariant fs st : reachable fs st -> SessionInvariant (fst st).
Proof.
  induction 1 as [|a st st' _ IH Hstep].
  - exact initialStore_invariant.
  - eapply perform_invariant; eassumption.
Qed.

(** ** The cursor cache of a reachable session *)

Lemma cacheConsistent_same docs s s' :
  lastDocuments s' = lastDocuments s -> pageSize s' = pageSize s ->
  cacheConsistent docs s -> cacheConsistent docs s'.
Proof.
  intros Hc Hp Hs i c Hi. rewrite Hc, Hp. apply Hs. exact Hi.
Qed.

Lemma loadPage_consistent fs docs page st :
  servesCollection fs docs ->
  cacheConsistent docs (fst st) ->
  cacheConsistent docs (fst (loadPage page fs st)).
Proof.
  intros Hserve Hs. destruct st as [s net]. cbn [fst] in Hs.
  destruct (isLoading s) eqn:Hl.
  { rewrite loadPage_rejected_while_loading by exact Hl. exact Hs. }
  destruct (Z.lt_ge_cases page 1) as [Hp|Hp].
  { rewrite loadPage_rejected_below_one by exact Hp. exact Hs. }
  destruct (getCountFromServer fs (length net)) as [count|e] eqn:Ec.
  - apply (loadPage_serving fs docs Hserve page s net count); assumption.
  - rewrite (loadPage_count_failure page fs s net e) by assumption.
    exact Hs.
Qed.

Lemma perform_consistent docs a fs st st' :
  servesCollection fs docs ->
  cacheConsistent docs (fst st) -> perform a fs st = Some st' ->
  cacheConsistent docs (fst st').
Proof.
  intros Hserve Hs H.
  assert (Hload : forall page st0, cacheConsistent docs (fst st0) ->
            cacheConsistent docs (fst (loadPage page fs st0)))
    by (intros; apply loadPage_consistent; assumption).
  destruct a; simpl in H; unfold onStore in H;
    try match type of H with
        | Some _ = Some _ => inversion H; subst; clear H; cbn [fst snd]
        end;
    try (revert Hs; apply cacheConsistent_same; reflexivity).
  - unfold initialize. destruct (negb (isFirebaseConfigured app)); [exact Hs|].
    destruct (initAuth app); [|exact Hs]. apply Hload. exact Hs.
  - apply Hload. exact Hs.
  - unfold nextPage. destruct (canGoNext _); [apply Hload|]; exact Hs.
  - unfold prevPage. destruct (canGoPrev _); [apply Hload|]; exact Hs.
  - apply Hload. exact Hs.
  - unfold refresh. apply Hload. intros i c _. simpl.
    rewrite lookup_empty. discriminate.
  - revert Hs. apply cacheConsistent_same.
    + apply (loadAllMedications_field lastDocuments _ _ _ _ ltac:(auto)
               ltac:(auto) ltac:(auto) ltac:(auto) ltac:(auto) ltac:(auto)
               ltac:(auto) ltac:(auto) H).
    + apply (loadAllMedications_field pageSize _ _ _ _ ltac:(auto)
               ltac:(auto) ltac:(auto) ltac:(auto) ltac:(auto) ltac:(auto)
               ltac:(auto) ltac:(auto) H).
  - unfold toggleMatchedOnly. simpl.
    destruct (negb (matchedOnly (fst st))); exact Hs.
  - unfold toggleUnmatchedOnly. simpl.
    destruct (negb (unmatchedOnly (fst st))); exact Hs.
  - unfold toggleLiquidsOnly. simpl.
    destruct (negb (liquidsOnly (fst st))); exact Hs.
  - unfold toggleSolidsOnly. simpl.
    destruct (negb (solidsOnly (fst st))); exact Hs.
  - unfold setSortField. destruct (SortField_eqb _ _); exact Hs.
Qed.

Lemma reachable_consistent docs fs st :
  servesCollection fs docs -> reachable fs st -> cacheConsistent docs (fst st).
Proof.
  intros Hserve. induction 1 as [|a st st' _ IH Hstep].
  - intros i c _. simpl. rewrite lookup_empty. discriminate.
  - eapply perform_consistent; eassumption.
Qed.

Lemma collectionStore_serves docs : servesCollection (collectionStore docs) docs.
Proof. intros n after lim. reflexivity. Qed.

Lemma countDeniedStore_serves docs : servesCollection (countDeniedStore docs) docs.
Proof. intros n after lim. reflexivity. Qed.

(** X1. Against a store that serves a fixed collection, a page load from
    any reachable session whose count request is answered shows exactly the
    records of that page, whatever was visited, refreshed or bulk-loaded
    before: records [100*(N-1) .. 100*N-1] of the collection, with
    [currentPage = N], the answered total, [hasMore] telling whether the
    page is full, and an empty error slot. *)
Theorem reachable_loadPage_shows_page fs docs st N count :
  servesCollection fs docs ->
  reachable fs st ->
  1 <= N ->
  getCountFromServer fs (length (snd st)) = Ok count ->
  let s' := fst (loadPage N fs st) in
  medications s' = pageSlice 100 docs N /\
  currentPage s' = N /\
  totalCount s' = count /\
  hasMore s' = (lengthZ (pageSlice 100 docs N) =? 100) /\
  error s' = None.
Proof.
  intros Hserve Hr HN Hcount.
  pose proof (reachable_invariant fs st Hr) as [Hl _ Hp _ _ _ _].
  pose proof (reachable_consistent docs fs st Hserve Hr) as Hs.
  destruct st as [s net]. cbn [fst snd] in *.
  destruct (loadPage_serving fs docs Hserve N s net count Hcount Hl HN Hs)
    as (Hm & Hc & Ht & Hh & He & _).
  rewrite Hp in Hm, Hh. change (Z.to_nat PAGE_SIZE) with 100%nat in Hm, Hh.
  change PAGE_SIZE with 100 in Hh. cbv zeta. auto.
Qed.

Lemma reachable_loadPage_shows_page_witness :
  let fs := collectionStore (catalogue 250) in
  let st := loadPage 1 fs (refresh fs (loadPage 2 fs (initialStore, []))) in
  medications (fst (loadPage 3 fs st)) = drop 200 (catalogue 250) /\
  currentPage (fst (loadPage 3 fs st)) = 3 /\
  hasMore (fst (loadPage 3 fs st)) = false.
Proof.
  intros fs st.
  assert (Hr : reachable fs st).
  { apply (reach_step fs (LoadPage 1) (refresh fs (loadPage 2 fs (initialStore, [])))).
    - apply (reach_step fs Refresh (loadPage 2 fs (initialStore, []))).
      + apply (reach_step fs (LoadPage 2) (initialStore, []));
          [apply reach_init|reflexivity].
      + reflexivity.
    - reflexivity. }
  destruct (reachable_loadPage_shows_page fs (catalogue 250) st 3 250
              (collectionStore_serves _) Hr ltac:(lia) eq_refl)
    as (Hm & Hc & _ & Hh & _).
  split; [|split]; [exact Hm|exact Hc|exact Hh].
Defined.

(** ** Invariants of the reachable sessions *)

(** X2. When an action has run to its end, no loading flag is left set:
    every path through [loadPage] and [loadAllMedications], the failing
    ones included, clears the flag it raised. *)
Theorem reachable_flags_cleared fs st :
  reachable fs st ->
  isLoading (fst st) = false /\ isLoadingAll (fst st) = false.
Proof.
  intros Hr. destruct (reachable_invariant fs st Hr). auto.
Qed.

Lemma reachable_flags_cleared_witness :
  let fs := unavailableStore [amoxicillin] in
  let st := loadPage 2 fs (initialStore, []) in
  error (fst st) = Some "unavailable" /\
  isLoading (fst st) = false /\ isLoadingAll (fst st) = false.
Proof.
  intros fs st. split; [reflexivity|].
  apply (reachable_flags_cleared fs st).
  apply (reach_step fs (LoadPage 2) (initialStore, []));
    [apply reach_init|reflexivity].
Defined.

(** X3. The page size stays 100 and the current page index never drops
    below 1, whatever page numbers the actions are called with. *)
Theorem reachable_page_bounds fs st :
  reachable fs st ->
  pageSize (fst st) = 100 /\ 1 <= currentPage (fst st).
Proof.
  intros Hr. destruct (reachable_invariant fs st Hr). auto.
Qed.

Lemma reachable_page_bounds_witness :
  let fs := collectionStore [amoxicillin] in
  let st := prevPage fs (loadPage (-3) fs (initialStore, [])) in
  pageSize (fst st) = 100 /\ 1 <= currentPage (fst st).
Proof.
  intros fs st. apply (reachable_page_bounds fs st).
  apply (reach_step fs PrevPage (loadPage (-3) fs (initialStore, []))).
  - apply (reach_step fs (LoadPage (-3)) (initialStore, []));
      [apply reach_init|reflexivity].
  - reflexivity.
Defined.

(** X4. The two flags of an exclusive filter pair are never set together:
    not [matchedOnly] with [unmatchedOnly], not [liquidsOnly] with
    [solidsOnly]. *)
Theorem reachable_filters_exclusive fs st :
  reachable fs st ->
  matchedOnly (fst st) && unmatchedOnly (fst st) = false /\
  liquidsOnly (fst st) && solidsOnly (fst st) = false.
Proof.
  intros Hr. destruct (reachable_invariant fs st Hr). auto.
Qed.

Lemma reachable_filters_exclusive_witness :
  let fs := collectionStore [amoxicillin] in
  let st : Session := (toggleMatchedOnly (toggleUnmatchedOnly initialStore), []) in
  matchedOnly (fst st) = true /\
  matchedOnly (fst st) && unmatchedOnly (fst st) = false /\
  liquidsOnly (fst st) && solidsOnly (fst st) = false.
Proof.
  intros fs st. split; [reflexivity|].
  apply (reachable_filters_exclusive fs st).
  apply (reach_step fs ToggleMatchedOnly (toggleUnmatchedOnly initialStore, [])).
  - apply (reach_step fs ToggleUnmatchedOnly (initialStore, []));
      [apply reach_init|reflexivity].
  - reflexivity.
Defined.

(** X5. The detail modal is open exactly when a record is selected;
    closing it after opening leaves neither. *)
Theorem reachable_modal_matches_selection fs st :
  reachable fs st ->
  (isDetailModalOpen (fst st) = true <->
     exists m, selectedMedication (fst st) = Some m) /\
  (forall m, isDetailModalOpen (closeDetailModal (openDetailModal m (fst st)))
             = false /\
             selectedMedication (closeDetailModal (openDetailModal m (fst st)))
             = None).
Proof.
  intros Hr. destruct (reachable_invariant fs st Hr) as [_ _ _ _ _ _ Hd].
  unfold modalMatchesSelection in Hd. split.
  - rewrite Hd. destruct (selectedMedication (fst st)) as [m|].
    + split; [eauto|reflexivity].
    + split; [discriminate|intros [m Hm]; discriminate].
  - intros m. split; reflexivity.
Qed.

Lemma reachable_modal_matches_selection_witness :
  let fs := collectionStore [amoxicillin] in
  let st : Session := (openDetailModal amoxicillin initialStore, []) in
  isDetailModalOpen (fst st) = true <->
  exists m, selectedMedication (fst st) = Some m.
Proof.
  intros fs st.
  apply (reachable_modal_matches_selection fs st).
  apply (reach_step fs (OpenDetailModal amoxicillin) (initialStore, []));
    [apply reach_init|reflexivity].
Defined.

(** ** How many pages a jump fetches *)

Lemma pageQueries_app evs1 evs2 :
  pageQueries (evs1 ++ evs2) = pageQueries evs1 ++ pageQueries evs2.
Proof.
  induction evs1 as [|ev evs1 IH]; [reflexivity|].
  destruct ev; simpl; rewrite IH; reflexivity.
Qed.

Lemma uncachedPages_ext s1 s pages :
  (forall j, In j pages -> lastDocuments s1 !! j = lastDocuments s !! j) ->
  uncachedPages s1 pages = uncachedPages s pages.
Proof.
  intros H. unfold uncachedPages. apply List.filter_ext_in.
  intros j Hj. rewrite (H j Hj). reflexivity.
Qed.

Lemma bridge_query_count fs pages : forall currentDoc s net,
  healthy fs -> NoDup pages ->
  exists cur' s' evs,
    bridge pages currentDoc fs (s, net) = (Ok cur', (s', net ++ evs)) /\
    length (pageQueries evs) = length (uncachedPages s pages) /\
    Forall (fun q => snd q = pageSize s) (pageQueries evs) /\
    pageSize s' = pageSize s.
Proof.
  induction pages as [|i rest IH]; intros cur s net Hh Hnd.
  - exists cur, s, []. rewrite app_nil_r. simpl. auto.
  - apply NoDup_cons in Hnd as [Hi Hnd]. rewrite bridge_cons.
    unfold uncachedPages. simpl. fold (uncachedPages s rest).
    destruct (lastDocuments s !! i) as [c|] eqn:Ec; [apply IH; assumption|].
    rewrite fetchMedicationsPage_eq. cbv zeta.
    destruct (proj2 Hh (S (length net)) cur (pageSize s)) as [docs Hd].
    rewrite Hd. cbn [firestoreApi.lastDoc pageResult].
    set (evs0 := [EvCount (getCountFromServer fs (length net));
                  EvGetDocs cur (pageSize s) (Ok docs)]).
    assert (Hstep : forall s1, pageSize s1 = pageSize s ->
              (forall j, In j rest -> lastDocuments s1 !! j = lastDocuments s !! j) ->
              forall cur1,
              exists cur' s' evs,
                bridge rest cur1 fs (s1, net ++ evs0) = (Ok cur', (s', net ++ evs)) /\
                length (pageQueries evs) = S (length (uncachedPages s rest)) /\
                Forall (fun q => snd q = pageSize s) (pageQueries evs) /\
                pageSize s' = pageSize s).
    { intros s1 Hp1 Hext cur1.
      destruct (IH cur1 s1 (net ++ evs0) Hh Hnd)
        as (cur' & s' & evs & E & Hn & Hq & Hp).
      exists cur', s', (evs0 ++ evs). rewrite app_assoc.
      split; [exact E|]. rewrite pageQueries_app, length_app.
      rewrite Hn, (uncachedPages_ext s1 s rest Hext). repeat split.
      - apply Forall_app. split; [repeat constructor|].
        rewrite <- Hp1. exact Hq.
      - congruence. }
    destruct (last docs) as [d|].
    + apply Hstep; [reflexivity|].
      intros j Hj. unfold cacheCursor. simpl. apply lookup_insert_ne.
      intros ->. apply Hi, list_elem_of_In. exact Hj.
    + apply Hstep; reflexivity.
Qed.

(** X6. A page load that is not rejected and meets no failure fetches one
    page when the cursor of the previous page is cached (or the page is the
    first), and otherwise one page for every page below it that has no
    cached cursor, plus the page itself; every query asks for [pageSize]
    records. *)
Theorem loadPage_fetches_uncached_pages fs s net N :
  healthy fs -> isLoading s = false -> 1 <= N ->
  let queries := pageQueries (drop (length net) (snd (loadPage N fs (s, net)))) in
  length queries
  = (if (1 <? N) && negb (bool_decide (is_Some (lastDocuments s !! (N - 1))))
     then S (length (uncachedPages s (seqZ 1 (N - 1))))
     else 1%nat) /\
  Forall (fun q => snd q = pageSize s) queries.
Proof.
  intros Hh Hl HN. unfold loadPage. cbn [fst snd]. rewrite Hl.
  destruct (N <? 1) eqn:E1; [apply Z.ltb_lt in E1; lia|].
  rewrite loadPage_try_eq. unfold firestoreApi.getMedicationCount.
  destruct (proj1 Hh (length net)) as [c Hc]. rewrite Hc.
  rewrite previousCursor_eq.
  set (s0 := set_error None (set_isLoading true s)).
  assert (Hfinal : forall lastDoc s1 evs k,
            pageSize s1 = pageSize s ->
            length (pageQueries evs) = k ->
            Forall (fun q => snd q = pageSize s) (pageQueries evs) ->
            let queries :=
              pageQueries (drop (length net)
                (snd (let (r, net3) :=
                        firestoreApi.fetchMedicationsPage (pageSize s1) lastDoc fs
                          ((net ++ [EvCount (Ok c)]) ++ evs) in
                      match r with
                      | Ok result =>
                          (loadPage_commit N c result s1, net3)
                      | Throw e => (loadPage_catch e s1, net3)
                      end))) in
            length queries = S k /\
            Forall (fun q => snd q = pageSize s) queries).
  { intros lastDoc s1 evs k Hp Hk Hq. rewrite fetchMedicationsPage_eq. cbv zeta.
    match goal with |- context [getDocs fs ?n lastDoc ?p] =>
      destruct (proj2 Hh n lastDoc p) as [docs Hd]; rewrite Hd end.
    cbn [snd]. rewrite <- !app_assoc, drop_app_length. simpl.
    rewrite pageQueries_app, length_app, Hk. simpl. split; [lia|].
    apply Forall_app. split; [exact Hq|]. rewrite Hp. repeat constructor. }
  destruct (1 <? N) eqn:E2; cbn [andb].
  - change (lastDocuments s0) with (lastDocuments s).
    destruct (lastDocuments s !! (N - 1)) as [c'|] eqn:Ec.
    + rewrite bool_decide_eq_true_2 by eauto. cbn [negb].
      specialize (Hfinal (Some c') s0 [] 0%nat eq_refl eq_refl (List.Forall_nil _)).
      rewrite app_nil_r in Hfinal.
      destruct (firestoreApi.fetchMedicationsPage (pageSize s0) (Some c') fs _)
        as [[result|e] net3]; exact Hfinal.
    + rewrite bool_decide_eq_false_2 by (intros [x Hx]; discriminate).
      cbn [negb].
      destruct (bridge_query_count fs (seqZ 1 (N - 1)) None s0
                  (net ++ [EvCount (Ok c)]) Hh (NoDup_seqZ _ _))
        as (cur' & s1 & evs & E & Hn & Hq & Hp).
      rewrite E.
      specialize (Hfinal cur' s1 evs _ Hp Hn Hq).
      destruct (firestoreApi.fetchMedicationsPage (pageSize s1) cur' fs _)
        as [[result|e] net3]; exact Hfinal.
  - specialize (Hfinal None s0 [] 0%nat eq_refl eq_refl (List.Forall_nil _)).
    rewrite app_nil_r in Hfinal.
    destruct (firestoreApi.fetchMedicationsPage (pageSize s0) None fs _)
      as [[result|e] net3]; exact Hfinal.
Qed.

Lemma loadPage_fetches_uncached_pages_witness :
  let fs := collectionStore [amoxicillin; atorvastatin] in
  length (pageQueries (snd (loadPage 3 fs (initialStore, [])))) = 3%nat.
Proof.
  intros fs.
  exact (proj1 (loadPage_fetches_uncached_pages fs initialStore [] 3
                  (collectionStore_healthy _) eq_refl ltac:(lia))).
Defined.

(** ** Next, at the end of the collection *)

Lemma pageSlice_length ps docs N :
  length (pageSlice ps docs N)
  = Nat.min ps (length docs - ps * Z.to_nat (N - 1)).
Proof. unfold pageSlice. rewrite length_take, length_drop. reflexivity. Qed.

Lemma ceiling_pages n K :
  100 * (K - 1) < n <= 100 * K -> - (- n / 100) = K.
Proof.
  intros Hn.
  pose proof (Z.div_mod (- n) 100 ltac:(lia)) as Hdm.
  pose proof (Z.mod_pos_bound (- n) 100 ltac:(lia)). lia.
Qed.

Lemma collection_loadPage docs N s net :
  SessionInvariant s -> cacheConsistent docs s -> 1 <= N ->
  let s' := fst (loadPage N (collectionStore docs) (s, net)) in
  medications s' = pageSlice 100 docs N /\
  currentPage s' = N /\
  totalCount s' = lengthZ docs /\
  hasMore s' = (lengthZ (pageSlice 100 docs N) =? 100) /\
  pageSize s' = 100 /\
  SessionInvariant s' /\ cacheConsistent docs s'.
Proof.
  intros Hinv Hs HN.
  pose proof (loadPage_invariant N (collectionStore docs) (s, net) Hinv) as Hinv'.
  destruct Hinv as [Hl _ Hp _ _ _ _].
  destruct (loadPage_serving (collectionStore docs) docs
              (collectionStore_serves docs) N s net (lengthZ docs)
              eq_refl Hl HN Hs) as (Hm & Hc & Ht & Hh & _ & _ & Hp' & Hs').
  rewrite Hp in Hm, Hh, Hp'.
  change (Z.to_nat PAGE_SIZE) with 100%nat in Hm, Hh.
  change PAGE_SIZE with 100 in Hh, Hp'. cbv zeta. auto 10.
Qed.

(** X7. On the last page of a collection, Next is offered exactly when the
    number of records is a multiple of 100: the full last page reports
    [hasMore]. Following it shows an empty page [K+1], beyond [totalPages],
    where Next is no longer offered; on a short last page [nextPage] does
    nothing at all. *)
Theorem next_page_at_the_end docs st K :
  reachable (collectionStore docs) st ->
  1 <= K ->
  100 * (K - 1) < lengthZ docs <= 100 * K ->
  let fs := collectionStore docs in
  let st1 := loadPage K fs st in
  totalPages (fst st1) = K /\
  (canGoNext (fst st1) = true <-> lengthZ docs = 100 * K) /\
  (lengthZ docs = 100 * K ->
     medications (fst (nextPage fs st1)) = [] /\
     currentPage (fst (nextPage fs st1)) = K + 1 /\
     canGoNext (fst (nextPage fs st1)) = false) /\
  (lengthZ docs < 100 * K -> nextPage fs st1 = st1).
Proof.
  intros Hr HK Hn fs st1.
  pose proof (reachable_invariant _ _ Hr) as Hinv.
  pose proof (reachable_consistent docs _ _ (collectionStore_serves docs) Hr)
    as Hs.
  destruct st as [s net]. cbn [fst] in Hinv, Hs.
  destruct (collection_loadPage docs K s net Hinv Hs HK)
    as (Hm & Hc & Ht & Hh & Hp & Hinv1 & Hs1).
  fold fs in Hm, Hc, Ht, Hh, Hp, Hinv1, Hs1. fold st1 in Hm, Hc, Ht, Hh, Hp, Hinv1, Hs1.
  unfold lengthZ in *.
  assert (Htp : totalPages (fst st1) = K).
  { unfold totalPages. rewrite Ht, Hp. apply ceiling_pages. exact Hn. }
  assert (Hfull : hasMore (fst st1) = true <-> Z.of_nat (length docs) = 100 * K).
  { rewrite Hh, pageSlice_length, Z.eqb_eq. lia. }
  assert (Hnext : canGoNext (fst st1) = hasMore (fst st1)).
  { unfold canGoNext. rewrite Htp, Hc.
    destruct (K <? K) eqn:E; [apply Z.ltb_lt in E; lia|]. apply orb_false_r. }
  split; [exact Htp|]. split; [rewrite Hnext; exact Hfull|]. split.
  - intros Hmult. unfold nextPage. rewrite Hnext, (proj2 Hfull Hmult), Hc.
    destruct st1 as [s1 net1]. cbn [fst] in *.
    destruct (collection_loadPage docs (K + 1) s1 net1 Hinv1 Hs1 ltac:(lia))
      as (Hm2 & Hc2 & Ht2 & Hh2 & Hp2 & _ & _).
    fold fs in Hm2, Hc2, Ht2, Hh2, Hp2.
    assert (Hempty : pageSlice 100 docs (K + 1) = []).
    { apply length_zero_iff_nil. rewrite pageSlice_length. lia. }
    rewrite Hempty in Hm2, Hh2. split; [exact Hm2|]. split; [exact Hc2|].
    unfold canGoNext, totalPages. rewrite Hh2, Hc2, Ht2, Hp2. simpl.
    apply Z.ltb_ge. unfold lengthZ. rewrite (ceiling_pages _ K Hn). lia.
  - intros Hshort. unfold nextPage. rewrite Hnext.
    destruct (hasMore (fst st1)) eqn:E; [|reflexivity].
    pose proof (proj1 Hfull eq_refl). lia.
Qed.

Lemma next_page_at_the_end_witness :
  let fs := collectionStore (catalogue 200) in
  let st1 := loadPage 2 fs (initialStore, []) in
  totalPages (fst st1) = 2 /\
  medications (fst (nextPage fs st1)) = [] /\
  currentPage (fst (nextPage fs st1)) = 3 /\
  canGoNext (fst (nextPage fs st1)) = false.
Proof.
  intros fs st1.
  destruct (next_page_at_the_end (catalogue 200) (initialStore, []) 2
              (reach_init _) ltac:(lia) ltac:(vm_compute; split; [reflexivity|discriminate]))
    as (Htp & _ & Hnext & _).
  split; [exact Htp|]. apply Hnext. reflexivity.
Defined.

(** ** The filters, taken together *)

Lemma filterWhen_filter cond (p q : MedicationDocument -> bool) l :
  filterWhen cond p (List.filter q l)
  = List.filter (fun m => q m && (negb cond || p m)) l.
Proof.
  unfold filterWhen. destruct cond; simpl.
  - induction l as [|m l IH]; simpl; [reflexivity|].
    destruct (q m); simpl; [destruct (p m)|]; rewrite IH; reflexivity.
  - apply List.filter_ext. intros m. rewrite andb_true_r. reflexivity.
Qed.

Lemma filter_true {A} (l : list A) : List.filter (fun _ => true) l = l.
Proof. induction l as [|x l IH]; simpl; [reflexivity|]. rewrite IH. reflexivity. Qed.

Lemma filteredMedications_eq s :
  filteredMedications s = List.filter (passesFilters s) (medications s).
Proof.
  unfold filteredMedications.
  rewrite <- (filter_true (medications s)) at 1.
  rewrite !filterWhen_filter. apply List.filter_ext. intros m.
  unfold passesFilters. reflexivity.
Qed.

(** X8. The filters remove records and do nothing else: the filtered list
    is the loaded list without the records that fail an enabled filter, in
    the loaded order and with repetitions kept; it is never longer than the
    loaded list. *)
Theorem filteredMedications_single_pass s :
  filteredMedications s = List.filter (passesFilters s) (medications s) /\
  sublist (filteredMedications s) (medications s) /\
  lengthZ (filteredMedications s) <= lengthZ (medications s).
Proof.
  rewrite filteredMedications_eq. split; [reflexivity|].
  assert (Hsub : forall l, sublist (List.filter (passesFilters s) l) l).
  { induction l as [|m l IH]; simpl; [constructor|].
    destruct (passesFilters s m); [apply sublist_skip|apply sublist_cons];
      exact IH. }
  split; [apply Hsub|].
  unfold lengthZ. apply inj_le, sublist_length, Hsub.
Qed.

Lemma trim_blank q : isBlank q = true -> JsString.trim q = "".
Proof.
  intros H. unfold JsString.trim, JsString.trimChars.
  assert (E : JsString.dropWhile JsString.isSpace (list_ascii_of_string q) = []).
  { induction q as [|c q IH]; simpl in *; [reflexivity|].
    apply andb_true_iff in H as [Hc Hq]. rewrite Hc. apply IH. exact Hq. }
  rewrite E. reflexivity.
Qed.

(** X9. With the filters reset every loaded record is shown, and a search
    text of blanks only filters nothing. *)
Theorem no_filter_shows_all s q :
  isBlank q = true ->
  filteredMedications (resetFilters s) = medications s /\
  filteredMedications (setSearchQuery q (resetFilters s)) = medications s /\
  filteredMedications (setSearchQuery q s)
  = filteredMedications (setSearchQuery "" s).
Proof.
  intros Hq.
  assert (Hblank : forall s0, searchActive (setSearchQuery q s0) = false).
  { intros s0. unfold searchActive, setSearchQuery. simpl.
    rewrite (trim_blank q Hq). reflexivity. }
  split; [reflexivity|]. split.
  - unfold filteredMedications. rewrite Hblank. reflexivity.
  - unfold filteredMedications. rewrite Hblank. reflexivity.
Qed.

Lemma no_filter_shows_all_witness :
  let s := set_medications [amoxicillin; cough_syrup]
             (toggleLiquidsOnly (setMinNdcCount 5 initialStore)) in
  filteredMedications s = [] /\
  filteredMedications (setSearchQuery "   " (resetFilters s))
  = [amoxicillin; cough_syrup].
Proof.
  intros s. split; [reflexivity|].
  exact (proj1 (proj2 (no_filter_shows_all s "   " eq_refl))).
Defined.

(** ** Sorting loses nothing *)

(** X10. Whatever the sort field, the direction and the host's
    [localeCompare], the sorted list holds exactly the filtered records,
    each as often as the filtered list does. *)
Theorem sortedMedications_permutation lc s :
  Permutation (sortedMedications lc s) (filteredMedications s) /\
  length (sortedMedications lc s) = length (filteredMedications s) /\
  (forall m, In m (sortedMedications lc s) <-> In m (filteredMedications s)).
Proof.
  pose proof (arraySort_perm (compareFn lc (sortField s) (sortDirection s))
                (filteredMedications s)) as Hp.
  split; [exact Hp|]. split; [apply Permutation_length; exact Hp|].
  intros m. split; apply Permutation_in; [exact Hp|symmetry; exact Hp].
Qed.

(** ** The counters of the statistics *)

Lemma filter_partition_length {A} (p : A -> bool) (l : list A) :
  (length (List.filter p l) + length (List.filter (fun x => negb (p x)) l)
   = length l)%nat.
Proof.
  induction l as [|x l IH]; simpl; [reflexivity|].
  destruct (p x); simpl; lia.
Qed.

Lemma totalNdcs_from (l : list MedicationDocument) : forall a,
  fold_left (fun sum m => sum + ndcCount m) l a
  = a + fold_left (fun sum m => sum + ndcCount m) l 0.
Proof.
  induction l as [|m l IH]; intros a; simpl; [lia|].
  rewrite (IH (a + ndcCount m)), (IH (0 + ndcCount m)). lia.
Qed.

(** X11. The counters of [stats] add up: [unmatched], computed by
    subtraction, is the number of records with the [UNMATCHED_] prefix and
    [solids] the number of non-liquid records, so matched + unmatched and
    liquids + solids both give the page count; [matched] is the number of
    rows the matched-only filter alone shows; no counter is negative. *)
Theorem stats_counters_add_up s :
  matched (stats s) + unmatched (stats s) = pageCount (stats s) /\
  liquids (stats s) + solids (stats s) = pageCount (stats s) /\
  unmatched (stats s) = lengthZ (List.filter isUnmatched (medications s)) /\
  solids (stats s)
  = lengthZ (List.filter (fun m => negb (is_liquid (conversion_values m)))
               (medications s)) /\
  matched (stats s)
  = lengthZ (filteredMedications (toggleMatchedOnly (resetFilters s))) /\
  unmatched (stats s)
  = lengthZ (filteredMedications (toggleUnmatchedOnly (resetFilters s))) /\
  0 <= matched (stats s) /\ 0 <= unmatched (stats s) /\
  0 <= liquids (stats s) /\ 0 <= solids (stats s) /\
  0 <= totalNdcs (stats s).
Proof.
  unfold stats. cbn [matched unmatched liquids solids pageCount totalNdcs].
  unfold lengthZ.
  pose proof (filter_partition_length (fun m => negb (isUnmatched m))
                (medications s)) as Hm.
  pose proof (filter_partition_length
                (fun m => is_liquid (conversion_values m)) (medications s)) as Hq.
  assert (Hneg : List.filter (fun x => negb (negb (isUnmatched x))) (medications s)
                 = List.filter isUnmatched (medications s)).
  { apply List.filter_ext. intros m. apply negb_involutive. }
  cbv beta in Hm, Hq. rewrite Hneg in Hm.
  assert (Hndc : forall l, 0 <= fold_left (fun sum m => sum + ndcCount m) l 0).
  { induction l as [|m l IH]; simpl; [lia|]. rewrite totalNdcs_from.
    unfold ndcCount at 1. lia. }
  assert (Hfm : filteredMedications (toggleMatchedOnly (resetFilters s))
                = List.filter (fun m => negb (isUnmatched m)) (medications s))
    by reflexivity.
  assert (Hfu : filteredMedications (toggleUnmatchedOnly (resetFilters s))
                = List.filter isUnmatched (medications s))
    by reflexivity.
  rewrite Hfm, Hfu.
  repeat split; try lia.
  apply Hndc.
Qed.

Example stats_counters_example :
  let s := set_medications [amoxicillin; cough_syrup; atorvastatin] initialStore in
  (matched (stats s), unmatched (stats s), liquids (stats s), solids (stats s),
   totalNdcs (stats s)) = (2, 1, 1, 2, 3).
Proof. reflexivity. Qed.

(** ** The bulk load, page by page *)

Lemma drain_serving {St} (onP : Z -> option Z -> St -> St) total fs docs fuel :
  servesCollection fs docs ->
  forall acc lastDoc s net,
  (length docs - resumeIndex lastDoc < fuel)%nat ->
  exists s0 evs,
    let result := acc ++ drop (resumeIndex lastDoc) docs in
    firestoreApi.drain fuel onP total acc lastDoc fs (s, net)
    = Some (Ok result, (onP (Z.of_nat (length result)) total s0, net ++ evs)) /\
    length (pageQueries evs)
    = S ((length docs - resumeIndex lastDoc) / 100)%nat.
Proof.
  intros Hserve.
  induction fuel as [|fuel IH]; intros acc lastDoc s net Hfuel; [lia|].
  cbn [firestoreApi.drain fst snd]. rewrite fetchMedicationsPage_eq. cbv zeta.
  rewrite (Hserve (S (length net)) lastDoc 100).
  cbn [firestoreApi.hasMore pageResult firestoreApi.medications
       firestoreApi.lastDoc].
  change (Z.to_nat 100) with 100%nat.
  set (j := resumeIndex lastDoc) in *.
  set (page := take 100 (drop j (snapshotsOf docs))).
  set (evs0 := [EvCount (getCountFromServer fs (length net));
                EvGetDocs lastDoc 100 (Ok page)]).
  assert (Hdata : map snap_data page = take 100 (drop j docs))
    by apply snapshot_page_data.
  assert (Hlen : length page = Nat.min 100 (length docs - j))
    by apply snapshot_page_length.
  destruct (Z.of_nat (length page) =? 100) eqn:Efull.
  - apply Z.eqb_eq in Efull.
    pose proof (snapshot_page_last docs 100 j) as Hlast. fold page in Hlast.
    destruct (last page) as [c|]; [|lia]. destruct Hlast as [_ Hc].
    destruct (IH (acc ++ map snap_data page) (Some c)
                (onP (Z.of_nat (length (acc ++ map snap_data page))) total s)
                (net ++ evs0))
      as (s0 & evs & E & Hq).
    { simpl. lia. }
    cbv zeta in E. cbn [resumeIndex] in E, Hq.
    assert (Hres : (acc ++ map snap_data page) ++ drop (S (snap_ref c)) docs
                   = acc ++ drop j docs).
    { rewrite Hdata, <- app_assoc. f_equal.
      replace (S (snap_ref c)) with (j + 100)%nat by lia.
      rewrite <- (drop_drop docs 100 j), take_drop. reflexivity. }
    rewrite Hres in E.
    exists s0, (evs0 ++ evs). cbv zeta. rewrite E, app_assoc.
    split; [reflexivity|]. rewrite pageQueries_app, length_app, Hq.
    change (length (pageQueries evs0)) with 1%nat.
    replace (length docs - j)%nat
      with (length docs - S (snap_ref c) + 1 * 100)%nat by lia.
    rewrite Nat.div_add by lia. lia.
  - apply Z.eqb_neq in Efull.
    assert (Hrest : take 100 (drop j docs) = drop j docs).
    { apply take_ge. rewrite length_drop. lia. }
    exists s, evs0. cbv zeta. rewrite Hdata, Hrest.
    split; [reflexivity|]. change (length (pageQueries evs0)) with 1%nat.
    rewrite Nat.div_small by lia. reflexivity.
Qed.

(** X13. Against a store that serves a finite collection, whether or not
    its count aggregate answers, a bulk load comes to an end within one page
    per record, loads the whole collection in order, leaves the progress
    counter and the total at the number of records, and has fetched
    [n / 100 + 1] pages: one more than needed when [n] is a multiple of
    100. *)
Theorem bulk_load_loads_everything fs docs s net :
  servesCollection fs docs ->
  isLoadingAll s = false -> isLoading s = false ->
  exists s' net',
    loadAllMedications (S (length docs)) fs (s, net) = Some (s', net') /\
    medications s' = docs /\
    error s' = None /\
    loadingProgress s' = lengthZ docs /\
    totalCount s' = lengthZ docs /\
    length (pageQueries (drop (length net) net')) = S (length docs / 100).
Proof.
  intros Hserve Ha Hl. unfold loadAllMedications. cbn [fst snd]. rewrite Ha, Hl.
  cbn [orb]. unfold firestoreApi.fetchAllMedications. cbn [fst snd].
  unfold firestoreApi.getMedicationCount.
  set (s0 := set_error None _).
  set (total := match getCountFromServer fs (length net) with
                | Ok c => Some c
                | Throw _ => None
                end).
  set (net1 := net ++ [EvCount (getCountFromServer fs (length net))]).
  destruct (drain_serving onProgress total fs docs (S (length docs)) Hserve
              [] None s0 net1) as (s1 & evs & E & Hq); [simpl; lia|].
  cbv zeta in E. cbn [resumeIndex app] in E, Hq.
  rewrite drop_0 in E. rewrite Nat.sub_0_r in Hq. rewrite E.
  eexists. eexists. split; [reflexivity|].
  assert (Herr : error (onProgress (Z.of_nat (length docs)) total s1) = None).
  { apply (drain_frame error onProgress_error) in E. exact E. }
  assert (Hprog : loadingProgress (onProgress (Z.of_nat (length docs)) total s1)
                  = Z.of_nat (length docs))
    by (destruct total; reflexivity).
  subst net1. rewrite <- app_assoc, drop_app_length.
  cbn [app pageQueries]. rewrite Hq.
  repeat split; try assumption; reflexivity.
Qed.

Lemma bulk_load_loads_everything_witness :
  exists s' net',
    loadAllMedications 201 (countDeniedStore (catalogue 200)) (initialStore, [])
    = Some (s', net') /\
    medications s' = catalogue 200 /\
    error s' = None /\
    loadingProgress s' = 200 /\
    totalCount s' = 200 /\
    length (pageQueries (drop 0 net')) = 3%nat.
Proof.
  exact (bulk_load_loads_everything (countDeniedStore (catalogue 200))
           (catalogue 200) initialStore []
           (countDeniedStore_serves _) eq_refl eq_refl).
Defined.

(** ** A bulk load that fails *)

(** X14. When a document query fails during a bulk load, the load ends with
    the failure message in the error slot and [isLoadingAll] cleared; the
    records shown and the current page are those of before the call, however
    many pages had already been drained. *)
Theorem bulk_load_failure_keeps_page fuel fs s net s' net' ev e :
  loadAllMedications fuel fs (s, net) = Some (s', net') ->
  In ev (drop (length net) net') ->
  queryFailed e ev ->
  error s' = Some (messageOf e "Failed to load all medications") /\
  isLoadingAll s' = false /\
  allMedicationsLoaded s' = allMedicationsLoaded s /\
  medications s' = medications s /\
  currentPage s' = currentPage s.
Proof.
  unfold loadAllMedications. cbn [fst snd].
  destruct (isLoadingAll s || isLoading s).
  { intros H; inversion H; subst. rewrite drop_all. intros []. }
  destruct (firestoreApi.fetchAllMedications fuel onProgress fs _)
    as [[r [s1 net1]]|] eqn:E; [|discriminate].
  assert (Hprog : forall B (f : MedicationViewerStore -> B),
            (forall v s, f (set_loadingProgress v s) = f s) ->
            (forall v s, f (set_totalCount v s) = f s) ->
            forall loaded total s, f (onProgress loaded total s) = f s).
  { intros B f H1 H2 loaded [t|] s0; unfold onProgress; rewrite ?H2, H1;
      reflexivity. }
  assert (Hframe : forall B (f : MedicationViewerStore -> B),
            (forall v s, f (set_loadingProgress v s) = f s) ->
            (forall v s, f (set_totalCount v s) = f s) ->
            (forall v s, f (set_isLoadingAll v s) = f s) ->
            (forall v s, f (set_error v s) = f s) ->
            f s1 = f s).
  { intros B f H1 H2 H3 H4.
    pose proof (fetchAllMedications_frame f (Hprog _ f H1 H2) _ _ _ _ _ E)
      as Hf.
    cbn [fst] in Hf. rewrite Hf, H4, H1, H3. reflexivity. }
  unfold firestoreApi.fetchAllMedications, firestoreApi.getMedicationCount in E.
  cbn [fst snd] in E.
  apply drain_failure in E as (evs & -> & Hevs).
  intros H Hin Hq.
  assert (Hr : r = Throw e).
  { apply (Hevs ev e); [|exact Hq].
    assert (Hnet : net' = net ++ EvCount (getCountFromServer fs (length net)) :: evs)
      by (destruct r; inversion H; subst; rewrite <- app_assoc; reflexivity).
    rewrite Hnet, drop_app_length in Hin.
    destruct Hin as [<-|Hin]; [simpl in Hq; contradiction|exact Hin]. }
  subst r. inversion H; subst. unfold loadAll_catch.
  cbn [error isLoadingAll set_isLoadingAll set_error].
  split; [reflexivity|]. split; [reflexivity|].
  split; [|split].
  - rewrite <- (Hframe _ allMedicationsLoaded); auto.
  - rewrite <- (Hframe _ medications); auto.
  - rewrite <- (Hframe _ currentPage); auto.
Qed.

Lemma bulk_load_failure_keeps_page_witness :
  let s := set_currentPage 2 (set_medications [amoxicillin] initialStore) in
  exists s' net',
    loadAllMedications 5 (unavailableStore [amoxicillin; atorvastatin]) (s, [])
    = Some (s', net') /\
    error s' = Some "unavailable" /\
    isLoadingAll s' = false /\
    allMedicationsLoaded s' = false /\
    medications s' = [amoxicillin] /\
    currentPage s' = 2.
Proof.
  eexists. eexists. split; [reflexivity|].
  eapply (bulk_load_failure_keeps_page 5
            (unavailableStore [amoxicillin; atorvastatin])
            (set_currentPage 2 (set_medications [amoxicillin] initialStore)) [] _ _
            (EvGetDocs None 100 (Throw (ErrorObj "unavailable")))
            (ErrorObj "unavailable")).
  - reflexivity.
  - right. right. left. reflexivity.
  - reflexivity.
Defined.

(** ** Refresh *)


(** ** What a page fetch returns *)

Lemma last_map {A B} (f : A -> B) (l : list A) : last (map f l) = f <$> last l.
Proof.
  induction l as [|x l IH]; [reflexivity|].
  destruct l as [|y l]; [reflexivity|]. exact IH.
Qed.

(** X16. [fetchMedicationsPage] makes two round trips, the count and the
    query, and its outcome is the one of the query: a failing count only
    turns the total into 0. On success it returns the data of the documents
    in order; the cursor is absent exactly when no record came back and is
    otherwise the snapshot of the last record returned. *)
Theorem fetchMedicationsPage_outcome pageSize lastDocument fs net :
  exists rc rd,
    snd (firestoreApi.fetchMedicationsPage pageSize lastDocument fs net)
    = net ++ [EvCount rc; EvGetDocs lastDocument pageSize rd] /\
    match rd with
    | Throw e =>
        fst (firestoreApi.fetchMedicationsPage pageSize lastDocument fs net)
        = Throw e
    | Ok docs =>
        exists result,
          fst (firestoreApi.fetchMedicationsPage pageSize lastDocument fs net)
          = Ok result /\
          firestoreApi.medications result = map snap_data docs /\
          firestoreApi.totalCount result = countOrZero rc /\
          (firestoreApi.lastDoc result = None
             <-> firestoreApi.medications result = []) /\
          last (firestoreApi.medications result)
          = snap_data <$> firestoreApi.lastDoc result
    end.
Proof.
  rewrite fetchMedicationsPage_eq. cbv zeta. cbn [fst snd].
  eexists. eexists. split; [reflexivity|].
  destruct (getDocs fs (S (length net)) lastDocument pageSize) as [docs|e];
    [|reflexivity].
  eexists. split; [reflexivity|].
  cbn [firestoreApi.medications firestoreApi.totalCount firestoreApi.lastDoc
       pageResult].
  split; [reflexivity|]. split; [reflexivity|]. split.
  - rewrite last_None. split; intros H.
    + rewrite H. reflexivity.
    + destruct docs; [reflexivity|discriminate].
  - apply last_map.
Qed.

(** ** The cursor cache after a load *)

Lemma bridge_keeps_cursors pages : forall currentDoc fs s net r s' net' i c,
  bridge pages currentDoc fs (s, net) = (r, (s', net')) ->
  lastDocuments s !! i = Some c -> lastDocuments s' !! i = Some c.
Proof.
  induction pages as [|j rest IH]; intros cur fs s net r s' net' i c H Hc.
  - inversion H; subst. exact Hc.
  - rewrite bridge_cons in H.
    destruct (lastDocuments s !! j) as [cj|] eqn:Ej; [eapply IH; eassumption|].
    destruct (firestoreApi.fetchMedicationsPage (pageSize s) cur fs net)
      as [[result|e] net1].
    + destruct (firestoreApi.lastDoc result) as [d|];
        [|eapply IH; eassumption].
      eapply IH; [exact H|]. unfold cacheCursor. simpl.
      rewrite lookup_insert_ne; [exact Hc|]. intros ->. congruence.
    + inversion H; subst. exact Hc.
Qed.

Lemma previousCursor_keeps_cursors page fs s net r s' net' i c :
  previousCursor page fs (s, net) = (r, (s', net')) ->
  lastDocuments s !! i = Some c -> lastDocuments s' !! i = Some c.
Proof.
  rewrite previousCursor_eq.
  destruct (1 <? page); [|intros [= <- <- <-]; auto].
  destruct (lastDocuments s !! (page - 1)); [intros [= <- <- <-]; auto|].
  apply bridge_keeps_cursors.
Qed.

(** X17. A page load never evicts a cursor: whatever its outcome, every
    cursor cached for another page is still cached, unchanged, afterwards.
    And when the load succeeds with a non-empty page, the cursor cached for
    that page is the snapshot of the last record shown. *)
Theorem loadPage_keeps_cursors page fs s net :
  let s' := fst (loadPage page fs (s, net)) in
  (forall i c, i <> page ->
     lastDocuments s !! i = Some c -> lastDocuments s' !! i = Some c) /\
  (isLoading s = false -> 1 <= page -> error s' = None ->
   medications s' <> [] ->
   exists c, lastDocuments s' !! page = Some c /\
             last (medications s') = Some (snap_data c)).
Proof.
  unfold loadPage. cbn [fst snd].
  destruct (isLoading s) eqn:Hl; [split; [auto|discriminate]|].
  destruct (page <? 1) eqn:E1.
  { split; [auto|]. apply Z.ltb_lt in E1. lia. }
  rewrite loadPage_try_eq.
  destruct (firestoreApi.getMedicationCount fs net) as [[count|e] net1];
    [|split; [auto|discriminate]].
  destruct (previousCursor page fs _) as [[lastDoc|e] [s1 net2]] eqn:Ep;
    [|split; [|discriminate];
      intros i c _ Hc; cbn [fst];
      apply (previousCursor_keeps_cursors _ _ _ _ _ _ _ i c Ep); exact Hc].
  pose proof (fun i c => previousCursor_keeps_cursors _ _ _ _ _ _ _ i c Ep)
    as Hkeep.
  cbn [lastDocuments set_error set_isLoading] in Hkeep.
  rewrite fetchMedicationsPage_eq. cbv zeta.
  destruct (getDocs fs (S (length net2)) lastDoc (pageSize s1)) as [docs|e];
    cbn [fst]; [|split; [intros i c _; apply Hkeep|discriminate]].
  unfold loadPage_commit.
  cbn [firestoreApi.lastDoc firestoreApi.medications pageResult].
  destruct (last docs) as [d|] eqn:Elast; simpl.
  - split.
    + intros i c Hne Hc. rewrite lookup_insert_ne by congruence.
      apply Hkeep. exact Hc.
    + intros _ _ _ _. exists d. rewrite lookup_insert_eq. split; [reflexivity|].
      rewrite last_map, Elast. reflexivity.
  - split; [intros i c _; apply Hkeep|].
    intros _ _ _ Hne. exfalso. apply Hne.
    apply last_None in Elast. rewrite Elast. reflexivity.
Qed.

(** ** Start-up *)

(** X18. [initialize] contacts the store only when the API key, the project
    id and the app id are all set and the anonymous sign-in succeeded. With
    a setting missing it reports the configuration error and leaves the
    authentication flag alone; with a failed sign-in it reports the failure
    and clears the flag; otherwise it sets the flag and loads page 1. *)
Theorem initialize_needs_configuration cfg signIn fs st :
  let st' := initialize (firebaseApp cfg signIn) fs st in
  (isFirebaseConfigured_of cfg = false ->
     snd st' = snd st /\
     error (fst st')
     = Some "Firebase is not configured. Please check your .env file." /\
     isAuthenticated (fst st') = isAuthenticated (fst st) /\
     medications (fst st') = medications (fst st)) /\
  (forall e, isFirebaseConfigured_of cfg = true -> signIn = Throw e ->
     snd st' = snd st /\
     error (fst st') = Some (messageOf e "Failed to authenticate") /\
     isAuthenticated (fst st') = false /\
     medications (fst st') = medications (fst st)) /\
  (forall u, isFirebaseConfigured_of cfg = true -> signIn = Ok u ->
     isAuthenticated (fst st') = true /\
     st' = loadPage 1 fs (set_isAuthenticated true (fst st), snd st)) /\
  (snd st' <> snd st ->
     truthy (apiKey cfg) = true /\ truthy (projectId cfg) = true /\
     truthy (appId cfg) = true /\ exists u, signIn = Ok u).
Proof.
  unfold initialize, firebaseApp. cbn [isFirebaseConfigured initAuth].
  destruct (isFirebaseConfigured_of cfg) eqn:Ec; cbn [negb].
  - destruct signIn as [u|e].
    + split; [discriminate|]. split; [discriminate|]. split.
      * intros u' _ _. split; [|reflexivity].
        rewrite (loadPage_field isAuthenticated); auto.
      * intros _. unfold isFirebaseConfigured_of in Ec.
        apply andb_true_iff in Ec as [Ec Ha].
        apply andb_true_iff in Ec as [Hk Hp]. eauto.
    + split; [discriminate|]. split.
      * intros e' _ [= <-]. auto.
      * split; [discriminate|]. intros H. contradiction.
  - split; [auto|]. split; [discriminate|]. split; [discriminate|].
    intros H. contradiction.
Qed.

(** ** Pages and totals *)

(** X19. For a positive page size, [totalPages] is the least number of
    pages that hold [totalCount] records. *)
Theorem totalPages_covers s :
  0 < pageSize s ->
  (totalPages s - 1) * pageSize s < totalCount s <= totalPages s * pageSize s.
Proof.
  intros Hp. unfold totalPages.
  pose proof (Z.div_mod (- totalCount s) (pageSize s) ltac:(lia)) as Hdm.
  pose proof (Z.mod_pos_bound (- totalCount s) (pageSize s) Hp). nia.
Qed.

Lemma totalPages_covers_witness :
  let s := set_totalCount 250 initialStore in
  totalPages s = 3 /\
  (totalPages s - 1) * pageSize s < totalCount s <= totalPages s * pageSize s.
Proof.
  intros s. split; [reflexivity|].
  apply (totalPages_covers s). reflexivity.
Defined.

(** ** Choosing the sort field again *)

(** X20. Choosing the active sort field twice in a row gives back the
    controller as it was, and with it the same sorted list; from any state,
    choosing a field a third time undoes the second. *)
Theorem setSortField_twice lc field s :
  (sortField s = field -> setSortField field (setSortField field s) = s) /\
  (sortField s = field ->
     sortedMedications lc (setSortField field (setSortField field s))
     = sortedMedications lc s) /\
  setSortField field (setSortField field (setSortField field s))
  = setSortField field s.
Proof.
  assert (Hsame : forall s0, sortField s0 = field ->
            setSortField field (setSortField field s0) = s0).
  { intros s0 H. unfold setSortField.
    rewrite (proj2 (SortField_eqb_eq _ _) H). simpl.
    rewrite (proj2 (SortField_eqb_eq _ _) H).
    destruct s0. simpl.
    match goal with
    | |- context [flipDirection (flipDirection ?d)] => destruct d
    end; reflexivity. }
  split; [apply Hsame|]. split.
  - intros H. rewrite (Hsame s H). reflexivity.
  - apply Hsame. unfold setSortField.
    destruct (SortField_eqb (sortField s) field) eqn:E; simpl;
      [apply SortField_eqb_eq; exact E|reflexivity].
Qed.

(** ** Cleaning a medication name *)

Lemma trimChars_head l :
  match JsString.trimChars l with
  | [] => True
  | c :: _ => JsString.isSpace c = false
  end.
Proof.
  unfold JsString.trimChars.
  pose proof (dropWhile_head JsString.isSpace l) as Ha.
  destruct (JsString.dropWhile JsString.isSpace l) as [|c a]; [exact I|].
  simpl. rewrite (dropWhile_stop JsString.isSpace (rev a) c Ha).
  rewrite rev_app_distr. simpl. exact Ha.
Qed.

Lemma trimChars_idem l :
  JsString.trimChars (JsString.trimChars l) = JsString.trimChars l.
Proof.
  pose proof (trimChars_head l) as Hh.
  unfold JsString.trimChars at 1.
  rewrite (dropWhile_fixed JsString.isSpace _ Hh).
  unfold JsString.trimChars. rewrite rev_involutive, dropWhile_idem.
  reflexivity.
Qed.

Lemma trimChars_dropWhile l :
  JsString.trimChars (JsString.dropWhile JsString.isSpace l)
  = JsString.trimChars l.
Proof. unfold JsString.trimChars. rewrite dropWhile_idem. reflexivity. Qed.

Lemma trim_of_chars l :
  JsString.trim (string_of_list_ascii l)
  = string_of_list_ascii (JsString.trimChars l).
Proof.
  unfold JsString.trim. rewrite list_ascii_of_string_of_list_ascii.
  reflexivity.
Qed.

(** X21. The cleaned name never starts or ends with a blank: trimming it
    again changes nothing. A name that does not start with an opening brace
    is only trimmed. *)
Theorem cleanMedicationName_trimmed name :
  JsString.trim (formatters.cleanMedicationName name)
  = formatters.cleanMedicationName name /\
  (JsString.startsWith name "{" = false ->
   formatters.cleanMedicationName name = JsString.trim name).
Proof.
  split.
  - unfold formatters.cleanMedicationName.
    destruct name as [|c name]; [reflexivity|].
    cbv zeta. rewrite trim_of_chars, trimChars_idem. reflexivity.
  - unfold formatters.cleanMedicationName, JsString.trim.
    destruct name as [|c name]; [reflexivity|]. intros H.
    assert (Hc : c <> "{"%char).
    { intros ->. simpl in H. destruct name; discriminate. }
    cbv zeta. cbn [list_ascii_of_string]. unfold formatters.matchLeadingTag.
    destruct c as [[] [] [] [] [] [] [] []]; try reflexivity.
    contradiction Hc. reflexivity.
Qed.

Lemma cleanMedicationName_trimmed_witness :
  formatters.cleanMedicationName "  Cough Syrup 5 ML " = "Cough Syrup 5 ML".
Proof.
  rewrite (proj2 (cleanMedicationName_trimmed "  Cough Syrup 5 ML ") eq_refl).
  reflexivity.
Defined.

Lemma space_not_digit c : JsString.isSpace c = true -> JsString.isDigit c = false.
Proof.
  destruct c as [[] [] [] [] [] [] [] []]; vm_compute; congruence.
Qed.

(** X22. A name wrapped in a numbered brace tag, an opening brace, one or
    more digits, one or more blanks, the text and a closing brace, is
    cleaned to the trimmed text, whatever the text is. *)
Theorem cleanMedicationName_strips_tag digits blanks body :
  digits <> [] -> Forall (fun c => JsString.isDigit c = true) digits ->
  blanks <> [] -> Forall (fun c => JsString.isSpace c = true) blanks ->
  formatters.cleanMedicationName
    (string_of_list_ascii ("{"%char :: digits ++ blanks ++ body ++ ["}"%char]))
  = JsString.trim (string_of_list_ascii body).
Proof.
  intros Hd Hdig Hb Hsp.
  unfold formatters.cleanMedicationName. cbn [string_of_list_ascii].
  change (String "{" (string_of_list_ascii (digits ++ blanks ++ body ++ ["}"%char])))
    with (string_of_list_ascii
            ("{"%char :: digits ++ blanks ++ body ++ ["}"%char])).
  cbv zeta. rewrite list_ascii_of_string_of_list_ascii.
  unfold formatters.matchLeadingTag. cbv zeta.
  assert (H1 : JsString.dropWhile JsString.isDigit
                 (digits ++ blanks ++ body ++ ["}"%char])
               = blanks ++ body ++ ["}"%char]).
  { rewrite dropWhile_all by exact Hdig. apply dropWhile_fixed.
    destruct blanks as [|c blanks]; [contradiction|]. simpl.
    apply space_not_digit. inversion Hsp; assumption. }
  assert (H2 : JsString.dropWhile JsString.isSpace
                 (blanks ++ body ++ ["}"%char])
               = JsString.dropWhile JsString.isSpace body ++ ["}"%char]).
  { rewrite dropWhile_all by exact Hsp. apply dropWhile_stop. reflexivity. }
  rewrite H1, H2.
  assert (Hl1 : (length (blanks ++ body ++ ["}"%char])
                 <? length (digits ++ blanks ++ body ++ ["}"%char]))%nat = true).
  { apply Nat.ltb_lt. rewrite (length_app digits).
    destruct digits; [contradiction|]. simpl. lia. }
  assert (Hl2 : (length (JsString.dropWhile JsString.isSpace body ++ ["}"%char])
                 <? length (blanks ++ body ++ ["}"%char]))%nat = true).
  { apply Nat.ltb_lt. rewrite !length_app.
    pose proof (dropWhile_length JsString.isSpace body).
    destruct blanks; [contradiction|]. simpl. lia. }
  rewrite Hl1, Hl2. cbn [andb].
  unfold formatters.dropTrailingBrace. rewrite rev_app_distr. simpl.
  rewrite rev_involutive, trimChars_dropWhile, trim_of_chars. reflexivity.
Qed.

Lemma cleanMedicationName_strips_tag_witness :
  formatters.cleanMedicationName "{12  warfarin 5 MG }" = "warfarin 5 MG".
Proof.
  change (formatters.cleanMedicationName
            (string_of_list_ascii
               ("{"%char :: list_ascii_of_string "12"
                  ++ list_ascii_of_string "  "
                  ++ list_ascii_of_string "warfarin 5 MG " ++ ["}"%char]))
          = JsString.trim
              (string_of_list_ascii (list_ascii_of_string "warfarin 5 MG "))).
  apply cleanMedicationName_strips_tag.
  - discriminate.
  - repeat constructor.
  - discriminate.
  - repeat constructor.
Defined.

(** ** Next and back *)

(** X23. Against a store that serves a fixed collection, going to the next
    page from a full page [N] and back shows the records of page [N] again,
    with the same page index, total and [hasMore]. *)
Theorem next_then_prev_returns docs st N :
  reachable (collectionStore docs) st ->
  1 <= N ->
  let fs := collectionStore docs in
  let st1 := loadPage N fs st in
  hasMore (fst st1) = true ->
  let st3 := prevPage fs (nextPage fs st1) in
  currentPage (fst (nextPage fs st1)) = N + 1 /\
  medications (fst st3) = medications (fst st1) /\
  currentPage (fst st3) = N /\
  totalCount (fst st3) = totalCount (fst st1) /\
  hasMore (fst st3) = true.
Proof.
  intros Hr HN fs st1 Hfull.
  pose proof (reachable_invariant _ _ Hr) as Hinv.
  pose proof (reachable_consistent docs _ _ (collectionStore_serves docs) Hr)
    as Hs.
  destruct st as [s net]. cbn [fst] in Hinv, Hs.
  destruct (collection_loadPage docs N s net Hinv Hs HN)
    as (Hm & Hc & Ht & Hh & _ & Hinv1 & Hs1).
  fold fs in Hm, Hc, Ht, Hh, Hinv1, Hs1. fold st1 in Hm, Hc, Ht, Hh, Hinv1, Hs1.
  assert (E2 : nextPage fs st1 = loadPage (N + 1) fs st1).
  { unfold nextPage, canGoNext. rewrite Hfull, Hc. reflexivity. }
  destruct st1 as [s1 net1]. cbn [fst] in *.
  destruct (collection_loadPage docs (N + 1) s1 net1 Hinv1 Hs1 ltac:(lia))
    as (_ & Hc2 & _ & _ & _ & Hinv2 & Hs2).
  fold fs in Hc2, Hinv2, Hs2. rewrite <- E2 in Hc2, Hinv2, Hs2.
  cbv zeta.
  assert (E3 : prevPage fs (nextPage fs (s1, net1))
               = loadPage N fs (nextPage fs (s1, net1))).
  { unfold prevPage, canGoPrev. rewrite Hc2.
    destruct (1 <? N + 1) eqn:E; [|apply Z.ltb_ge in E; lia].
    replace (N + 1 - 1) with N by lia. reflexivity. }
  rewrite E3.
  destruct (nextPage fs (s1, net1)) as [s2 net2]. cbn [fst] in *.
  destruct (collection_loadPage docs N s2 net2 Hinv2 Hs2 HN)
    as (Hm3 & Hc3 & Ht3 & Hh3 & _).
  fold fs in Hm3, Hc3, Ht3, Hh3.
  rewrite Hm3, Hc3, Ht3, Hh3, Hm, Ht, <- Hh. auto.
Qed.

Lemma next_then_prev_returns_witness :
  let fs := collectionStore (catalogue 250) in
  let st1 := loadPage 2 fs (initialStore, []) in
  medications (fst (prevPage fs (nextPage fs st1))) = medications (fst st1) /\
  currentPage (fst (prevPage fs (nextPage fs st1))) = 2.
Proof.
  intros fs st1.
  destruct (next_then_prev_returns (catalogue 250) (initialStore, []) 2
              (reach_init _) ltac:(lia) ltac:(vm_compute; reflexivity))
    as (_ & Hm & Hc & _).
  split; [exact Hm|exact Hc].
Defined.
